(** * MLIT ingestion pipeline: a shallow embedding of [dbutils/ingest_data.py]

    The development models the record transformer, the content hash, the
    idempotent loader, the period probe, the harvest loop and the FX fetch
    of the ingestion script, and states the properties of the design
    document against that model.

    Conventions.
    - A Python [str] is represented by its UTF-8 text (a [string] of bytes);
      [len] and slicing count code points.  A [str] that holds a lone
      surrogate has no UTF-8 text and is outside the model: encoding it,
      as the content hash does with its key string, raises
      [UnicodeEncodeError].
    - The character classes and the number parsers are those of CPython
      3.11: [str.isdigit], [str.strip], [int] and [float] know the digits
      and blanks of every script (Unicode 14.0), and [int] converts at most
      4300 digits.
    - A Python [float] is an IEEE binary64 value ([spec_float] with
      precision 53 and maximal exponent 1024).
    - Raw field values are the JSON scalars [null], booleans, integers and
      strings; a JSON number with a fraction or an exponent (a Python
      [float]) is outside the model.
    - An exception is a value of [exn]; a computation that may raise
      returns [res].
    - The database is a record of tables; a conflict target is the key of
      its table, and no other constraint is modelled.
    - The two upstream services are oracles, and time is logical: a
      request and a pause are events of a trace. *)

From Stdlib Require Import ZArith List Ascii String Bool Lia DecimalString.
From Stdlib Require Import Floats.SpecFloat.
From stdpp Require Import base option list gmap strings.

Local Open Scope string_scope.
Local Open Scope Z_scope.

Set Warnings "-clear-no-such-hyp".

(** ** Exceptions *)

Inductive exn : Type :=
  | TypeError
  | ValueError
  | OverflowError
  | RecursionError
  | ApiError.

Inductive res (A : Type) : Type :=
  | Ok (a : A)
  | Raise (e : exn).

Arguments Ok {A} a.
Arguments Raise {A} e.

Definition res_bind {A B : Type} (m : res A) (k : A -> res B) : res B :=
  match m with
  | Ok a => k a
  | Raise e => Raise e
  end.

Notation "'do' x <- m ; k" := (res_bind m (fun x => k))
  (at level 10, x name, m at level 100, k at level 200).

(** ** Text *)

Module PyStr.

Definition code (c : ascii) : Z := Z.of_N (N_of_ascii c).

(** *** Characters

    A byte that is not a continuation byte opens a character, which takes
    the continuation bytes after it. *)

Definition is_continuation (c : ascii) : bool :=
  (128 <=? code c) && (code c <=? 191).

Definition opens_with_continuation (s : string) : bool :=
  match s with
  | String c _ => is_continuation c
  | EmptyString => false
  end.

(** The characters of a text, each as the bytes that encode it. *)
Fixpoint chars (s : string) : list string :=
  match s with
  | String c rest =>
      match chars rest with
      | ch :: more =>
          if opens_with_continuation rest then String c ch :: more
          else String c EmptyString :: ch :: more
      | [] => [String c EmptyString]
      end
  | EmptyString => []
  end.

(** [''.join(parts)] *)
Fixpoint cat (parts : list string) : string :=
  match parts with
  | p :: rest => p ++ cat rest
  | [] => EmptyString
  end.

Definition tail_bits (c : ascii) : Z := code c - 128.

(** [ord(ch)]: the code point a character encodes, [-1] for bytes that
    are no UTF-8 sequence (the surrogates have none). *)
Definition ord (ch : string) : Z :=
  match ch with
  | String a EmptyString => if code a <? 128 then code a else -1
  | String a (String b EmptyString) =>
      let cp := (code a - 192) * 64 + tail_bits b in
      if (128 <=? cp) && (cp <? 2048) then cp else -1
  | String a (String b (String c EmptyString)) =>
      let cp := (code a - 224) * 4096 + tail_bits b * 64 + tail_bits c in
      if (2048 <=? cp) && (cp <? 65536)
         && negb ((55296 <=? cp) && (cp <=? 57343)) then cp else -1
  | String a (String b (String c (String d EmptyString))) =>
      let cp := (code a - 240) * 262144 + tail_bits b * 4096
                + tail_bits c * 64 + tail_bits d in
      if (65536 <=? cp) && (cp <? 1114112) then cp else -1
  | _ => -1
  end.

(** *** Character classes: the Unicode 14.0 tables of CPython 3.11 *)

Definition in_ranges (cp : Z) (ranges : list (Z * Z)) : bool :=
  existsb (fun r => (fst r <=? cp) && (cp <=? snd r)) ranges.

(** The zero of the decimal digits of each script; the digits one to nine
    follow it. *)
Definition DECIMAL_ZEROS : list Z :=
  [ 48; 1632; 1776; 1984; 2406; 2534; 2662; 2790; 2918; 3046; 3174; 3302;
    3430; 3558; 3664; 3792; 3872; 4160; 4240; 6112; 6160; 6470; 6608;
    6784; 6800; 6992; 7088; 7232; 7248; 42528; 43216; 43264; 43472;
    43504; 43600; 44016; 65296; 66720; 68912; 69734; 69872; 69942; 70096;
    70384; 70736; 70864; 71248; 71360; 71472; 71904; 72016; 72784; 73040;
    73120; 92768; 92864; 93008; 120782; 120792; 120802; 120812; 120822;
    123200; 123632; 125264; 130032 ].

(** The digits that are not decimal digits: superscripts, subscripts,
    circled and parenthesised digits and the like. *)
Definition OTHER_DIGITS : list (Z * Z) :=
  [ (178, 179); (185, 185); (4969, 4977); (6618, 6618); (8304, 8304);
    (8308, 8313); (8320, 8329); (9312, 9320); (9332, 9340); (9352, 9360);
    (9450, 9450); (9461, 9469); (9471, 9471); (10102, 10110);
    (10112, 10120); (10122, 10130); (68160, 68163); (69216, 69224);
    (69714, 69722); (127232, 127242) ].

Definition WHITESPACE : list (Z * Z) :=
  [ (9, 13); (28, 32); (133, 133); (160, 160); (5760, 5760);
    (8192, 8202); (8232, 8233); (8239, 8239); (8287, 8287); (12288, 12288) ].

(** The value of a decimal digit ([unicodedata.decimal]). *)
Definition decimal (cp : Z) : option Z :=
  match List.find (fun zero => (zero <=? cp) && (cp <=? zero + 9)) DECIMAL_ZEROS with
  | Some zero => Some (cp - zero)
  | None => None
  end.

(** [ch.isdigit()] *)
Definition isdigit (ch : string) : bool :=
  match decimal (ord ch) with
  | Some _ => true
  | None => in_ranges (ord ch) OTHER_DIGITS
  end.

(** [ch.isspace()] *)
Definition isspace (ch : string) : bool := in_ranges (ord ch) WHITESPACE.

Fixpoint drop_while {A : Type} (p : A -> bool) (l : list A) : list A :=
  match l with
  | x :: rest => if p x then drop_while p rest else l
  | [] => []
  end.

(** [s.strip()] *)
Definition strip (s : string) : string :=
  cat (rev (drop_while isspace (rev (drop_while isspace (chars s))))).

(** [s.replace(",", "")] *)
Fixpoint remove_commas (s : string) : string :=
  match s with
  | String c rest =>
      if Ascii.eqb c "," then remove_commas rest else String c (remove_commas rest)
  | EmptyString => EmptyString
  end.

(** [''.join(filter(str.isdigit, s))] *)
Definition filter_digits (s : string) : string :=
  cat (List.filter isdigit (chars s)).

(** [needle in hay] *)
Fixpoint contains (needle hay : string) : bool :=
  String.prefix needle hay ||
  match hay with
  | String _ rest => contains needle rest
  | EmptyString => false
  end.

(** [len(s)]: the bytes that are not continuation bytes. *)
Fixpoint len (s : string) : nat :=
  match s with
  | String c rest => if is_continuation c then len rest else S (len rest)
  | EmptyString => O
  end.

(** [s[:n]]: the first [n] code points. *)
Fixpoint slice_to (n : nat) (s : string) : string :=
  match s with
  | String c rest =>
      if is_continuation c then String c (slice_to n rest)
      else match n with
           | O => EmptyString
           | S n' => String c (slice_to n' rest)
           end
  | EmptyString => EmptyString
  end.

(** *** Numbers in a text

    [int()] and [float()] first bring the text to ASCII: an ASCII
    character stays, a blank of another script becomes a space, a decimal
    digit of another script becomes its ASCII digit, and any other
    character becomes one that no number holds. *)

Definition ascii_of_char (ch : string) : ascii :=
  match ch with
  | String a EmptyString => if code a <? 127 then a else "?"%char
  | _ =>
      if isspace ch then " "%char
      else match decimal (ord ch) with
           | Some d => ascii_of_N (Z.to_N (48 + d))
           | None => "?"%char
           end
  end.

Definition to_ascii (s : string) : string :=
  string_of_list_ascii (map ascii_of_char (chars s)).

Definition ascii_digit (c : ascii) : bool := (48 <=? code c) && (code c <=? 57).

Definition digit_value (c : ascii) : Z := code c - 48.

(** The blanks of the C locale, which the two parsers skip at both ends. *)
Definition isspace_c (c : ascii) : bool :=
  ((9 <=? code c) && (code c <=? 13)) || (code c =? 32).

Definition lower (c : ascii) : ascii :=
  if (65 <=? code c) && (code c <=? 90)
  then ascii_of_N (N_of_ascii c + 32) else c.

Fixpoint lstrip (sp : ascii -> bool) (s : string) : string :=
  match s with
  | String c rest => if sp c then lstrip sp rest else s
  | EmptyString => EmptyString
  end.

Fixpoint rstrip (sp : ascii -> bool) (s : string) : string :=
  match s with
  | String c rest =>
      match rstrip sp rest with
      | EmptyString => if sp c then EmptyString else String c EmptyString
      | r => String c r
      end
  | EmptyString => EmptyString
  end.

Definition strip_c (s : string) : string := rstrip isspace_c (lstrip isspace_c s).

(** Value of a string of decimal digits, most significant first. *)
Fixpoint digits_value (acc : Z) (s : string) : Z :=
  match s with
  | String c rest => digits_value (10 * acc + digit_value c) rest
  | EmptyString => acc
  end.

(** A maximal run [digit (_? digit)*] at the head of [s]: the digits with
    the underscores removed, and the rest of the text. *)
Fixpoint digit_run (s : string) : string * string :=
  match s with
  | String c rest =>
      if ascii_digit c then
        match rest with
        | String u (String d _ as rest') =>
            if Ascii.eqb u "_" && ascii_digit d then
              let '(ds, r) := digit_run rest' in (String c ds, r)
            else
              let '(ds, r) := digit_run rest in (String c ds, r)
        | _ => let '(ds, r) := digit_run rest in (String c ds, r)
        end
      else (EmptyString, s)
  | EmptyString => (EmptyString, EmptyString)
  end.

(** An optional sign at the head of [s]: [true] for minus. *)
Definition take_sign (s : string) : bool * string :=
  match s with
  | String c rest =>
      if Ascii.eqb c "-" then (true, rest)
      else if Ascii.eqb c "+" then (false, rest)
      else (false, s)
  | EmptyString => (false, s)
  end.

(** The longest numeral [int()] converts
    ([sys.get_int_max_str_digits()], 4300 unless the interpreter is told
    otherwise). *)
Definition MAX_STR_DIGITS : Z := 4300.

(** The decimal literal of an ASCII text; [None] stands for [ValueError]. *)
Definition int_of_ascii (s : string) : option Z :=
  let '(neg, body) := take_sign (strip_c s) in
  match digit_run body with
  | (String _ _ as ds, EmptyString) =>
      if MAX_STR_DIGITS <? Z.of_nat (String.length ds) then None
      else let v := digits_value 0 ds in Some (if neg then - v else v)
  | _ => None
  end.

(** [int(s)] for a [str] in base ten; [None] stands for [ValueError]. *)
Definition int_of_str (s : string) : option Z := int_of_ascii (to_ascii s).

(** [str(z)] for an [int]. *)
Definition str_of_int (z : Z) : string :=
  NilEmpty.string_of_int (Z.to_int z).

Fixpoint map_lower (s : string) : string :=
  match s with
  | String c rest => String (lower c) (map_lower rest)
  | EmptyString => EmptyString
  end.

End PyStr.

(** ** Floats *)

Module PyFloat.

Definition prec : Z := 53.
Definition emax : Z := 1024.

(** Nearest binary64 to [m * 10 ^ e10], ties to even, for [0 < m]. *)
Definition of_decimal (neg : bool) (m : Z) (e10 : Z) : spec_float :=
  match m with
  | Z0 => S754_zero neg
  | Zneg _ => S754_nan
  | Zpos _ =>
      if 0 <=? e10 then
        binary_normalize prec emax (if neg then - (m * 10 ^ e10) else m * 10 ^ e10) 0 neg
      else
        let '(q, e2, l) := SFdiv_core_binary prec emax m 0 (10 ^ (- e10)) 0 in
        binary_round_aux prec emax neg q e2 l
  end.

(** The exponent part [(e|E) [sign] digitpart] at the head of [s], if any. *)
Definition take_exponent (s : string) : option (Z * string) :=
  match s with
  | String c rest =>
      if Ascii.eqb (PyStr.lower c) "e" then
        let '(neg, body) := PyStr.take_sign rest in
        match PyStr.digit_run body with
        | (String _ _ as ds, r) =>
            let v := PyStr.digits_value 0 ds in Some (if neg then - v else v, r)
        | _ => None
        end
      else None
  | EmptyString => None
  end.

(** The floating-point literal of an ASCII text; [None] stands for
    [ValueError]. *)
Definition of_ascii (s : string) : option spec_float :=
  let '(neg, body) := PyStr.take_sign (PyStr.strip_c s) in
  let low := PyStr.map_lower body in
  if String.eqb low "inf" || String.eqb low "infinity" then Some (S754_infinity neg)
  else if String.eqb low "nan" then Some S754_nan
  else
    let '(ip, r1) := PyStr.digit_run body in
    let '(fp, r2, dotted) :=
      match r1 with
      | String c r =>
          if Ascii.eqb c "." then
            let '(fp, r2) := PyStr.digit_run r in (fp, r2, true)
          else (EmptyString, r1, false)
      | EmptyString => (EmptyString, r1, false)
      end in
    match ip, fp with
    | EmptyString, EmptyString => None
    | _, _ =>
        let m := PyStr.digits_value 0 (ip ++ fp) in
        let scale := - Z.of_nat (String.length fp) in
        match r2 with
        | EmptyString => Some (of_decimal neg m scale)
        | _ =>
            match take_exponent r2 with
            | Some (e, EmptyString) => Some (of_decimal neg m (e + scale))
            | _ => None
            end
        end
    end.

(** [float(s)] for a [str]; [None] stands for [ValueError]. *)
Definition of_str (s : string) : option spec_float := of_ascii (PyStr.to_ascii s).

(** [float(z)] for an [int]; too large a value raises [OverflowError]. *)
Definition of_int (z : Z) : res spec_float :=
  match binary_normalize prec emax z 0 false with
  | S754_infinity _ => Raise OverflowError
  | f => Ok f
  end.

(** [bool(f)]: a float is false exactly when it is a zero. *)
Definition truthy (f : spec_float) : bool :=
  match f with
  | S754_zero _ => false
  | _ => true
  end.

(** [int(f)]: truncation toward zero. *)
Definition to_int (f : spec_float) : res Z :=
  match f with
  | S754_zero _ => Ok 0
  | S754_nan => Raise ValueError
  | S754_infinity _ => Raise OverflowError
  | S754_finite s m e =>
      let a := if 0 <=? e then Z.pos m * 2 ^ e else Z.pos m / 2 ^ (- e) in
      Ok (if s then - a else a)
  end.

End PyFloat.

(** ** SHA-256 (FIPS 180-4), as [hashlib.sha256] computes it *)

Module Sha256.

Definition w32 (x : Z) : Z := x mod 2 ^ 32.

Definition add32 (x y : Z) : Z := w32 (x + y).

Definition rotr (n x : Z) : Z :=
  Z.lor (Z.shiftr x n) (w32 (Z.shiftl x (32 - n))).

Definition ch (x y z : Z) : Z :=
  Z.lxor (Z.land x y) (Z.land (Z.lxor x (Z.ones 32)) z).

Definition maj (x y z : Z) : Z :=
  Z.lxor (Z.lxor (Z.land x y) (Z.land x z)) (Z.land y z).

Definition big_sigma0 (x : Z) : Z :=
  Z.lxor (Z.lxor (rotr 2 x) (rotr 13 x)) (rotr 22 x).

Definition big_sigma1 (x : Z) : Z :=
  Z.lxor (Z.lxor (rotr 6 x) (rotr 11 x)) (rotr 25 x).

Definition small_sigma0 (x : Z) : Z :=
  Z.lxor (Z.lxor (rotr 7 x) (rotr 18 x)) (Z.shiftr x 3).

Definition small_sigma1 (x : Z) : Z :=
  Z.lxor (Z.lxor (rotr 17 x) (rotr 19 x)) (Z.shiftr x 10).

(** The first sixty-four primes. *)
Definition first_primes : list Z :=
  [ 2; 3; 5; 7; 11; 13; 17; 19; 23; 29; 31; 37; 41; 43; 47; 53;
    59; 61; 67; 71; 73; 79; 83; 89; 97; 101; 103; 107; 109; 113; 127; 131;
    137; 139; 149; 151; 157; 163; 167; 173; 179; 181; 191; 193; 197; 199;
    211; 223; 227; 229; 233; 239; 241; 251; 257; 263; 269; 271; 277; 281;
    283; 293; 307; 311 ].

(** The integer cube root, found bit by bit from bit [bits - 1] down. *)
Fixpoint cube_root_bits (bits : nat) (acc n : Z) : Z :=
  match bits with
  | O => acc
  | S bits' =>
      let candidate := acc + 2 ^ Z.of_nat bits' in
      if candidate * candidate * candidate <=? n
      then cube_root_bits bits' candidate n
      else cube_root_bits bits' acc n
  end.

(** The round constants: the first 32 bits of the fractional parts of
    the cube roots of the first sixty-four primes. *)
Definition round_constants : list Z :=
  Eval vm_compute in
    map (fun prime => w32 (cube_root_bits 36 0 (prime * 2 ^ 96))) first_primes.

(** The eight working words. *)
Record state : Type := State {
  ha : Z; hb : Z; hc : Z; hd : Z; he : Z; hf : Z; hg : Z; hh : Z
}.

(** The first 32 bits of the fractional part of a square root. *)
Definition sqrt_fraction (prime : Z) : Z := w32 (Z.sqrt (prime * 2 ^ 64)).

(** The initial hash value comes from the first eight primes. *)
Definition initial_state : state :=
  Eval vm_compute in
    State (sqrt_fraction 2) (sqrt_fraction 3) (sqrt_fraction 5) (sqrt_fraction 7)
          (sqrt_fraction 11) (sqrt_fraction 13) (sqrt_fraction 17) (sqrt_fraction 19).

(** The message with its padding: a one bit, zeros, and the bit length
    on eight bytes, to a multiple of 64 bytes. *)
Definition be_bytes (n : nat) (x : Z) : list Z :=
  map (fun i => Z.land (Z.shiftr x (8 * Z.of_nat i)) 255) (rev (seq 0 n)).

Definition pad (msg : list Z) : list Z :=
  let l := Z.of_nat (length msg) in
  let zeros := Z.to_nat ((55 - l) mod 64) in
  msg ++ [128] ++ repeat 0 zeros ++ be_bytes 8 (8 * l).

Fixpoint be_words (fuel : nat) (bs : list Z) : list Z :=
  match fuel, bs with
  | S fuel', b0 :: b1 :: b2 :: b3 :: rest =>
      (((b0 * 256 + b1) * 256 + b2) * 256 + b3) :: be_words fuel' rest
  | _, _ => []
  end.

(** The message schedule: sixteen block words extended to sixty-four;
    the list is kept most recent word first. *)
Fixpoint extend (n : nat) (ws : list Z) : list Z :=
  match n with
  | O => ws
  | S n' =>
      let x := add32 (add32 (small_sigma1 (nth 1 ws 0)) (nth 6 ws 0))
                     (add32 (small_sigma0 (nth 14 ws 0)) (nth 15 ws 0)) in
      extend n' (x :: ws)
  end.

Definition schedule (block : list Z) : list Z :=
  rev (extend 48 (rev block)).

Definition step (s : state) (kw : Z * Z) : state :=
  let '(k, w) := kw in
  let t1 := add32 (add32 (add32 (hh s) (big_sigma1 (he s)))
                         (add32 (ch (he s) (hf s) (hg s)) k)) w in
  let t2 := add32 (big_sigma0 (ha s)) (maj (ha s) (hb s) (hc s)) in
  State (add32 t1 t2) (ha s) (hb s) (hc s) (add32 (hd s) t1) (he s) (hf s) (hg s).

Definition compress (s : state) (block : list Z) : state :=
  let r := fold_left step (combine round_constants (schedule block)) s in
  State (add32 (ha s) (ha r)) (add32 (hb s) (hb r)) (add32 (hc s) (hc r))
        (add32 (hd s) (hd r)) (add32 (he s) (he r)) (add32 (hf s) (hf r))
        (add32 (hg s) (hg r)) (add32 (hh s) (hh r)).

Fixpoint blocks (fuel : nat) (ws : list Z) : list (list Z) :=
  match fuel, ws with
  | S fuel', _ :: _ => firstn 16 ws :: blocks fuel' (skipn 16 ws)
  | _, _ => []
  end.

Definition digest (msg : list Z) : state :=
  let ws := be_words (length (pad msg)) (pad msg) in
  fold_left compress (blocks (length ws) ws) initial_state.

Definition hex_char (x : Z) : ascii :=
  let n := Z.land x 15 in
  ascii_of_N (Z.to_N (if n <? 10 then 48 + n else 87 + n)).

Definition hex8 (x : Z) (tail : string) : string :=
  String (hex_char (Z.shiftr x 28)) (String (hex_char (Z.shiftr x 24))
  (String (hex_char (Z.shiftr x 20)) (String (hex_char (Z.shiftr x 16))
  (String (hex_char (Z.shiftr x 12)) (String (hex_char (Z.shiftr x 8))
  (String (hex_char (Z.shiftr x 4)) (String (hex_char x) tail))))))).

Definition bytes_of (s : string) : list Z :=
  map PyStr.code (list_ascii_of_string s).

(** [hashlib.sha256(s.encode()).hexdigest()] *)
Definition hexdigest (s : string) : string :=
  let d := digest (bytes_of s) in
  hex8 (ha d) (hex8 (hb d) (hex8 (hc d) (hex8 (hd d)
  (hex8 (he d) (hex8 (hf d) (hex8 (hg d) (hex8 (hh d) EmptyString))))))).

End Sha256.

(** ** Raw values and records *)

Inductive pyval : Type :=
  | PNone
  | PBool (b : bool)
  | PInt (z : Z)
  | PStr (s : string).

(** A raw upstream record: a dictionary from field names to values. *)
Abbreviation RawRecord := (gmap string pyval).

(** [record.get(key)] *)
Definition get (record : RawRecord) (key : string) : pyval :=
  default PNone (record !! key).

(** [record.get(key, dflt)] *)
Definition get_or (record : RawRecord) (key : string) (dflt : pyval) : pyval :=
  default dflt (record !! key).

(** [bool(v)] *)
Definition truthy (v : pyval) : bool :=
  match v with
  | PNone => false
  | PBool b => b
  | PInt z => negb (z =? 0)
  | PStr s => negb (String.eqb s "")
  end.

(** [str(v)] *)
Definition py_str (v : pyval) : string :=
  match v with
  | PNone => "None"
  | PBool true => "True"
  | PBool false => "False"
  | PInt z => PyStr.str_of_int z
  | PStr s => s
  end.

(** [int(v)] *)
Definition py_int (v : pyval) : res Z :=
  match v with
  | PNone => Raise TypeError
  | PBool b => Ok (if b then 1 else 0)
  | PInt z => Ok z
  | PStr s =>
      match PyStr.int_of_str s with
      | Some z => Ok z
      | None => Raise ValueError
      end
  end.

(** [len(v)] *)
Definition py_len (v : pyval) : res nat :=
  match v with
  | PStr s => Ok (PyStr.len s)
  | _ => Raise TypeError
  end.

(** [v[:n]] *)
Definition py_slice_to (n : nat) (v : pyval) : res string :=
  match v with
  | PStr s => Ok (PyStr.slice_to n s)
  | _ => Raise TypeError
  end.

(** [try: body  except (ValueError, TypeError): handler] *)
Definition catch_value_type {A : Type} (body : res A) (handler : res A) : res A :=
  match body with
  | Raise ValueError | Raise TypeError => handler
  | r => r
  end.

(** ** The record transformer *)

Definition PROPERTY_TYPE_MAP : gmap string Z :=
  list_to_map
    [ ("Pre-owned Condominiums", 1);
      ("Pre-owned Condominiums, etc.", 1);
      ("Residential Land", 2);
      ("Residential Land(Land Only)", 2);
      ("Residential Land and Building", 3);
      ("Residential Land(Land and Building)", 3);
      ("Agricultural Land", 4);
      ("Forest Land", 5);
      ("Pre-owned House", 6);
      ("Office", 7);
      ("Shop", 8);
      ("Warehouse", 9);
      ("Factory", 10) ].

(** [PROPERTY_TYPE_MAP.get(v)]: only a string can be a key of the table. *)
Definition property_type_lookup (v : pyval) : option Z :=
  match v with
  | PStr s => PROPERTY_TYPE_MAP !! s
  | _ => None
  end.

(** The body of each era branch:
    [num = int(''.join(filter(str.isdigit, year_str))); return offset + num],
    where a [ValueError] falls through to the final [return None]. *)
Definition era_year (offset : Z) (year_str : string) : option Z :=
  match PyStr.int_of_str (PyStr.filter_digits year_str) with
  | Some num => Some (offset + num)
  | None => None
  end.

Definition has_reiwa (s : string) : bool :=
  PyStr.contains "令和" s || PyStr.contains "Reiwa" s.

Definition has_heisei (s : string) : bool :=
  PyStr.contains "平成" s || PyStr.contains "Heisei" s.

Definition has_showa (s : string) : bool :=
  PyStr.contains "昭和" s || PyStr.contains "Showa" s.

Definition era_branches (year_str : string) : option Z :=
  if has_reiwa year_str then era_year 2018 year_str
  else if has_heisei year_str then era_year 1988 year_str
  else if has_showa year_str then era_year 1925 year_str
  else None.

Definition parse_building_year (year_str : pyval) : res (option Z) :=
  if negb (truthy year_str) then Ok None
  else
    do direct <-
      catch_value_type
        (do year <- py_int year_str;
         Ok (if (1900 <=? year) && (year <=? 2100) then Some year else None))
        (Ok None);
    match direct with
    | Some year => Ok (Some year)
    | None => Ok (era_branches (py_str year_str))
    end.

Definition parse_numeric (value : pyval) : res (option spec_float) :=
  match value with
  | PNone | PStr "" => Ok None
  | PBool b => do f <- PyFloat.of_int (if b then 1 else 0); Ok (Some f)
  | PInt z => do f <- PyFloat.of_int z; Ok (Some f)
  | PStr _ =>
      catch_value_type
        (let cleaned := PyStr.strip (PyStr.remove_commas (py_str value)) in
         if negb (String.eqb cleaned "") then
           match PyFloat.of_str cleaned with
           | Some f => Ok (Some f)
           | None => Raise ValueError
           end
         else Ok None)
        (Ok None)
  end.

Fixpoint join (sep : string) (parts : list string) : string :=
  match parts with
  | [] => ""
  | [x] => x
  | x :: rest => x ++ sep ++ join sep rest
  end.

Definition key_field_names : list string :=
  [ "MunicipalityCode"; "DistrictName"; "TradePrice"; "Area"; "Period";
    "BuildingYear"; "Type" ].

Definition key_fields (record : RawRecord) : list pyval :=
  map (get record) key_field_names.

Definition key_string (record : RawRecord) : string :=
  join "|" (map py_str (key_fields record)).

Definition generate_record_hash (record : RawRecord) : string :=
  PyStr.slice_to 32 (Sha256.hexdigest (key_string record)).

(** The canonical record built by the transformer. *)
Record CanonicalRecord : Type := {
  source_hash : string;
  price_classification : string;
  prefecture_code : string;
  municipality_code : option string;
  municipality_name : pyval;
  district_name : pyval;
  property_type_id : option Z;
  property_type_raw : pyval;
  trade_price : option Z;
  unit_price : option Z;
  area_m2 : option spec_float;
  total_floor_area_m2 : option spec_float;
  floor_plan : pyval;
  building_year : option Z;
  structure : pyval;
  land_shape : pyval;
  frontage_m : option spec_float;
  road_direction : pyval;
  road_type : pyval;
  road_width_m : option spec_float;
  city_planning : pyval;
  coverage_ratio : option Z;
  floor_area_ratio : option Z;
  transaction_year : Z;
  transaction_quarter : option Z;
  transaction_period : pyval;
  renovation : pyval;
  remarks : pyval
}.

(** [int(x) if x else None] for an optional float [x]. *)
Definition int_if_truthy (x : option spec_float) : res (option Z) :=
  match x with
  | Some f =>
      if PyFloat.truthy f then do n <- PyFloat.to_int f; Ok (Some n)
      else Ok None
  | None => Ok None
  end.

Definition transform_record (record : RawRecord) (prefecture_code : string)
    (year : Z) (quarter : option Z) : res CanonicalRecord :=
  let source_hash := generate_record_hash record in
  let muni_code := get_or record "MunicipalityCode" (PStr "") in
  do municipality_code <-
    (if truthy muni_code then
       do n <- py_len muni_code;
       (* only a string has a length: the code is kept as that string *)
       Ok (if Nat.eqb n 5 then Some (py_str muni_code) else None)
     else Ok None);
  let property_type_raw := get_or record "Type" (PStr "") in
  let property_type_id := property_type_lookup property_type_raw in
  do trade_price <- parse_numeric (get record "TradePrice");
  do unit_price <- parse_numeric (get record "UnitPrice");
  do area_m2 <- parse_numeric (get record "Area");
  do total_floor_area <- parse_numeric (get record "TotalFloorArea");
  do frontage <- parse_numeric (get record "Frontage");
  do road_width <- parse_numeric (get record "Breadth");
  do coverage_ratio <- parse_numeric (get record "CoverageRatio");
  do floor_area_ratio <- parse_numeric (get record "FloorAreaRatio");
  do building_year <- parse_building_year (get record "BuildingYear");
  do price_classification <-
    (if truthy (get record "PriceCategory")
     then py_slice_to 2 (get_or record "PriceCategory" (PStr "01"))
     else Ok "01");
  do trade_price_int <- int_if_truthy trade_price;
  do unit_price_int <- int_if_truthy unit_price;
  do coverage_ratio_int <- int_if_truthy coverage_ratio;
  do floor_area_ratio_int <- int_if_truthy floor_area_ratio;
  Ok {| source_hash := source_hash;
        price_classification := price_classification;
        prefecture_code := prefecture_code;
        municipality_code := municipality_code;
        municipality_name := get_or record "Municipality" (PStr "");
        district_name := get record "DistrictName";
        property_type_id := property_type_id;
        property_type_raw := property_type_raw;
        trade_price := trade_price_int;
        unit_price := unit_price_int;
        area_m2 := area_m2;
        total_floor_area_m2 := total_floor_area;
        floor_plan := get record "FloorPlan";
        building_year := building_year;
        structure := get record "Structure";
        land_shape := get record "LandShape";
        frontage_m := frontage;
        road_direction := get record "Direction";
        road_type := get record "Classification";
        road_width_m := road_width;
        city_planning := get record "CityPlanning";
        coverage_ratio := coverage_ratio_int;
        floor_area_ratio := floor_area_ratio_int;
        transaction_year := year;
        transaction_quarter := quarter;
        transaction_period := get record "Period";
        renovation := get record "Renovation";
        remarks := get record "Remarks" |}.

(** ** The relational store

    The three tables the loader writes.  A conflict target is the key of
    the table; constraints other than the conflict targets are not
    modelled.  A fact row is kept as the record it came from (the
    [municipality_name] entry is not a column of the table). *)

Record PrefectureRow : Type := {
  pref_name_ja : string;
  pref_name_en : string
}.

Record MunicipalityRow : Type := {
  muni_prefecture_code : string;
  muni_name_ja : pyval;
  muni_name_en : pyval
}.

Record Store : Type := {
  prefectures : gmap string PrefectureRow;
  municipalities : gmap string MunicipalityRow;
  transactions : list CanonicalRecord
}.

Definition empty_store : Store :=
  {| prefectures := ∅; municipalities := ∅; transactions := [] |}.

(** [INSERT INTO prefectures ... ON CONFLICT (code) DO NOTHING] *)
Definition ensure_prefecture_exists (st : Store) (code name_en : string) : Store :=
  match prefectures st !! code with
  | Some _ => st
  | None =>
      {| prefectures :=
           <[code := {| pref_name_ja := name_en; pref_name_en := name_en |}]>
             (prefectures st);
         municipalities := municipalities st;
         transactions := transactions st |}
  end.

(** [INSERT INTO municipalities ... ON CONFLICT (code) DO NOTHING], after
    the guard [if not code or len(code) != 5: return]. *)
Definition ensure_municipality_exists (st : Store) (code prefecture_code : string)
    (name : pyval) : Store :=
  if String.eqb code "" || negb (Nat.eqb (PyStr.len code) 5) then st
  else
    match municipalities st !! code with
    | Some _ => st
    | None =>
        {| prefectures := prefectures st;
           municipalities :=
             <[code := {| muni_prefecture_code := prefecture_code;
                          muni_name_ja := name;
                          muni_name_en := name |}]> (municipalities st);
           transactions := transactions st |}
    end.

(** The first loop of [insert_transactions]: one upsert per distinct
    municipality code, in the order of first appearance. *)
Fixpoint ensure_municipalities (st : Store) (seen : gset string)
    (records : list CanonicalRecord) (prefecture_code : string) : Store :=
  match records with
  | [] => st
  | record :: rest =>
      match municipality_code record with
      | Some muni_code =>
          if negb (String.eqb muni_code "") && negb (bool_decide (muni_code ∈ seen))
          then
            ensure_municipalities
              (ensure_municipality_exists st muni_code prefecture_code
                 (municipality_name record))
              ({[ muni_code ]} ∪ seen) rest prefecture_code
          else ensure_municipalities st seen rest prefecture_code
      | None => ensure_municipalities st seen rest prefecture_code
      end
  end.

Definition has_hash (h : string) (rows : list CanonicalRecord) : bool :=
  existsb (fun row => String.eqb (source_hash row) h) rows.

(** One [INSERT INTO transactions ... VALUES ... ON CONFLICT (source_hash)
    DO NOTHING] statement: the table after it and its row count. *)
Fixpoint insert_do_nothing (rows : list CanonicalRecord) (count : Z)
    (values : list CanonicalRecord) : list CanonicalRecord * Z :=
  match values with
  | [] => (rows, count)
  | v :: rest =>
      if has_hash (source_hash v) rows
      then insert_do_nothing rows count rest
      else insert_do_nothing (rows ++ [v]) (count + 1) rest
  end.

(** The pages of [execute_values]: consecutive slices of [page_size] rows. *)
Fixpoint paginate {A : Type} (fuel : nat) (page_size : nat) (l : list A) : list (list A) :=
  match fuel, l with
  | S fuel', _ :: _ => firstn page_size l :: paginate fuel' page_size (skipn page_size l)
  | _, _ => []
  end.

(** [psycopg2.extras.execute_values]: one statement per page; the cursor's
    [rowcount] is that of the last statement executed ([-1] when there
    was none). *)
Definition execute_values (rows : list CanonicalRecord)
    (values : list CanonicalRecord) (page_size : nat) : list CanonicalRecord * Z :=
  fold_left (fun acc page => insert_do_nothing (fst acc) 0 page)
            (paginate (length values) page_size values) (rows, -1).

Definition PAGE_SIZE : nat := 1000.

Definition insert_transactions (st : Store) (records : list CanonicalRecord)
    (prefecture_code : string) : Store * Z :=
  match records with
  | [] => (st, 0)
  | _ :: _ =>
      let st1 := ensure_municipalities st ∅ records prefecture_code in
      let '(rows, inserted) := execute_values (transactions st1) records PAGE_SIZE in
      ({| prefectures := prefectures st1;
          municipalities := municipalities st1;
          transactions := rows |}, inserted)
  end.

(** ** The outside world

    Requests and pauses are recorded in a trace, oldest first.  The two
    upstream services are oracles: the reply to a request may depend on
    how many requests were made before it and on its parameters. *)

Inductive event : Type :=
  | EvRequest (year : Z) (area : string) (quarter : option Z)
  | EvFxRequest (rate_date : Z) (currency : string)
  | EvSleep (milliseconds : Z).

(** The [data] entry of a decoded body. *)
Inductive payload : Type :=
  | DataAbsent
  | DataNull
  | DataList (records : list RawRecord).

(** A reply of the transaction API: a status line with the [data] entry
    of its body, or a failure of the request or of the decoding of the
    body (a [requests.RequestException]). *)
Inductive http_reply : Type :=
  | Reply (status : Z) (data : payload)
  | RequestFailure.

(** [data.get("data", [])] *)
Definition data_of (data : payload) : option (list RawRecord) :=
  match data with
  | DataAbsent => Some []
  | DataNull => None
  | DataList records => Some records
  end.

(** A reply of the FX API: for status 200 the rate of the requested
    currency when the body has one. *)
Inductive fx_reply : Type :=
  | FxReply (status : Z) (rate : option spec_float)
  | FxRequestFailure.

(** A row of the FX table, keyed by (currency, year, quarter). *)
Record FxRow : Type := {
  fx_rate : spec_float;
  fx_rate_date : Z
}.

Record Env : Type := {
  api : nat -> Z -> string -> option Z -> http_reply;
  fx_api : nat -> Z -> string -> fx_reply;
  now_year : Z;
  now_month : Z;
  recursion_budget : nat
}.

Record World : Type := {
  store : Store;
  fx_rates : gmap (string * Z * Z) FxRow;
  trace : list event
}.

Definition M (A : Type) : Type := World -> res A * World.

Definition ret {A : Type} (a : A) : M A := fun w => (Ok a, w).

Definition raise {A : Type} (e : exn) : M A := fun w => (Raise e, w).

Definition bind {A B : Type} (m : M A) (k : A -> M B) : M B :=
  fun w =>
    match m w with
    | (Ok a, w') => k a w'
    | (Raise e, w') => (Raise e, w')
    end.

(** [try: m  except Exception: handler] *)
Definition try_except {A : Type} (m : M A) (handler : exn -> M A) : M A :=
  fun w =>
    match m w with
    | (Ok a, w') => (Ok a, w')
    | (Raise e, w') => handler e w'
    end.

Definition lift {A : Type} (r : res A) : M A := fun w => (r, w).

Notation "x <- m ;; k" := (bind m (fun x => k))
  (at level 90, m at level 80, k at level 200, only parsing).
Notation "m ;;; k" := (bind m (fun _ => k))
  (at level 90, k at level 200, only parsing).

Definition log (ev : event) : M unit :=
  fun w => (Ok tt, {| store := store w; fx_rates := fx_rates w;
                      trace := trace w ++ [ev] |}).

(** [time.sleep] *)
Definition sleep (milliseconds : Z) : M unit := log (EvSleep milliseconds).

Definition is_request (ev : event) : bool :=
  match ev with EvRequest _ _ _ => true | _ => false end.

Definition is_fx_request (ev : event) : bool :=
  match ev with EvFxRequest _ _ => true | _ => false end.

Definition requests_of (t : list event) : list event := List.filter is_request t.

Definition fx_requests_of (t : list event) : list event :=
  List.filter is_fx_request t.

Definition REQUESTS_PER_SECOND : Z := 2.

(** [1.0 / REQUESTS_PER_SECOND] seconds, in milliseconds. *)
Definition MIN_REQUEST_INTERVAL : Z := 1000 / REQUESTS_PER_SECOND.

Definition PREFECTURE_CODES : list (string * string) :=
  [ ("Hokkaido", "01"); ("北海道", "01"); ("Aomori", "02"); ("青森県", "02");
    ("Iwate", "03"); ("岩手県", "03"); ("Miyagi", "04"); ("宮城県", "04");
    ("Akita", "05"); ("秋田県", "05"); ("Yamagata", "06"); ("山形県", "06");
    ("Fukushima", "07"); ("福島県", "07"); ("Ibaraki", "08"); ("茨城県", "08");
    ("Tochigi", "09"); ("栃木県", "09"); ("Gunma", "10"); ("群馬県", "10");
    ("Saitama", "11"); ("埼玉県", "11"); ("Chiba", "12"); ("千葉県", "12");
    ("Tokyo", "13"); ("東京都", "13"); ("Kanagawa", "14"); ("神奈川県", "14");
    ("Niigata", "15"); ("新潟県", "15"); ("Toyama", "16"); ("富山県", "16");
    ("Ishikawa", "17"); ("石川県", "17"); ("Fukui", "18"); ("福井県", "18");
    ("Yamanashi", "19"); ("山梨県", "19"); ("Nagano", "20"); ("長野県", "20");
    ("Gifu", "21"); ("岐阜県", "21"); ("Shizuoka", "22"); ("静岡県", "22");
    ("Aichi", "23"); ("愛知県", "23"); ("Mie", "24"); ("三重県", "24");
    ("Shiga", "25"); ("滋賀県", "25"); ("Kyoto", "26"); ("京都府", "26");
    ("Osaka", "27"); ("大阪府", "27"); ("Hyogo", "28"); ("兵庫県", "28");
    ("Nara", "29"); ("奈良県", "29"); ("Wakayama", "30"); ("和歌山県", "30");
    ("Tottori", "31"); ("鳥取県", "31"); ("Shimane", "32"); ("島根県", "32");
    ("Okayama", "33"); ("岡山県", "33"); ("Hiroshima", "34"); ("広島県", "34");
    ("Yamaguchi", "35"); ("山口県", "35"); ("Tokushima", "36"); ("徳島県", "36");
    ("Kagawa", "37"); ("香川県", "37"); ("Ehime", "38"); ("愛媛県", "38");
    ("Kochi", "39"); ("高知県", "39"); ("Fukuoka", "40"); ("福岡県", "40");
    ("Saga", "41"); ("佐賀県", "41"); ("Nagasaki", "42"); ("長崎県", "42");
    ("Kumamoto", "43"); ("熊本県", "43"); ("Oita", "44"); ("大分県", "44");
    ("Miyazaki", "45"); ("宮崎県", "45"); ("Kagoshima", "46"); ("鹿児島県", "46");
    ("Okinawa", "47"); ("沖縄県", "47") ].

(** [k.isascii()] *)
Fixpoint isascii (s : string) : bool :=
  match s with
  | String c rest => (PyStr.code c <? 128) && isascii rest
  | EmptyString => true
  end.

(** [next((k for k, v in PREFECTURE_CODES.items()
           if v == prefecture_code and k.isascii()), dflt)] *)
Definition prefecture_name (prefecture_code dflt : string) : string :=
  match find (fun kv => String.eqb (snd kv) prefecture_code && isascii (fst kv))
             PREFECTURE_CODES with
  | Some kv => fst kv
  | None => dflt
  end.

Fixpoint insert_sorted (s : string) (l : list string) : list string :=
  match l with
  | [] => [s]
  | x :: rest =>
      match String.compare s x with
      | Lt => s :: l
      | Eq => l
      | Gt => x :: insert_sorted s rest
      end
  end.

(** [sorted(set(PREFECTURE_CODES.values()))] *)
Definition sorted_prefecture_codes : list string :=
  fold_right insert_sorted [] (map snd PREFECTURE_CODES).

Fixpoint map_res {A B : Type} (f : A -> res B) (l : list A) : res (list B) :=
  match l with
  | [] => Ok []
  | x :: rest => do y <- f x; do ys <- map_res f rest; Ok (y :: ys)
  end.

(** [range(a, b)] *)
Definition range (a b : Z) : list Z :=
  map (fun i => a + Z.of_nat i) (seq 0 (Z.to_nat (b - a))).

Definition is_leap (year : Z) : bool :=
  (year mod 4 =? 0) && (negb (year mod 100 =? 0) || (year mod 400 =? 0)).

Definition days_before_month (year month : Z) : Z :=
  nth (Z.to_nat (month - 1)) [0; 31; 59; 90; 120; 151; 181; 212; 243; 273; 304; 334] 0
  + (if (2 <? month) && is_leap year then 1 else 0).

(** [date(year, month, day).toordinal()] for a day that exists in the
    month; a year outside 1..9999 raises [ValueError]. *)
Definition date_ordinal (year month day : Z) : res Z :=
  if (1 <=? year) && (year <=? 9999) then
    let y := year - 1 in
    Ok (y * 365 + y / 4 - y / 100 + y / 400 + days_before_month year month + day)
  else Raise ValueError.

Definition FX_CURRENCIES : list string := ["USD"; "EUR"; "GBP"].

Section Pipeline.

Context (env : Env).

(** [MLITApiClient.get_transactions]: one request; statuses 400 and 404
    mean that the period is not published. *)
Definition get_transactions (year : Z) (area : string) (quarter : option Z)
    : M (option (list RawRecord)) :=
  fun w =>
    let sent :=
      match quarter with
      | Some q => if q =? 0 then None else Some q
      | None => None
      end in
    let n := length (requests_of (trace w)) in
    let w' := {| store := store w; fx_rates := fx_rates w;
                 trace := trace w ++ [EvRequest year area sent] |} in
    match api env n year area sent with
    | RequestFailure => (Raise ApiError, w')
    | Reply status data =>
        if (status =? 400) || (status =? 404) then (Ok None, w')
        else if (400 <=? status) && (status <? 600) then (Raise ApiError, w')
        else (Ok (data_of data), w')
    end.

Definition insert_transactions_m (records : list CanonicalRecord)
    (prefecture_code : string) : M Z :=
  fun w =>
    let '(st, inserted) := insert_transactions (store w) records prefecture_code in
    (Ok inserted, {| store := st; fx_rates := fx_rates w; trace := trace w |}).

Definition ensure_prefecture_exists_m (code name_en : string) : M unit :=
  fun w =>
    (Ok tt, {| store := ensure_prefecture_exists (store w) code name_en;
               fx_rates := fx_rates w;
               trace := trace w |}).

(** The body of the loop of [ingest_prefecture_year] for one quarter: the
    number of rows it reports as new. *)
Definition ingest_quarter (prefecture_code : string) (year quarter : Z) : M Z :=
  inserted <-
    try_except
      (transactions <- get_transactions year prefecture_code (Some quarter) ;;
       match transactions with
       | None => ret 0
       | Some [] => ret 0
       | Some ts =>
           records <-
             lift (map_res (fun t => transform_record t prefecture_code year (Some quarter)) ts) ;;
           insert_transactions_m records prefecture_code
       end)
      (fun _ => ret 0) ;;
  sleep MIN_REQUEST_INTERVAL ;;;
  ret inserted.

Fixpoint ingest_quarters (prefecture_code : string) (year : Z)
    (quarters : list Z) (total_inserted : Z) : M Z :=
  match quarters with
  | [] => ret total_inserted
  | quarter :: rest =>
      inserted <- ingest_quarter prefecture_code year quarter ;;
      ingest_quarters prefecture_code year rest (total_inserted + inserted)
  end.

(** [quarters or [1, 2, 3, 4]] *)
Definition quarters_to_fetch (quarters : option (list Z)) : list Z :=
  match quarters with
  | Some ((_ :: _) as qs) => qs
  | _ => [1; 2; 3; 4]
  end.

Definition ingest_prefecture_year (prefecture_code : string) (year : Z)
    (quarters : option (list Z)) : M Z :=
  let pref_name :=
    prefecture_name prefecture_code ("Prefecture " ++ prefecture_code)%string in
  ensure_prefecture_exists_m prefecture_code pref_name ;;;
  ingest_quarters prefecture_code year (quarters_to_fetch quarters) 0.

(** The step [quarter -= 1; if quarter == 0: quarter = 4; year -= 1]. *)
Definition step_back (year quarter : Z) : Z * Z :=
  if quarter - 1 =? 0 then (year - 1, 4) else (year, quarter - 1).

(** The loop [for _ in range(n)] of [find_latest_available_quarter]. *)
Fixpoint probe (n : nat) (year quarter : Z) : M (option Z * option Z) :=
  match n with
  | O => ret (None, None)
  | S n' =>
      result <- get_transactions year "13" (Some quarter) ;;
      match result with
      | Some _ => ret (Some year, Some quarter)
      | None =>
          let '(year', quarter') := step_back year quarter in
          sleep 500 ;;;
          probe n' year' quarter'
      end
  end.

(** The quarter the probe starts from: [(now.month - 1) // 3], or the
    fourth quarter of the year before when that is zero. *)
Definition probe_start (year month : Z) : Z * Z :=
  let quarter := (month - 1) / 3 in
  if quarter =? 0 then (year - 1, 4) else (year, quarter).

Definition find_latest_available_quarter : M (option Z * option Z) :=
  let '(year, quarter) := probe_start (now_year env) (now_month env) in
  probe 4 year quarter.

(** One [requests.get] to the FX service. *)
Definition fx_get (rate_date : Z) (currency : string) : M fx_reply :=
  fun w =>
    let n := length (fx_requests_of (trace w)) in
    (Ok (fx_api env n rate_date currency),
     {| store := store w; fx_rates := fx_rates w;
        trace := trace w ++ [EvFxRequest rate_date currency] |}).

(** [rate_date - timedelta(days=1)] on day ordinals: the first day of
    the calendar has ordinal 1. *)
Definition previous_day (rate_date : Z) : res Z :=
  if 1 <=? rate_date - 1 then Ok (rate_date - 1) else Raise OverflowError.

(** [fetch_fx_rate].  [depth] is the number of nested calls the
    interpreter still allows; [attempts] runs the loop
    [for attempt in range(max_retries)] from [attempt] on. *)
Fixpoint fetch_fx_rate (depth : nat) (rate_date : Z) (currency : string)
    (max_retries : Z) {struct depth} : M (option spec_float) :=
  match depth with
  | O => raise RecursionError
  | S depth' =>
      (fix attempts (remaining : nat) (attempt : Z) {struct remaining}
           : M (option spec_float) :=
         match remaining with
         | O => ret None
         | S remaining' =>
             reply <- fx_get rate_date currency ;;
             match reply with
             | FxRequestFailure =>
                 if attempt <? max_retries - 1
                 then sleep 1000 ;;; attempts remaining' (attempt + 1)
                 else attempts remaining' (attempt + 1)
             | FxReply status rate =>
                 if status =? 200 then
                   match rate with
                   | Some r => ret (Some r)
                   | None => attempts remaining' (attempt + 1)
                   end
                 else if status =? 404 then
                   alt_date <- lift (previous_day rate_date) ;;
                   fetch_fx_rate depth' alt_date currency 1
                 else attempts remaining' (attempt + 1)
             end
         end) (Z.to_nat max_retries) 0
  end.

(** [SELECT rate FROM fx_rates WHERE currency = .. AND year = .. AND
    quarter = ..] followed by [cur.fetchone() is None]. *)
Definition fx_rate_missing (currency : string) (year quarter : Z) : M bool :=
  fun w =>
    (Ok (match fx_rates w !! (currency, year, quarter) with
         | Some _ => false
         | None => true
         end), w).

(** The inner loop of [refresh_fx_rates] over the currencies of one
    quarter; [rates_to_insert] accumulates the fetched rates. *)
Fixpoint refresh_quarter (year quarter rate_date : Z) (currencies : list string)
    (rates_to_insert : list (string * Z * Z * FxRow))
    : M (list (string * Z * Z * FxRow)) :=
  match currencies with
  | [] => ret rates_to_insert
  | currency :: rest =>
      missing <- fx_rate_missing currency year quarter ;;
      if missing then
        rate <- fetch_fx_rate (recursion_budget env) rate_date currency 3 ;;
        let rates_to_insert' :=
          match rate with
          | Some r =>
              (rates_to_insert
               ++ [(currency, year, quarter,
                    {| fx_rate := r; fx_rate_date := rate_date |})])%list
          | None => rates_to_insert
          end in
        sleep 200 ;;;
        refresh_quarter year quarter rate_date rest rates_to_insert'
      else refresh_quarter year quarter rate_date rest rates_to_insert
  end.

Fixpoint refresh_quarters (quarters_to_check : list (Z * Z))
    (rates_to_insert : list (string * Z * Z * FxRow))
    : M (list (string * Z * Z * FxRow)) :=
  match quarters_to_check with
  | [] => ret rates_to_insert
  | (year, quarter) :: rest =>
      let month := (quarter - 1) * 3 + 2 in
      rate_date <- lift (date_ordinal year month 15) ;;
      rates <- refresh_quarter year quarter rate_date FX_CURRENCIES rates_to_insert ;;
      refresh_quarters rest rates
  end.

(** Every (year, quarter) from [start_year] to the current quarter. *)
Definition quarters_to_check (start_year current_year current_quarter : Z)
    : list (Z * Z) :=
  flat_map
    (fun year =>
       flat_map
         (fun quarter =>
            if (year >? current_year)
               || ((year =? current_year) && (quarter >? current_quarter))
            then [] else [(year, quarter)])
         (range 1 5))
    (range start_year (current_year + 1)).

(** [INSERT INTO fx_rates ... ON CONFLICT (currency, year, quarter) DO
    UPDATE SET rate = EXCLUDED.rate, rate_date = EXCLUDED.rate_date] *)
Definition upsert_fx_rates (rates : list (string * Z * Z * FxRow)) : M unit :=
  fun w =>
    (Ok tt,
     {| store := store w;
        fx_rates := fold_left (fun table row => <[fst row := snd row]> table)
                              rates (fx_rates w);
        trace := trace w |}).

Definition refresh_fx_rates (start_year : Z) : M unit :=
  let current_year := now_year env in
  let current_quarter := (now_month env - 1) / 3 + 1 in
  rates_to_insert <-
    refresh_quarters (quarters_to_check start_year current_year current_quarter) [] ;;
  match rates_to_insert with
  | [] => ret tt
  | _ :: _ => upsert_fx_rates rates_to_insert
  end.

Fixpoint ingest_prefectures (prefectures : list string) (year quarter : Z)
    (total : Z) : M Z :=
  match prefectures with
  | [] => ret total
  | prefecture_code :: rest =>
      inserted <- ingest_prefecture_year prefecture_code year (Some [quarter]) ;;
      ingest_prefectures rest year quarter (total + inserted)
  end.

Definition ingest_incremental : M unit :=
  found <- find_latest_available_quarter ;;
  match found with
  | (Some year, Some quarter) =>
      ingest_prefectures sorted_prefecture_codes year quarter 0 ;;;
      refresh_fx_rates 2005
  | _ => ret tt
  end.

End Pipeline.

(** ** The full import and the command line *)

(** The parsed command line: the attributes of [args] in [main]. *)
Module Args.

Record t : Type := {
  full : bool;
  incremental : bool;
  year : option Z;
  prefecture : option string;
  quarter : option Z;
  refresh_fx_only : bool
}.

End Args.

(** How a run of [main] ends: it returns, it leaves through [sys.exit],
    or an exception escapes it. *)
Inductive exit : Type :=
  | Returned
  | SystemExit (status : Z)
  | Unhandled (e : exn).

Definition finish (run : res unit * World) : exit * World :=
  match run with
  | (Ok _, w) => (Returned, w)
  | (Raise e, w) => (Unhandled e, w)
  end.

(** [bool(x)] for an optional text and an optional integer. *)
Definition given_text (x : option string) : option string :=
  match x with
  | Some s => if String.eqb s "" then None else Some s
  | None => None
  end.

Definition given_int (x : option Z) : option Z :=
  match x with
  | Some z => if z =? 0 then None else Some z
  | None => None
  end.

Definition PLACEHOLDER_API_KEY : string := "YOUR_API_KEY_HERE".

Section Drivers.

Context (env : Env).

(** The loop [for year in years] of [ingest_full_history]. *)
Fixpoint ingest_years (prefecture_code : string) (years : list Z) (total : Z) : M Z :=
  match years with
  | [] => ret total
  | year :: rest =>
      inserted <- ingest_prefecture_year env prefecture_code year None ;;
      ingest_years prefecture_code rest (total + inserted)
  end.

(** The loop [for prefecture_code in prefectures] of [ingest_full_history]. *)
Fixpoint ingest_history (prefectures : list string) (years : list Z) (total : Z)
    : M Z :=
  match prefectures with
  | [] => ret total
  | prefecture_code :: rest =>
      total' <- ingest_years prefecture_code years total ;;
      ingest_history rest years total'
  end.

Definition ingest_full_history (start_year : Z) (prefectures : option (list string))
    : M unit :=
  let current_year := now_year env in
  let years := range start_year (current_year + 1) in
  let prefectures :=
    match prefectures with
    | Some ps => ps
    | None => sorted_prefecture_codes
    end in
  ingest_history prefectures years 0 ;;;
  ret tt.

(** The loop [for pref in prefectures] of the [--year] branch of [main];
    the count returned by each harvest is dropped. *)
Fixpoint ingest_each (prefectures : list string) (year : Z) (quarters : option (list Z))
    : M unit :=
  match prefectures with
  | [] => ret tt
  | pref :: rest =>
      ingest_prefecture_year env pref year quarters ;;;
      ingest_each rest year quarters
  end.

(** [main] from the parsed arguments on.  [API_KEY] is the module
    constant read from the environment; closing the connection in the
    [finally] clause changes nothing that is stored. *)
Definition main (API_KEY : string) (args : Args.t) : World -> exit * World :=
  fun w =>
    if Args.refresh_fx_only args then finish (refresh_fx_rates env 2005 w)
    else if String.eqb API_KEY PLACEHOLDER_API_KEY then (SystemExit 1, w)
    else if Args.full args then
      let prefectures :=
        match given_text (Args.prefecture args) with
        | Some p => Some [p]
        | None => None
        end in
      finish ((ingest_full_history 2005 prefectures ;;; refresh_fx_rates env 2005) w)
    else if Args.incremental args then finish (ingest_incremental env w)
    else
      match given_int (Args.year args) with
      | Some year =>
          let prefectures :=
            match given_text (Args.prefecture args) with
            | Some p => [p]
            | None => sorted_prefecture_codes
            end in
          let quarters :=
            match given_int (Args.quarter args) with
            | Some q => Some [q]
            | None => None
            end in
          finish (ingest_each prefectures year quarters w)
      | None => (Returned, w)
      end.

End Drivers.

(** * Vocabulary of the statements *)

(** ** Text *)

Fixpoint all_chars (P : ascii -> bool) (s : string) : bool :=
  match s with
  | String c rest => P c && all_chars P rest
  | EmptyString => true
  end.

(** The characters a decimal literal is made of. *)
Definition int_char (c : ascii) : bool :=
  PyStr.ascii_digit c || Ascii.eqb c "_" || Ascii.eqb c "+" || Ascii.eqb c "-"
  || PyStr.isspace_c c.

(** The continuation bytes at the head of a text, and the rest of it. *)
Fixpoint continuation_run (s : string) : string * string :=
  match s with
  | String c rest =>
      if PyStr.is_continuation c then
        let '(k, r) := continuation_run rest in (String c k, r)
      else (EmptyString, s)
  | EmptyString => (EmptyString, EmptyString)
  end.

(** The bytes of one character: an opening byte and continuation bytes. *)
Definition is_char (ch : string) : bool :=
  match ch with
  | String c k => negb (PyStr.is_continuation c) && all_chars PyStr.is_continuation k
  | EmptyString => false
  end.

Definition disjoint_ranges (r1 r2 : list (Z * Z)) : bool :=
  forallb (fun a => forallb (fun b => (snd a <? fst b) || (snd b <? fst a)) r2) r1.

(** The decimal digits as ranges of code points. *)
Definition DECIMAL_RANGES : list (Z * Z) :=
  map (fun zero => (zero, zero + 9)) PyStr.DECIMAL_ZEROS.

(** A text without the delimiter of the key string. *)
Definition no_bar (s : string) : bool :=
  all_chars (fun c => negb (Ascii.eqb c "|")) s.

Definition is_hex (c : ascii) : bool :=
  PyStr.ascii_digit c || ((97 <=? PyStr.code c) && (PyStr.code c <=? 102)).

(** The character written for a hexadecimal digit is a hexadecimal
    character of one byte. *)
Definition hex_digit_ok (n : Z) : bool :=
  let c := ascii_of_N (Z.to_N (if n <? 10 then 48 + n else 87 + n)) in
  is_hex c && negb (PyStr.is_continuation c).

(** ** Years *)

(** The digit characters of a text, in order. *)
Definition digit_chars (s : string) : list string :=
  List.filter PyStr.isdigit (PyStr.chars s).

(** What the number parsers read of a digit: the ASCII digit of a
    decimal digit, and a character no number holds otherwise. *)
Definition digit_reading (ch : string) : ascii :=
  match PyStr.decimal (PyStr.ord ch) with
  | Some v => ascii_of_N (Z.to_N (48 + v))
  | None => "?"%char
  end.

(** The digits of a text as the number parsers read them. *)
Definition digits_reading (digits : list string) : string :=
  string_of_list_ascii (map digit_reading digits).

(** The decimal number that digit characters spell, most significant
    first; none when one of them is a digit without a decimal value. *)
Fixpoint decimal_value (acc : Z) (digits : list string) : option Z :=
  match digits with
  | d :: rest =>
      match PyStr.decimal (PyStr.ord d) with
      | Some v => decimal_value (10 * acc + v) rest
      | None => None
      end
  | [] => Some acc
  end.

(** The numeral embedded in a text: all its digit characters, in order,
    read as one decimal number.  There is none when the text has no
    digit, when one of its digits has no decimal value, or when it has
    more digits than [int()] converts. *)
Definition numeral (s : string) : option Z :=
  match digit_chars s with
  | [] => None
  | ds =>
      if PyStr.MAX_STR_DIGITS <? Z.of_nat (length ds) then None
      else decimal_value 0 ds
  end.

Definition add_offset (off : Z) (num : option Z) : option Z :=
  match num with
  | Some n => Some (off + n)
  | None => None
  end.

(** The fixed table of era offsets, in the order the markers are tried. *)
Definition era_offset (s : string) : option Z :=
  if has_reiwa s then Some 2018
  else if has_heisei s then Some 1988
  else if has_showa s then Some 1925
  else None.

Definition in_year_range (y : Z) : bool := (1900 <=? y) && (y <=? 2100).

(** The year a text spells directly: the integer [int()] reads in it,
    when it lies in [1900, 2100]. *)
Definition plain_year (s : string) : option Z :=
  match PyStr.int_of_str s with
  | Some y => if in_year_range y then Some y else None
  | None => None
  end.

(** A plain four-digit year: a text of exactly four decimal digits whose
    value lies in [1900, 2100]. *)
Definition four_digit_year (s : string) : option Z :=
  match PyStr.chars s with
  | [_; _; _; _] as ds =>
      match decimal_value 0 ds with
      | Some y => if in_year_range y then Some y else None
      | None => None
      end
  | _ => None
  end.

(** The resolution as the design document describes it: a plain
    four-digit year, or else an era year, or else null. *)
Definition documented_year (s : string) : option Z :=
  match four_digit_year s with
  | Some y => Some y
  | None =>
      match era_offset s with
      | Some off => add_offset off (numeral s)
      | None => None
      end
  end.

Definition resolution_as_documented : Prop :=
  forall s : string, parse_building_year (PStr s) = Ok (documented_year s).


(** ** The transformer *)

(** A value the upstream service delivers for a field: a text or null. *)
Definition textual (v : pyval) : bool :=
  match v with
  | PNone | PStr _ => true
  | _ => false
  end.

(** The number a textual value spells, separators removed and blanks
    trimmed; [None] when it is absent, empty or unparsable. *)
Definition numeric_text (v : pyval) : option spec_float :=
  match v with
  | PStr s => PyFloat.of_str (PyStr.strip (PyStr.remove_commas s))
  | _ => None
  end.


Definition is_zero (r : res (option spec_float)) : Prop :=
  exists sign, r = Ok (Some (S754_zero sign)).



(** ** The content hash *)

(** A key field that is a text without the delimiter of the key string. *)
Definition delimiter_free (v : pyval) : bool :=
  match v with
  | PStr s => all_chars (fun c => negb (Ascii.eqb c "|")) s
  | _ => false
  end.

(** The hash as the design document describes it: records that differ
    in a key field never share a hash. *)
Definition key_fields_separate_hashes : Prop :=
  forall r1 r2 : RawRecord,
    key_fields r1 <> key_fields r2 ->
    generate_record_hash r1 <> generate_record_hash r2.

(** ** The loader *)

(** The set of content hashes of a list of rows. *)
Definition hashes (rows : list CanonicalRecord) : gset string :=
  list_to_set (source_hash <$> rows).

(** A municipality code needs no upsert: the guard rejects it, or the
    dimension table has it. *)
Definition settled (st : Store) (code : string) : Prop :=
  String.eqb code "" || negb (Nat.eqb (PyStr.len code) 5) = true \/
  is_Some (municipalities st !! code).

(** The count of the loader as the design document describes it: the
    number of input rows whose hash was not in the store before the call. *)
Definition rows_with_unseen_hash (st : Store) (records : list CanonicalRecord) : Z :=
  Z.of_nat (length (List.filter
                      (fun r => negb (has_hash (source_hash r) (transactions st)))
                           records)).

Definition counts_rows_with_unseen_hash : Prop :=
  forall st records pref,
    snd (insert_transactions st records pref) = rows_with_unseen_hash st records.

(** ** Requests and pauses *)

(** The quarter parameter that is sent: a zero or absent quarter is
    left out of the request. *)
Definition sent_quarter (quarter : option Z) : option Z :=
  match quarter with
  | Some q => if q =? 0 then None else Some q
  | None => None
  end.

(** What the client makes of a reply. *)
Definition reply_outcome (r : http_reply) : res (option (list RawRecord)) :=
  match r with
  | RequestFailure => Raise ApiError
  | Reply status data =>
      if (status =? 400) || (status =? 404) then Ok None
      else if (400 <=? status) && (status <? 600) then Raise ApiError
      else Ok (data_of data)
  end.

(** The world after some more events. *)
Definition extend (w : World) (evs : list event) : World :=
  {| store := store w; fx_rates := fx_rates w; trace := (trace w ++ evs)%list |}.

(** The events of a harvest of the given quarters: a request and a pause
    for each. *)
Definition harvest_events (year : Z) (prefecture_code : string) (quarters : list Z)
    : list event :=
  flat_map (fun q => [EvRequest year prefecture_code (sent_quarter (Some q));
                      EvSleep MIN_REQUEST_INTERVAL]) quarters.

(** The events of several harvests run one after the other. *)
Definition harvests_events (hs : list (Z * string * list Z)) : list event :=
  flat_map (fun h => harvest_events (fst (fst h)) (snd (fst h)) (snd h)) hs.

(** Consecutive requests of a trace are separated by pauses of at least
    [gap] milliseconds in total; [since] is the pause accumulated since
    the last request, if there was one. *)
Fixpoint spaced_from (gap : Z) (since : option Z) (t : list event) : bool :=
  match t with
  | [] => true
  | EvRequest _ _ _ :: rest =>
      match since with
      | Some pause => (gap <=? pause) && spaced_from gap (Some 0) rest
      | None => spaced_from gap (Some 0) rest
      end
  | EvSleep ms :: rest =>
      spaced_from gap (option_map (fun pause => pause + ms) since) rest
  | EvFxRequest _ _ :: rest => spaced_from gap since rest
  end.

Definition spaced (gap : Z) (t : list event) : bool := spaced_from gap None t.

(** The pause accumulated since the last request, if there was one, is
    at least [gap]. *)
Definition pause_suffices (gap : Z) (since : option Z) : Prop :=
  match since with
  | Some pause => gap <= pause
  | None => True
  end.

(** The fetch client as the design document describes it: two
    consecutive calls are at least the minimum interval apart. *)
Definition client_enforces_spacing : Prop :=
  forall env w year1 area1 quarter1 year2 area2 quarter2,
    let w1 := snd (get_transactions env year1 area1 quarter1 w) in
    let w2 := snd (get_transactions env year2 area2 quarter2 w1) in
    spaced MIN_REQUEST_INTERVAL (skipn (length (trace w)) (trace w2)) = true.

(** ** The probe *)

(** The client reports the period as not published: it returns [None]. *)
Definition unavailable (r : http_reply) : bool :=
  match reply_outcome r with
  | Ok None => true
  | _ => false
  end.

(** The quarter a month lies in. *)
Definition quarter_of_month (month : Z) : Z := (month - 1) / 3 + 1.

(** The quarter before a (year, quarter) period, across year boundaries. *)
Definition previous_quarter (p : Z * Z) : Z * Z :=
  if snd p =? 1 then (fst p - 1, 4) else (fst p, snd p - 1).

Definition valid_quarter (p : Z * Z) : Prop := 1 <= snd p <= 4.

(** [n] periods walking backward from [p], [p] first. *)
Fixpoint periods_back (n : nat) (p : Z * Z) : list (Z * Z) :=
  match n with
  | O => []
  | S n' => p :: periods_back n' (previous_quarter p)
  end.

Definition probe_request (p : Z * Z) : event :=
  EvRequest (fst p) "13" (Some (snd p)).

(** The events of a probe that found the first [n] periods of a walk
    unavailable: a request and a pause of half a second for each. *)
Definition probe_misses (ps : list (Z * Z)) : list event :=
  flat_map (fun p => [probe_request p; EvSleep 500]) ps.

(** The replies the reference region gives to a backward walk of [n]
    periods from [p] when [count] requests were made before. *)
Fixpoint probe_replies (env : Env) (count : nat) (n : nat) (p : Z * Z)
    : list http_reply :=
  match n with
  | O => []
  | S n' =>
      api env count (fst p) "13" (Some (snd p))
      :: probe_replies env (S count) n' (previous_quarter p)
  end.

(** ** The FX fetch *)

(** A not-found reply of the FX service. *)
Definition not_found (r : fx_reply) : bool :=
  match r with
  | FxReply status _ => status =? 404
  | FxRequestFailure => false
  end.

(** The requests of a walk over [n] days backward from [rate_date]. *)
Definition fx_walk (rate_date : Z) (currency : string) (n : nat) : list event :=
  map (fun i => EvFxRequest (rate_date - Z.of_nat i) currency) (seq 0 n).

(** The FX fetch as the design document describes it: after a
    not-found reply for the requested day and another for the day
    before, it ends with no rate and has made these two requests only. *)
Definition one_level_fallback : Prop :=
  forall env depth rate_date currency w,
    (2 <= depth)%nat -> 2 <= rate_date ->
    not_found (fx_api env (length (fx_requests_of (trace w))) rate_date currency) = true ->
    not_found (fx_api env (S (length (fx_requests_of (trace w)))) (rate_date - 1) currency)
    = true ->
    let run := fetch_fx_rate env depth rate_date currency 3 w in
    fst run = Ok None /\
    fx_requests_of (trace (snd run))
    = (fx_requests_of (trace w) ++ fx_walk rate_date currency 2)%list.

(** ** Sample records and worlds *)

Definition zero_priced : RawRecord :=
  list_to_map
    [ ("MunicipalityCode", PStr "13101"); ("Type", PStr "Office");
      ("TradePrice", PStr "0"); ("UnitPrice", PInt 0);
      ("CoverageRatio", PStr "0.0"); ("FloorAreaRatio", PStr "-0");
      ("Area", PStr "1,250"); ("BuildingYear", PStr "Heisei 3") ].

Definition numeric_municipality : RawRecord :=
  {[ "MunicipalityCode" := PInt 13101 ]}.


Definition remarked (text : string) : RawRecord :=
  list_to_map
    [ ("MunicipalityCode", PStr "13101"); ("DistrictName", PStr "Kanda");
      ("TradePrice", PStr "52000000"); ("Area", PStr "70");
      ("Period", PStr "1st quarter 2023"); ("BuildingYear", PStr "1987");
      ("Type", PStr "Pre-owned Condominiums, etc."); ("Remarks", PStr text) ].

Definition priced (text : string) : RawRecord :=
  list_to_map
    [ ("MunicipalityCode", PStr "13101"); ("DistrictName", PStr "Kanda");
      ("TradePrice", PStr text); ("Area", PStr "70");
      ("Period", PStr "1st quarter 2023"); ("BuildingYear", PStr "1987");
      ("Type", PStr "Pre-owned Condominiums, etc.") ].

Definition district_named_none : RawRecord :=
  list_to_map
    [ ("MunicipalityCode", PStr "13101"); ("DistrictName", PStr "None");
      ("TradePrice", PStr "52000000"); ("Area", PStr "70");
      ("Period", PStr "1st quarter 2023"); ("BuildingYear", PStr "1987");
      ("Type", PStr "Pre-owned Condominiums, etc.") ].

Definition district_absent : RawRecord :=
  list_to_map
    [ ("MunicipalityCode", PStr "13101");
      ("TradePrice", PStr "52000000"); ("Area", PStr "70");
      ("Period", PStr "1st quarter 2023"); ("BuildingYear", PStr "1987");
      ("Type", PStr "Pre-owned Condominiums, etc.") ].

(** Ten raw records that differ in their price, and a transaction
    service that returns them for every period. *)
Definition ten_records : list RawRecord :=
  map (fun i => priced (PyStr.str_of_int (Z.of_nat i * 1000000))) (seq 1 10).

(** A fact row with a given content hash and nothing else filled in. *)
Definition blank_row (h : string) : CanonicalRecord :=
  {| source_hash := h; price_classification := "01"; prefecture_code := "13";
     municipality_code := None; municipality_name := PStr "";
     district_name := PNone; property_type_id := None;
     property_type_raw := PStr ""; trade_price := None; unit_price := None;
     area_m2 := None; total_floor_area_m2 := None; floor_plan := PNone;
     building_year := None; structure := PNone; land_shape := PNone;
     frontage_m := None; road_direction := PNone; road_type := PNone;
     road_width_m := None; city_planning := PNone; coverage_ratio := None;
     floor_area_ratio := None; transaction_year := 2023;
     transaction_quarter := Some 1; transaction_period := PNone;
     renovation := PNone; remarks := PNone |}.

(** [n] rows with pairwise different hashes. *)
Definition numbered_rows (n : nat) : list CanonicalRecord :=
  map (fun i => blank_row (PyStr.str_of_int (Z.of_nat i))) (seq 0 n).

Definition empty_world : World :=
  {| store := empty_store; fx_rates := ∅; trace := [] |}.

(** A transaction service that has published every period, with no
    record, and an FX service that knows every date. *)
Definition all_published : Env :=
  {| api := fun _ _ _ _ => Reply 200 (DataList []);
     fx_api := fun _ _ _ => FxReply 200 (Some (S754_finite false 1 (-7)));
     now_year := 2024; now_month := 5; recursion_budget := 1000 |}.

Definition steady_feed : Env :=
  {| api := fun _ _ _ _ => Reply 200 (DataList ten_records);
     fx_api := fun _ _ _ => FxReply 200 None;
     now_year := 2024; now_month := 5; recursion_budget := 1000 |}.

(** A clock in May 2024 and a reference region that has published
    nothing after the third quarter of 2023. *)
Definition published_until_2023_q3 : Env :=
  {| api := fun _ year _ quarter =>
              if (year <? 2023) || ((year =? 2023) && (default 0 quarter <=? 3))
              then Reply 200 (DataList [])
              else Reply 404 DataAbsent;
     fx_api := fun _ _ _ => FxReply 200 None;
     now_year := 2024; now_month := 5; recursion_budget := 1000 |}.

(** The same clock and a reference region that has published nothing. *)
Definition nothing_published : Env :=
  {| api := fun _ _ _ _ => Reply 404 DataAbsent;
     fx_api := fun _ _ _ => FxReply 200 None;
     now_year := 2024; now_month := 5; recursion_budget := 1000 |}.

(** An FX service closed on 15 and 14 February 2024 (ordinals 738931
    and 738930) and open the day before. *)
Definition closed_two_days : Env :=
  {| api := fun _ _ _ _ => Reply 404 DataAbsent;
     fx_api := fun _ rate_date _ =>
                 if 738930 <=? rate_date then FxReply 404 None
                 else FxReply 200 (Some (S754_finite false 1 (-7)));
     now_year := 2024; now_month := 5; recursion_budget := 1000 |}.

(** An FX service that knows no date at all. *)
Definition always_not_found : Env :=
  {| api := fun _ _ _ _ => Reply 404 DataAbsent;
     fx_api := fun _ _ _ => FxReply 404 None;
     now_year := 2024; now_month := 5; recursion_budget := 1000 |}.

(** ** Whole amounts *)

(** The amount a raw value spells as a whole number: an integer, or a
    text of decimal digits with or without thousands separators. *)
Definition whole_amount (v : pyval) : option Z :=
  match v with
  | PInt z => Some z
  | PStr s =>
      let digits := PyStr.remove_commas s in
      if negb (String.eqb digits "") && all_chars PyStr.ascii_digit digits
      then Some (PyStr.digits_value 0 digits)
      else None
  | _ => None
  end.

(** ** Invariants of the store *)

(** No two fact rows share a content hash: the unique constraint on
    [source_hash]. *)
Definition unique_hashes (st : Store) : Prop :=
  NoDup (source_hash <$> transactions st).

(** The dimension rows a fact row refers to exist. *)
Definition row_resolved (st : Store) (r : CanonicalRecord) : Prop :=
  is_Some (prefectures st !! prefecture_code r) /\
  forall m, municipality_code r = Some m -> is_Some (municipalities st !! m).

Definition references_resolved (st : Store) : Prop :=
  Forall (row_resolved st) (transactions st).

(** Nothing stored is removed or rewritten: the dimension rows of [st]
    are rows of [st'], and the fact rows of [st] are the first fact rows
    of [st'], in the same order. *)
Definition store_extends (st st' : Store) : Prop :=
  prefectures st ⊆ prefectures st' /\
  municipalities st ⊆ municipalities st' /\
  transactions st `prefix_of` transactions st'.

(** The first record of a list with a given municipality code. *)
Definition first_with_code (c : string) (records : list CanonicalRecord)
    : option CanonicalRecord :=
  find (fun r => bool_decide (municipality_code r = Some c)) records.

(** ** The attempts of the FX fetch *)

Section Attempts.

Context (env : Env) (depth : nat) (rate_date : Z) (currency : string) (max_retries : Z).

(** The loop [for attempt in range(max_retries)] of [fetch_fx_rate],
    from attempt [attempt] on, with [remaining] attempts left; the call
    for the day before may nest [depth] calls. *)
Fixpoint fx_attempts (remaining : nat) (attempt : Z) : M (option spec_float) :=
  match remaining with
  | O => ret None
  | S remaining' =>
      reply <- fx_get env rate_date currency ;;
      match reply with
      | FxRequestFailure =>
          if attempt <? max_retries - 1
          then sleep 1000 ;;; fx_attempts remaining' (attempt + 1)
          else fx_attempts remaining' (attempt + 1)
      | FxReply status rate =>
          if status =? 200 then
            match rate with
            | Some r => ret (Some r)
            | None => fx_attempts remaining' (attempt + 1)
            end
          else if status =? 404 then
            alt_date <- lift (previous_day rate_date) ;;
            fetch_fx_rate env depth alt_date currency 1
          else fx_attempts remaining' (attempt + 1)
      end
  end.

End Attempts.

(** [k] failed attempts that are tried again: a request and a pause of
    one second each. *)
Definition retried (rate_date : Z) (currency : string) (k : nat) : list event :=
  concat (repeat [EvFxRequest rate_date currency; EvSleep 1000] k).

(** The events of [n] failed attempts: no pause follows the last one. *)
Definition failed_attempts (rate_date : Z) (currency : string) (n : nat) : list event :=
  match n with
  | O => []
  | S k => (retried rate_date currency k ++ [EvFxRequest rate_date currency])%list
  end.

(** A reply that carries no rate and is not a not-found reply: status
    200 without the currency, or a status other than 200 and 404. *)
Definition without_rate (r : fx_reply) : bool :=
  match r with
  | FxReply status rate =>
      if status =? 200 then match rate with Some _ => false | None => true end
      else negb (status =? 404)
  | FxRequestFailure => false
  end.

(** ** A program logic for the world monad *)

(** Events that are not transaction requests: FX requests and pauses. *)
Definition fx_events (evs : list event) : Prop := requests_of evs = [].

(** A computation that only adds such events to the trace: it changes
    neither the store nor the FX table and sends no transaction request. *)
Definition fx_only {A : Type} (m : M A) : Prop :=
  forall w, exists evs, snd (m w) = extend w evs /\ fx_events evs.

(** When [m] returns from a world that satisfies [Pre], the value and
    the world it returns satisfy [Post]. *)
Definition triple {A : Type} (Pre : World -> Prop) (m : M A)
    (Post : A -> World -> Prop) : Prop :=
  forall w a w', Pre w -> m w = (Ok a, w') -> Post a w'.

(** ** The table of the FX refresh *)

(** The day whose rate stands for a quarter: the fifteenth of its middle
    month. *)
Definition mid_quarter_day (year quarter : Z) : res Z :=
  date_ordinal year ((quarter - 1) * 3 + 2) 15.

(** An entry of the list of fetched rates for a quarter: a currency
    that had no row for the quarter, with the day asked for. *)
Definition fetched_entry (table : gmap (string * Z * Z) FxRow) (currencies : list string)
    (year quarter rate_date : Z) (entry : string * Z * Z * FxRow) : Prop :=
  exists currency row,
    entry = (currency, year, quarter, row) /\ In currency currencies /\
    table !! (currency, year, quarter) = None /\ fx_rate_date row = rate_date.

(** An entry of the list of fetched rates of a refresh. *)
Definition refreshed_entry (table : gmap (string * Z * Z) FxRow) (quarters : list (Z * Z))
    (entry : string * Z * Z * FxRow) : Prop :=
  exists year quarter rate_date,
    In (year, quarter) quarters /\ mid_quarter_day year quarter = Ok rate_date /\
    fetched_entry table FX_CURRENCIES year quarter rate_date entry.

(** An FX service that answers every request with a rate. *)
Definition fx_always_answers (env : Env) : Prop :=
  forall n rate_date currency, exists r,
    fx_api env n rate_date currency = FxReply 200 (Some r).

(** ** The batches and the plans of the harvest *)

(** The records a quarter of a harvest loads when [n] requests were made
    before: the transformed records of the reply, or none when the
    period is not published, the reply is empty, the request fails or a
    record cannot be transformed. *)
Definition batch (env : Env) (n : nat) (pref : string) (year quarter : Z)
    : list CanonicalRecord :=
  match reply_outcome (api env n year pref (sent_quarter (Some quarter))) with
  | Ok (Some ts) =>
      match map_res (fun t => transform_record t pref year (Some quarter)) ts with
      | Ok records => records
      | Raise _ => []
      end
  | _ => []
  end.

(** A feed whose replies do not depend on how many requests came before. *)
Definition stable_feed (env : Env) : Prop :=
  forall n n' year area quarter, api env n year area quarter = api env n' year area quarter.

(** The store holds a batch: its hashes are stored and its municipality
    codes need no upsert. *)
Definition covers (st : Store) (records : list CanonicalRecord) : Prop :=
  hashes records ⊆ hashes (transactions st) /\
  forall r c, In r records -> municipality_code r = Some c -> settled st c.

(** Every reply of the feed has at most one insert page of records. *)
Definition replies_fit_a_page (env : Env) : Prop :=
  forall n year area quarter status records,
    api env n year area quarter = Reply status (DataList records) ->
    (length records <= PAGE_SIZE)%nat.

(** The harvests of a full import: for each prefecture, each year, the
    four quarters. *)
Definition history_plan (prefectures : list string) (years : list Z)
    : list (Z * string * list Z) :=
  flat_map (fun p => map (fun y => (y, p, [1; 2; 3; 4])) years) prefectures.

(** The harvests of one quarter for each prefecture. *)
Definition quarter_plan (prefectures : list string) (year : Z) (quarters : list Z)
    : list (Z * string * list Z) :=
  map (fun p => (year, p, quarters)) prefectures.

(** ** Further sample feeds, tables and command lines *)

(** A transaction service that delivers a good record and a record whose
    municipality code is a number. *)
Definition mixed_feed : Env :=
  {| api := fun _ _ _ _ => Reply 200 (DataList [priced "1000000"; numeric_municipality]);
     fx_api := fun _ _ _ => FxReply 200 None;
     now_year := 2024; now_month := 5; recursion_budget := 1000 |}.

(** An FX service whose first two requests fail and that answers after. *)
Definition fx_flaky : Env :=
  {| api := fun _ _ _ _ => Reply 404 DataAbsent;
     fx_api := fun n _ _ =>
                 if (n <? 2)%nat then FxRequestFailure
                 else FxReply 200 (Some (S754_finite false 1 (-7)));
     now_year := 2024; now_month := 5; recursion_budget := 1000 |}.

(** An FX service that cannot be reached. *)
Definition fx_down : Env :=
  {| api := fun _ _ _ _ => Reply 404 DataAbsent;
     fx_api := fun _ _ _ => FxRequestFailure;
     now_year := 2024; now_month := 5; recursion_budget := 1000 |}.

(** An FX service that answers not-found once and cannot be reached after. *)
Definition fx_closed_then_down : Env :=
  {| api := fun _ _ _ _ => Reply 404 DataAbsent;
     fx_api := fun n _ _ => if (n =? 0)%nat then FxReply 404 None else FxRequestFailure;
     now_year := 2024; now_month := 5; recursion_budget := 1000 |}.

(** An FX table with a rate for every currency and for the two quarters
    of 2024 up to May. *)
Definition rates_of_2024 : gmap (string * Z * Z) FxRow :=
  list_to_map
    (flat_map (fun c => [((c, 2024, 1), {| fx_rate := S754_finite false 1 (-7);
                                           fx_rate_date := 738931 |});
                         ((c, 2024, 2), {| fx_rate := S754_finite false 1 (-7);
                                           fx_rate_date := 739021 |})])
              FX_CURRENCIES).

(** [--full --prefecture 13] *)
Definition full_import_of_tokyo : Args.t :=
  {| Args.full := true; Args.incremental := false; Args.year := None;
     Args.prefecture := Some "13"; Args.quarter := None; Args.refresh_fx_only := false |}.

(** [--year 2023 --prefecture 13 --quarter 1] *)
Definition first_quarter_of_tokyo : Args.t :=
  {| Args.full := false; Args.incremental := false; Args.year := Some 2023;
     Args.prefecture := Some "13"; Args.quarter := Some 1; Args.refresh_fx_only := false |}.

(** * Properties *)

(** ** The digest agrees with the published test vectors *)

Example sha256_abc :
  Sha256.hexdigest "abc"
  = "ba7816bf8f01cfea414140de5dae2223b00361a396177a9cb410ff61f20015ad".
Proof. vm_compute. reflexivity. Qed.

Example sha256_empty :
  Sha256.hexdigest ""
  = "e3b0c44298fc1c149afbf4c8996fb92427ae41e4649b934ca495991b7852b855".
Proof. vm_compute. reflexivity. Qed.

Example sha256_two_blocks :
  Sha256.hexdigest "abcdbcdecdefdefgefghfghighijhijkijkljklmklmnlmnomnopnopq"
  = "248d6a61d20638b8e5c026930c3e6039a33ce45964ff2167f6ecedd419db06c1".
Proof. vm_compute. reflexivity. Qed.

(** ** Text *)

Lemma append_cons c (a b : string) : (String c a ++ b)%string = String c (a ++ b)%string.
Proof. reflexivity. Qed.

Lemma append_empty (b : string) : ("" ++ b)%string = b.
Proof. reflexivity. Qed.

Lemma append_empty_r (s : string) : (s ++ "")%string = s.
Proof. induction s as [|c s IH]; [reflexivity|]. rewrite append_cons, IH. reflexivity. Qed.

Lemma all_chars_app P s1 s2 :
  all_chars P (s1 ++ s2) = all_chars P s1 && all_chars P s2.
Proof.
  induction s1 as [|c s1 IH]; simpl; [reflexivity|].
  rewrite IH. apply andb_assoc.
Qed.

Lemma prefix_split needle hay :
  String.prefix needle hay = true -> exists post, hay = (needle ++ post)%string.
Proof.
  revert hay. induction needle as [|c needle IH]; intros hay H.
  - exists hay. reflexivity.
  - destruct hay as [|d hay]; simpl in H; [discriminate|].
    destruct (ascii_dec c d) as [->|]; [|discriminate].
    destruct (IH _ H) as [post ->]. exists post. reflexivity.
Qed.

Lemma contains_split needle hay :
  PyStr.contains needle hay = true ->
  exists pre post, hay = (pre ++ needle ++ post)%string.
Proof.
  induction hay as [|c hay IH]; intros H.
  - cbn [PyStr.contains] in H. rewrite orb_false_r in H.
    destruct (prefix_split _ _ H) as [post Hp]. exists EmptyString, post. exact Hp.
  - cbn [PyStr.contains] in H. apply orb_true_iff in H as [H|H].
    + destruct (prefix_split _ _ H) as [post Hp]. exists EmptyString, post. exact Hp.
    + destruct (IH H) as (pre & post & ->). exists (String c pre), post. reflexivity.
Qed.

Lemma contains_all_chars P needle hay :
  PyStr.contains needle hay = true -> all_chars P hay = true ->
  all_chars P needle = true.
Proof.
  intros Hc Ha. destruct (contains_split _ _ Hc) as (pre & post & ->).
  rewrite !all_chars_app in Ha.
  apply andb_true_iff in Ha as [_ Ha]. apply andb_true_iff in Ha as [Ha _].
  exact Ha.
Qed.

Lemma all_chars_impl (P Q : ascii -> bool) s :
  (forall c, P c = true -> Q c = true) ->
  all_chars P s = true -> all_chars Q s = true.
Proof.
  intros HPQ. induction s as [|c rest IH]; [reflexivity|].
  cbn [all_chars]. intros H. apply andb_true_iff in H as [Hc Hr].
  rewrite (HPQ _ Hc), (IH Hr). reflexivity.
Qed.

Lemma code_bound c : 0 <= PyStr.code c < 256.
Proof.
  unfold PyStr.code. pose proof (N_ascii_bounded c) as H. lia.
Qed.

Lemma ascii_of_code c : ascii_of_N (Z.to_N (PyStr.code c)) = c.
Proof.
  unfold PyStr.code. rewrite N2Z.id. apply ascii_N_embedding.
Qed.

Lemma code_of_ascii z : 0 <= z < 256 -> PyStr.code (ascii_of_N (Z.to_N z)) = z.
Proof.
  intros H. unfold PyStr.code. rewrite N_ascii_embedding by lia. lia.
Qed.

(** *** The characters of a text *)

Lemma continuation_run_spec s :
  s = (fst (continuation_run s) ++ snd (continuation_run s))%string /\
  all_chars PyStr.is_continuation (fst (continuation_run s)) = true /\
  PyStr.opens_with_continuation (snd (continuation_run s)) = false /\
  (String.length (snd (continuation_run s)) <= String.length s)%nat.
Proof.
  induction s as [|c s (IH1 & IH2 & IH3 & IH4)]; [cbn; auto|].
  cbn [continuation_run]. destruct (PyStr.is_continuation c) eqn:Ec.
  - destruct (continuation_run s) as [k r]. cbn [fst snd] in *.
    repeat split.
    + rewrite append_cons. congruence.
    + cbn [all_chars]. rewrite Ec, IH2. reflexivity.
    + exact IH3.
    + cbn [String.length]. lia.
  - cbn [fst snd all_chars PyStr.opens_with_continuation].
    rewrite append_empty, Ec. auto.
Qed.

Lemma continuation_run_all k :
  all_chars PyStr.is_continuation k = true -> continuation_run k = (k, EmptyString).
Proof.
  induction k as [|c k IH]; [reflexivity|].
  cbn [all_chars continuation_run]. intros H. apply andb_true_iff in H as [-> H].
  rewrite (IH H). reflexivity.
Qed.

Lemma continuation_run_opening s :
  PyStr.opens_with_continuation s = false -> continuation_run s = (EmptyString, s).
Proof.
  destruct s as [|c s]; [reflexivity|].
  cbn [PyStr.opens_with_continuation continuation_run]. intros ->. reflexivity.
Qed.

Lemma chars_nonempty c rest : PyStr.chars (String c rest) <> [].
Proof.
  cbn [PyStr.chars]. destruct (PyStr.chars rest); [discriminate|].
  destruct (PyStr.opens_with_continuation rest); discriminate.
Qed.

(** The characters of a text, read from its head: the opening byte takes
    the continuation bytes that follow it. *)
Lemma chars_cons c rest :
  PyStr.chars (String c rest)
  = String c (fst (continuation_run rest)) :: PyStr.chars (snd (continuation_run rest)).
Proof.
  revert c. induction rest as [|d r IH]; intros c; [reflexivity|].
  change (PyStr.chars (String c (String d r)))
    with (match PyStr.chars (String d r) with
          | ch :: more =>
              if PyStr.is_continuation d then String c ch :: more
              else String c EmptyString :: ch :: more
          | [] => [String c EmptyString]
          end).
  cbn [continuation_run]. destruct (PyStr.is_continuation d).
  - rewrite (IH d). destruct (continuation_run r) as [k r']. reflexivity.
  - cbn [fst snd]. destruct (PyStr.chars (String d r)) eqn:E; [|reflexivity].
    exfalso. exact (chars_nonempty _ _ E).
Qed.

(** Induction over the characters of a text. *)
Lemma chars_ind (P : string -> list string -> Prop) :
  P EmptyString [] ->
  (forall c k r,
      all_chars PyStr.is_continuation k = true ->
      PyStr.opens_with_continuation r = false ->
      P r (PyStr.chars r) ->
      P (String c (k ++ r)) (String c k :: PyStr.chars r)) ->
  forall s, P s (PyStr.chars s).
Proof.
  intros Hnil Hcons s.
  remember (String.length s) as n eqn:Hn.
  revert s Hn. induction n as [n IH] using lt_wf_ind. intros s Hn.
  destruct s as [|c rest]; [exact Hnil|].
  rewrite chars_cons.
  destruct (continuation_run_spec rest) as (Hs & Hk & Hr & Hl).
  rewrite Hs at 1.
  apply Hcons; [exact Hk|exact Hr|].
  apply (IH (String.length (snd (continuation_run rest)))); [|reflexivity].
  subst n. cbn [String.length]. lia.
Qed.

Lemma cat_chars s : PyStr.cat (PyStr.chars s) = s.
Proof.
  apply (chars_ind (fun s l => PyStr.cat l = s)); [reflexivity|].
  intros c k r _ _ IH. cbn [PyStr.cat].
  rewrite IH, append_cons. reflexivity.
Qed.

Lemma chars_shape s ch :
  In ch (PyStr.chars s) ->
  exists c k, ch = String c k /\ all_chars PyStr.is_continuation k = true.
Proof.
  revert ch.
  apply (chars_ind (fun s l => forall ch, In ch l -> exists c k,
                       ch = String c k /\ all_chars PyStr.is_continuation k = true)).
  - intros ch [].
  - intros c k r Hk _ IH ch [<-|Hin]; [eauto|exact (IH _ Hin)].
Qed.

Lemma chars_app s t :
  PyStr.opens_with_continuation t = false ->
  PyStr.chars (s ++ t) = (PyStr.chars s ++ PyStr.chars t)%list.
Proof.
  intros Ht. induction s as [|c rest IH]; [reflexivity|].
  rewrite append_cons. cbn [PyStr.chars]. rewrite IH.
  destruct rest as [|d r].
  - rewrite append_empty. cbn [PyStr.chars app]. rewrite Ht.
    destruct (PyStr.chars t); reflexivity.
  - rewrite append_cons. cbn [PyStr.opens_with_continuation].
    destruct (PyStr.chars (String d r)) as [|ch more] eqn:E;
      [exfalso; exact (chars_nonempty _ _ E)|].
    cbn [app]. destruct (PyStr.is_continuation d); reflexivity.
Qed.

Lemma chars_of_char ch : is_char ch = true -> PyStr.chars ch = [ch].
Proof.
  destruct ch as [|c k]; [discriminate|].
  cbn [is_char]. intros H. apply andb_true_iff in H as [_ Hk].
  rewrite chars_cons, (continuation_run_all _ Hk). reflexivity.
Qed.

Lemma cat_opening l :
  forallb is_char l = true -> PyStr.opens_with_continuation (PyStr.cat l) = false.
Proof.
  destruct l as [|p l]; [reflexivity|].
  cbn [forallb PyStr.cat]. intros H. apply andb_true_iff in H as [Hp _].
  destruct p as [|c k]; [discriminate|].
  cbn [is_char] in Hp. apply andb_true_iff in Hp as [Hc _].
  rewrite append_cons. cbn [PyStr.opens_with_continuation].
  apply negb_true_iff. exact Hc.
Qed.

(** Joining characters and splitting the text again gives them back. *)
Lemma chars_cat l : forallb is_char l = true -> PyStr.chars (PyStr.cat l) = l.
Proof.
  induction l as [|p l IH]; [reflexivity|].
  intros H. pose proof H as H0.
  cbn [forallb] in H0. apply andb_true_iff in H0 as [Hp Hl].
  cbn [PyStr.cat]. rewrite chars_app by (apply cat_opening; exact Hl).
  rewrite (chars_of_char _ Hp), (IH Hl). reflexivity.
Qed.

Lemma chars_bytes s :
  all_chars (fun c => negb (PyStr.is_continuation c)) s = true ->
  PyStr.chars s = map (fun c => String c EmptyString) (list_ascii_of_string s).
Proof.
  induction s as [|c rest IH]; [reflexivity|].
  cbn [all_chars]. intros H. apply andb_true_iff in H as [_ Hr].
  rewrite chars_cons, continuation_run_opening.
  - cbn [fst snd list_ascii_of_string map]. rewrite (IH Hr). reflexivity.
  - destruct rest as [|d r]; [reflexivity|].
    cbn [all_chars] in Hr. apply andb_true_iff in Hr as [Hd _].
    apply negb_true_iff. exact Hd.
Qed.

(** A code point is encoded by a character that opens with an opening
    byte. *)
Lemma ord_opening c k : 0 <= PyStr.ord (String c k) -> PyStr.is_continuation c = false.
Proof.
  intros H. unfold PyStr.is_continuation.
  destruct ((128 <=? PyStr.code c) && (PyStr.code c <=? 191)) eqn:E; [|reflexivity].
  exfalso. apply andb_true_iff in E as [E1 E2].
  apply Z.leb_le in E1. apply Z.leb_le in E2.
  destruct k as [|b1 [|b2 [|b3 [|b4 k]]]]; cbn [PyStr.ord] in H;
    unfold PyStr.tail_bits in H;
    try pose proof (code_bound b1); try pose proof (code_bound b2);
    try pose proof (code_bound b3);
    repeat match type of H with
           | context [if ?b then _ else _] =>
               let Eb := fresh "Eb" in
               destruct b eqn:Eb;
               [try apply andb_true_iff in Eb as [? ?]|]
           end;
    repeat match goal with
           | Hb : (_ <=? _) = true |- _ => apply Z.leb_le in Hb
           | Hb : (_ <? _) = true |- _ => apply Z.ltb_lt in Hb
           end;
    lia.
Qed.

(** *** The character classes *)

Lemma in_ranges_spec cp ranges :
  PyStr.in_ranges cp ranges = true ->
  exists r, In r ranges /\ fst r <= cp <= snd r.
Proof.
  unfold PyStr.in_ranges. intros H. apply existsb_exists in H as (r & Hin & Hr).
  apply andb_true_iff in Hr as [H1 H2].
  apply Z.leb_le in H1. apply Z.leb_le in H2. eauto.
Qed.

Lemma disjoint_ranges_spec r1 r2 cp :
  disjoint_ranges r1 r2 = true ->
  PyStr.in_ranges cp r1 = true -> PyStr.in_ranges cp r2 = false.
Proof.
  intros Hd H1. destruct (PyStr.in_ranges cp r2) eqn:H2; [|reflexivity].
  exfalso.
  destruct (in_ranges_spec _ _ H1) as (a & Ha & Ha').
  destruct (in_ranges_spec _ _ H2) as (b & Hb & Hb').
  unfold disjoint_ranges in Hd. rewrite forallb_forall in Hd.
  specialize (Hd a Ha). rewrite forallb_forall in Hd. specialize (Hd b Hb).
  apply orb_true_iff in Hd as [Hd|Hd]; apply Z.ltb_lt in Hd; lia.
Qed.

Lemma ranges_above lo cp ranges :
  forallb (fun r => lo <=? fst r) ranges = true ->
  PyStr.in_ranges cp ranges = true -> lo <= cp.
Proof.
  intros Hall H. destruct (in_ranges_spec _ _ H) as (r & Hin & Hr).
  rewrite forallb_forall in Hall. specialize (Hall r Hin).
  apply Z.leb_le in Hall. lia.
Qed.

(** A decimal digit lies in the decade of its zero. *)
Lemma decimal_spec cp v :
  PyStr.decimal cp = Some v ->
  0 <= v <= 9 /\ In (cp - v) PyStr.DECIMAL_ZEROS /\
  PyStr.in_ranges cp DECIMAL_RANGES = true.
Proof.
  unfold PyStr.decimal. intros H.
  destruct (List.find _ PyStr.DECIMAL_ZEROS) as [zero|] eqn:E; [|discriminate].
  injection H as <-. apply find_some in E as [Hin Hz].
  apply andb_true_iff in Hz as [H1 H2].
  pose proof H1 as H1'. pose proof H2 as H2'.
  apply Z.leb_le in H1'. apply Z.leb_le in H2'.
  split; [lia|]. split.
  - replace (cp - (cp - zero)) with zero by lia. exact Hin.
  - unfold PyStr.in_ranges, DECIMAL_RANGES. apply existsb_exists.
    exists (zero, zero + 9). split; [apply (in_map (fun z => (z, z + 9))); exact Hin|].
    cbn [fst snd]. rewrite H1, H2. reflexivity.
Qed.

Lemma decimal_not_space cp v :
  PyStr.decimal cp = Some v -> PyStr.in_ranges cp PyStr.WHITESPACE = false.
Proof.
  intros H. apply (disjoint_ranges_spec DECIMAL_RANGES); [vm_compute; reflexivity|].
  apply (decimal_spec _ _ H).
Qed.

Lemma other_digit_not_space cp :
  PyStr.in_ranges cp PyStr.OTHER_DIGITS = true ->
  PyStr.in_ranges cp PyStr.WHITESPACE = false.
Proof. apply disjoint_ranges_spec. vm_compute. reflexivity. Qed.

(** The only decimal digits below U+0660 are the ASCII digits. *)
Lemma decimal_ascii cp v :
  PyStr.decimal cp = Some v -> cp < 1632 -> 48 <= cp <= 57 /\ v = cp - 48.
Proof.
  intros H Hlt. destruct (decimal_spec _ _ H) as (Hv & Hin & _).
  assert (Hz : forallb (fun zero => (zero =? 48) || (1632 <=? zero)) PyStr.DECIMAL_ZEROS = true)
    by (vm_compute; reflexivity).
  rewrite forallb_forall in Hz. specialize (Hz _ Hin).
  apply orb_true_iff in Hz as [Hz|Hz]; [apply Z.eqb_eq in Hz|apply Z.leb_le in Hz]; lia.
Qed.

Lemma isdigit_spec ch :
  PyStr.isdigit ch = true ->
  48 <= PyStr.ord ch /\ PyStr.isspace ch = false /\
  (PyStr.decimal (PyStr.ord ch) = None -> 178 <= PyStr.ord ch).
Proof.
  unfold PyStr.isdigit, PyStr.isspace. intros H.
  destruct (PyStr.decimal (PyStr.ord ch)) as [v|] eqn:E.
  - split; [|split; [exact (decimal_not_space _ _ E)|discriminate]].
    destruct (decimal_spec _ _ E) as (_ & _ & Hr).
    apply (ranges_above 48 _ DECIMAL_RANGES); [vm_compute; reflexivity|exact Hr].
  - assert (178 <= PyStr.ord ch)
      by (apply (ranges_above 178 _ PyStr.OTHER_DIGITS); [vm_compute; reflexivity|exact H]).
    split; [lia|]. split; [exact (other_digit_not_space _ H)|auto].
Qed.

(** A digit among the characters of a text is a whole character. *)
Lemma isdigit_is_char s ch :
  In ch (PyStr.chars s) -> PyStr.isdigit ch = true -> is_char ch = true.
Proof.
  intros Hin Hd. destruct (chars_shape _ _ Hin) as (c & k & -> & Hk).
  cbn [is_char]. rewrite Hk, andb_true_r. apply negb_true_iff.
  apply (ord_opening c k). destruct (isdigit_spec _ Hd) as [H _]. lia.
Qed.

Lemma ascii_of_digit ch :
  PyStr.isdigit ch = true -> PyStr.ascii_of_char ch = digit_reading ch.
Proof.
  intros H. destruct (isdigit_spec _ H) as (Hlo & Hsp & Hother).
  unfold digit_reading.
  destruct ch as [|a [|b k]].
  - vm_compute in Hlo. exfalso. apply Hlo. reflexivity.
  - cbn [PyStr.ord] in *. cbn [PyStr.ascii_of_char].
    destruct (PyStr.code a <? 128) eqn:E; [|lia].
    apply Z.ltb_lt in E.
    destruct (PyStr.decimal (PyStr.code a)) as [v|] eqn:Ed.
    + destruct (decimal_ascii _ _ Ed ltac:(lia)) as [Hr ->].
      replace (48 + (PyStr.code a - 48)) with (PyStr.code a) by lia.
      rewrite ascii_of_code.
      destruct (PyStr.code a <? 127) eqn:E'; [reflexivity|apply Z.ltb_ge in E'; lia].
    + specialize (Hother eq_refl). lia.
  - change (PyStr.ascii_of_char (String a (String b k)))
      with (if PyStr.isspace (String a (String b k)) then " "%char
            else match PyStr.decimal (PyStr.ord (String a (String b k))) with
                 | Some d => ascii_of_N (Z.to_N (48 + d))
                 | None => "?"%char
                 end).
    rewrite Hsp. reflexivity.
Qed.

Lemma digit_reading_decimal ch v :
  PyStr.decimal (PyStr.ord ch) = Some v ->
  PyStr.ascii_digit (digit_reading ch) = true /\
  PyStr.digit_value (digit_reading ch) = v.
Proof.
  intros H. destruct (decimal_spec _ _ H) as (Hv & _).
  unfold digit_reading, PyStr.ascii_digit, PyStr.digit_value. rewrite H.
  rewrite code_of_ascii by lia. split; [|lia].
  apply andb_true_iff. split; apply Z.leb_le; lia.
Qed.

(** *** Decimal literals *)

Lemma lstrip_all_chars P sp s :
  (forall c, sp c = true -> P c = true) ->
  all_chars P (PyStr.lstrip sp s) = true -> all_chars P s = true.
Proof.
  intros Hsp. induction s as [|c s IH]; simpl; [reflexivity|].
  destruct (sp c) eqn:E; simpl; intros H.
  - rewrite (Hsp _ E), (IH H). reflexivity.
  - exact H.
Qed.

Lemma rstrip_all_chars P sp s :
  (forall c, sp c = true -> P c = true) ->
  all_chars P (PyStr.rstrip sp s) = true -> all_chars P s = true.
Proof.
  intros Hsp. induction s as [|c s IH]; simpl; [reflexivity|].
  destruct (PyStr.rstrip sp s) as [|d r] eqn:E.
  - destruct (sp c) eqn:Ec; simpl; intros H.
    + rewrite (Hsp _ Ec), IH; reflexivity.
    + apply andb_true_iff in H as [-> _]. rewrite IH; reflexivity.
  - simpl. intros H. apply andb_true_iff in H as [-> H]. rewrite IH; [reflexivity|exact H].
Qed.

Lemma digit_run_chars P :
  (forall c, PyStr.ascii_digit c = true -> P c = true) -> P "_"%char = true ->
  forall n s ds r, (String.length s <= n)%nat ->
    PyStr.digit_run s = (ds, r) -> all_chars P r = true -> all_chars P s = true.
Proof.
  intros Hd Hu. induction n as [|n IH]; intros s ds r Hlen Hrun Hr.
  - destruct s; [reflexivity|cbn [String.length] in Hlen; inversion Hlen].
  - destruct s as [|c rest]; [reflexivity|].
    cbn [PyStr.digit_run] in Hrun. cbn [String.length] in Hlen.
    destruct (PyStr.ascii_digit c) eqn:Ec.
    2:{ injection Hrun as <- <-. exact Hr. }
    cbn [all_chars]. rewrite (Hd _ Ec). cbn [andb].
    destruct rest as [|u [|d rest']].
    + reflexivity.
    + destruct (PyStr.digit_run (String u "")) as [ds' r'] eqn:E.
      injection Hrun as <- <-.
      apply (IH _ _ _) with (2 := E) (3 := Hr). simpl in *. lia.
    + destruct (Ascii.eqb u "_" && PyStr.ascii_digit d) eqn:Eu.
      * apply andb_true_iff in Eu as [Eu _]. apply Ascii.eqb_eq in Eu. subst u.
        destruct (PyStr.digit_run (String d rest')) as [ds' r'] eqn:E.
        injection Hrun as <- <-.
        cbn [all_chars]. rewrite Hu. cbn [andb].
        apply (IH _ _ _) with (2 := E) (3 := Hr). simpl in *. lia.
      * destruct (PyStr.digit_run (String u (String d rest'))) as [ds' r'] eqn:E.
        injection Hrun as <- <-.
        apply (IH _ _ _) with (2 := E) (3 := Hr). simpl in *. lia.
Qed.

Lemma isdigit_not_underscore c : PyStr.ascii_digit c = true -> Ascii.eqb c "_" = false.
Proof.
  intros H. destruct (Ascii.eqb_spec c "_") as [->|]; [discriminate H|reflexivity].
Qed.

Lemma isdigit_not_sign c :
  PyStr.ascii_digit c = true -> Ascii.eqb c "-" = false /\ Ascii.eqb c "+" = false.
Proof.
  intros H. split.
  - destruct (Ascii.eqb_spec c "-") as [->|]; [discriminate H|reflexivity].
  - destruct (Ascii.eqb_spec c "+") as [->|]; [discriminate H|reflexivity].
Qed.

Lemma isdigit_not_space c : PyStr.ascii_digit c = true -> PyStr.isspace_c c = false.
Proof.
  unfold PyStr.ascii_digit, PyStr.isspace_c. intros H.
  apply andb_true_iff in H as [H1 H2].
  apply Z.leb_le in H1. apply Z.leb_le in H2.
  apply orb_false_iff. split.
  - apply andb_false_iff. right. apply Z.leb_gt. lia.
  - apply Z.eqb_neq. lia.
Qed.

Lemma digit_run_all_digits s :
  all_chars PyStr.ascii_digit s = true -> PyStr.digit_run s = (s, EmptyString).
Proof.
  induction s as [|c rest IH]; intros H; [reflexivity|].
  cbn [all_chars] in H. apply andb_true_iff in H as [Hc Hrest].
  cbn [PyStr.digit_run]. rewrite Hc. specialize (IH Hrest).
  destruct rest as [|u [|d rest']].
  - reflexivity.
  - rewrite IH. reflexivity.
  - cbn [all_chars] in Hrest. apply andb_true_iff in Hrest as [Hu _].
    rewrite (isdigit_not_underscore _ Hu). cbn [andb]. rewrite IH. reflexivity.
Qed.

Lemma rstrip_id sp s :
  all_chars (fun c => negb (sp c)) s = true -> PyStr.rstrip sp s = s.
Proof.
  induction s as [|c rest IH]; intros H; [reflexivity|].
  cbn [all_chars] in H. apply andb_true_iff in H as [Hc Hrest].
  cbn [PyStr.rstrip]. rewrite (IH Hrest).
  destruct rest; [|reflexivity].
  apply negb_true_iff in Hc. rewrite Hc. reflexivity.
Qed.

Lemma strip_digits sp s :
  (forall c, PyStr.ascii_digit c = true -> sp c = false) ->
  all_chars PyStr.ascii_digit s = true ->
  PyStr.rstrip sp (PyStr.lstrip sp s) = s.
Proof.
  intros Hsp H.
  assert (Hl : PyStr.lstrip sp s = s).
  { destruct s as [|c rest]; [reflexivity|]. cbn [all_chars] in H.
    apply andb_true_iff in H as [Hc _]. cbn [PyStr.lstrip]. rewrite (Hsp _ Hc). reflexivity. }
  rewrite Hl. apply rstrip_id.
  eapply all_chars_impl; [|exact H]. intros c Hc. rewrite (Hsp _ Hc). reflexivity.
Qed.

(** The literal of a non-empty string of ASCII digits is its decimal
    value, unless it is longer than [int()] converts. *)
Lemma int_of_ascii_digits c rest :
  all_chars PyStr.ascii_digit (String c rest) = true ->
  PyStr.int_of_ascii (String c rest)
  = if PyStr.MAX_STR_DIGITS <? Z.of_nat (String.length (String c rest)) then None
    else Some (PyStr.digits_value 0 (String c rest)).
Proof.
  intros H. pose proof H as H0.
  cbn [all_chars] in H0. apply andb_true_iff in H0 as [Hc _].
  unfold PyStr.int_of_ascii, PyStr.strip_c.
  rewrite (strip_digits PyStr.isspace_c _ isdigit_not_space H).
  unfold PyStr.take_sign.
  destruct (isdigit_not_sign _ Hc) as [-> ->].
  rewrite (digit_run_all_digits _ H). reflexivity.
Qed.

(** A literal is made of digits, underscores, signs and blanks only. *)
Lemma int_of_ascii_chars s z :
  PyStr.int_of_ascii s = Some z -> all_chars int_char s = true.
Proof.
  unfold PyStr.int_of_ascii, PyStr.strip_c. intros H.
  apply (lstrip_all_chars int_char PyStr.isspace_c).
  { intros c Hc. unfold int_char. rewrite Hc. apply orb_true_r. }
  apply (rstrip_all_chars int_char PyStr.isspace_c).
  { intros c Hc. unfold int_char. rewrite Hc. apply orb_true_r. }
  set (t := PyStr.rstrip _ _) in *. clearbody t.
  destruct (PyStr.take_sign t) as [neg body] eqn:Es.
  destruct (PyStr.digit_run body) as [ds r] eqn:Er.
  destruct ds as [|d ds]; [discriminate|]. destruct r; [|discriminate].
  assert (Hb : all_chars int_char body = true).
  { apply (digit_run_chars int_char) with (n := String.length body) (ds := String d ds) (r := EmptyString);
      [|reflexivity|lia|exact Er|reflexivity].
    intros c Hc. unfold int_char. rewrite Hc. reflexivity. }
  unfold PyStr.take_sign in Es. destruct t as [|c t]; [injection Es as <- <-; reflexivity|].
  destruct (Ascii.eqb c "-") eqn:E1.
  { injection Es as <- <-. cbn [all_chars]. rewrite Hb.
    unfold int_char. rewrite E1. rewrite !orb_true_r. reflexivity. }
  destruct (Ascii.eqb c "+") eqn:E2.
  { injection Es as <- <-. cbn [all_chars]. rewrite Hb.
    unfold int_char. rewrite E2. rewrite !orb_true_r. reflexivity. }
  injection Es as <- <-. exact Hb.
Qed.

Lemma all_chars_of_list P l :
  all_chars P (string_of_list_ascii l) = forallb P l.
Proof.
  induction l as [|c l IH]; [reflexivity|].
  cbn [string_of_list_ascii all_chars forallb]. rewrite IH. reflexivity.
Qed.

(** Every character of a text [int()] accepts reads as a character of a
    literal. *)
Lemma int_of_str_chars s z ch :
  PyStr.int_of_str s = Some z -> In ch (PyStr.chars s) ->
  int_char (PyStr.ascii_of_char ch) = true.
Proof.
  unfold PyStr.int_of_str, PyStr.to_ascii. intros H Hin.
  apply int_of_ascii_chars in H. rewrite all_chars_of_list, forallb_forall in H.
  apply H. apply in_map. exact Hin.
Qed.

(** A text that contains a character [int()] cannot read is rejected. *)
Lemma int_of_str_contains needle s ch :
  PyStr.opens_with_continuation needle = false -> needle <> EmptyString ->
  (forall post, exists more, PyStr.chars (needle ++ post) = ch :: more) ->
  int_char (PyStr.ascii_of_char ch) = false ->
  PyStr.contains needle s = true ->
  PyStr.int_of_str s = None.
Proof.
  intros Hopen Hne Hch Hbad Hc.
  destruct (PyStr.int_of_str s) as [z|] eqn:E; [|reflexivity].
  exfalso. destruct (contains_split _ _ Hc) as (pre & post & ->).
  destruct (Hch post) as [more Hmore].
  assert (Hin : In ch (PyStr.chars (pre ++ needle ++ post))).
  { rewrite chars_app.
    - apply in_or_app. right. rewrite Hmore. left. reflexivity.
    - destruct needle as [|c n]; [contradiction|].
      rewrite append_cons. exact Hopen. }
  rewrite (int_of_str_chars _ _ _ E Hin) in Hbad. discriminate.
Qed.

Ltac marker_rejected needle ch H :=
  apply (int_of_str_contains needle _ ch);
  [reflexivity|discriminate|
   intros post; rewrite !append_cons, append_empty, chars_cons;
   cbn [continuation_run PyStr.is_continuation]; eexists; reflexivity
  |reflexivity|exact H].

Lemma era_offset_int_fails s off :
  era_offset s = Some off -> PyStr.int_of_str s = None.
Proof.
  unfold era_offset, has_reiwa, has_heisei, has_showa. intros H.
  destruct (PyStr.contains "令和" s) eqn:E1; [marker_rejected "令和" "令" E1|].
  destruct (PyStr.contains "Reiwa" s) eqn:E2; [marker_rejected "Reiwa" "R" E2|].
  destruct (PyStr.contains "平成" s) eqn:E3; [marker_rejected "平成" "平" E3|].
  destruct (PyStr.contains "Heisei" s) eqn:E4; [marker_rejected "Heisei" "H" E4|].
  destruct (PyStr.contains "昭和" s) eqn:E5; [marker_rejected "昭和" "昭" E5|].
  destruct (PyStr.contains "Showa" s) eqn:E6; [marker_rejected "Showa" "S" E6|].
  discriminate.
Qed.

(** *** The numeral of a text *)

Lemma length_string_of_list l :
  String.length (string_of_list_ascii l) = length l.
Proof. induction l as [|c l IH]; [reflexivity|]. cbn. rewrite IH. reflexivity. Qed.

Lemma digit_chars_spec s ch :
  In ch (digit_chars s) -> PyStr.isdigit ch = true /\ is_char ch = true.
Proof.
  unfold digit_chars. intros H. apply filter_In in H as [Hin Hd].
  split; [exact Hd|exact (isdigit_is_char _ _ Hin Hd)].
Qed.

(** What [int()] reads of the digits of a text. *)
Lemma to_ascii_digits s :
  PyStr.to_ascii (PyStr.filter_digits s) = digits_reading (digit_chars s).
Proof.
  unfold PyStr.to_ascii, PyStr.filter_digits, digits_reading.
  fold (digit_chars s). rewrite chars_cat.
  - f_equal. apply map_ext_in. intros ch Hin.
    apply ascii_of_digit. apply (digit_chars_spec _ _ Hin).
  - apply forallb_forall. intros ch Hin. apply (digit_chars_spec _ _ Hin).
Qed.

Lemma decimal_value_reading ds :
  forall acc,
    match decimal_value acc ds with
    | Some n =>
        all_chars PyStr.ascii_digit (digits_reading ds) = true /\
        PyStr.digits_value acc (digits_reading ds) = n
    | None => all_chars int_char (digits_reading ds) = false
    end.
Proof.
  unfold digits_reading.
  induction ds as [|d ds IH]; intros acc; [cbn; auto|].
  cbn [decimal_value map string_of_list_ascii].
  destruct (PyStr.decimal (PyStr.ord d)) as [v|] eqn:E.
  - destruct (digit_reading_decimal _ _ E) as [Hd Hv].
    specialize (IH (10 * acc + v)).
    destruct (decimal_value (10 * acc + v) ds) as [n|].
    + destruct IH as [IH1 IH2]. cbn [all_chars PyStr.digits_value].
      rewrite Hd, Hv, IH1. auto.
    + cbn [all_chars]. rewrite IH. apply andb_false_r.
  - cbn [all_chars]. unfold digit_reading at 1. rewrite E. reflexivity.
Qed.

Lemma decimal_value_nonneg ds :
  forall acc n, 0 <= acc -> decimal_value acc ds = Some n -> 0 <= n.
Proof.
  induction ds as [|d ds IH]; intros acc n Hacc H.
  - injection H as <-. exact Hacc.
  - cbn [decimal_value] in H.
    destruct (PyStr.decimal (PyStr.ord d)) as [v|] eqn:E; [|discriminate].
    destruct (decimal_spec _ _ E) as [Hv _].
    apply (IH (10 * acc + v)); [lia|exact H].
Qed.

Lemma numeral_nonneg s n : numeral s = Some n -> 0 <= n.
Proof.
  unfold numeral. destruct (digit_chars s) as [|d ds]; [discriminate|].
  destruct (PyStr.MAX_STR_DIGITS <? _); [discriminate|].
  apply decimal_value_nonneg. lia.
Qed.

(** [int()] of the digits of a text is the numeral of the text. *)
Lemma int_of_filter_digits s :
  PyStr.int_of_str (PyStr.filter_digits s) = numeral s.
Proof.
  unfold PyStr.int_of_str. rewrite to_ascii_digits. unfold numeral.
  destruct (digit_chars s) as [|d ds]; [reflexivity|].
  pose proof (decimal_value_reading (d :: ds) 0) as H.
  destruct (decimal_value 0 (d :: ds)) as [n|].
  - destruct H as [Hd Hv].
    assert (Hlen : String.length (digits_reading (d :: ds)) = length (d :: ds))
      by (unfold digits_reading; rewrite length_string_of_list; apply length_map).
    destruct (digits_reading (d :: ds)) as [|c rest] eqn:E; [discriminate Hlen|].
    rewrite (int_of_ascii_digits _ _ Hd), Hlen, Hv. reflexivity.
  - destruct (PyStr.int_of_ascii (digits_reading (d :: ds))) as [z|] eqn:E.
    + apply int_of_ascii_chars in E. congruence.
    + destruct (PyStr.MAX_STR_DIGITS <? _); reflexivity.
Qed.

Lemma era_year_numeral off s : era_year off s = add_offset off (numeral s).
Proof. unfold era_year. rewrite int_of_filter_digits. reflexivity. Qed.

Lemma era_branches_offset s :
  era_branches s =
  match era_offset s with
  | Some off => add_offset off (numeral s)
  | None => None
  end.
Proof.
  unfold era_branches, era_offset.
  destruct (has_reiwa s); [apply era_year_numeral|].
  destruct (has_heisei s); [apply era_year_numeral|].
  destruct (has_showa s); [apply era_year_numeral|reflexivity].
Qed.

(** ** Calendar-era year resolution *)

Lemma parse_building_year_str s :
  parse_building_year (PStr s) =
  Ok match PyStr.int_of_str s with
     | Some y => if in_year_range y then Some y else era_branches s
     | None => era_branches s
     end.
Proof.
  unfold parse_building_year. cbn [truthy py_int py_str].
  destruct (String.eqb_spec s "") as [->|Hne]; [reflexivity|].
  cbn [negb]. unfold in_year_range.
  destruct (PyStr.int_of_str s) as [y|]; cbn [res_bind catch_value_type].
  - destruct ((1900 <=? y) && (y <=? 2100)); reflexivity.
  - reflexivity.
Qed.

(** A text of four decimal digits is read by [int()] as their value. *)
Lemma four_digits_value s y :
  four_digit_year s = Some y -> plain_year s = Some y.
Proof.
  unfold four_digit_year, plain_year, PyStr.int_of_str, PyStr.to_ascii.
  destruct (PyStr.chars s) as [|a [|b [|c [|d [|e l]]]]]; try discriminate.
  set (ds := [a; b; c; d]).
  destruct (decimal_value 0 ds) as [n|] eqn:Ev; [|discriminate].
  destruct (in_year_range n) eqn:Er; [|discriminate].
  intros [= <-].
  assert (Hmap : string_of_list_ascii (map PyStr.ascii_of_char ds) = digits_reading ds).
  { unfold digits_reading. f_equal. apply map_ext_in. intros ch Hin.
    apply ascii_of_digit. unfold PyStr.isdigit.
    assert (Hdec : forall l acc, decimal_value acc l <> None ->
                                 forall x, In x l -> PyStr.decimal (PyStr.ord x) <> None).
    { induction l as [|x l IH]; intros acc Hl y [].
      - subst y. cbn [decimal_value] in Hl.
        destruct (PyStr.decimal (PyStr.ord x)); congruence.
      - cbn [decimal_value] in Hl.
        destruct (PyStr.decimal (PyStr.ord x)); [eauto|congruence]. }
    specialize (Hdec ds 0 ltac:(congruence) ch Hin).
    destruct (PyStr.decimal (PyStr.ord ch)); [reflexivity|congruence]. }
  rewrite Hmap.
  pose proof (decimal_value_reading ds 0) as H. rewrite Ev in H. destruct H as [Hd Hv].
  unfold ds, digits_reading in Hd, Hv |- *. cbn [map string_of_list_ascii] in Hd, Hv |- *.
  rewrite (int_of_ascii_digits _ _ Hd), Hv.
  cbn [String.length]. change (PyStr.MAX_STR_DIGITS <? Z.of_nat 4) with false.
  cbn iota. rewrite Er. reflexivity.
Qed.

Lemma plain_year_resolved s y :
  plain_year s = Some y -> parse_building_year (PStr s) = Ok (Some y).
Proof.
  intros H. rewrite parse_building_year_str. unfold plain_year in H.
  destruct (PyStr.int_of_str s) as [z|]; [|discriminate].
  destruct (in_year_range z); [congruence|discriminate].
Qed.

Lemma other_year_resolved s :
  plain_year s = None -> parse_building_year (PStr s) = Ok (era_branches s).
Proof.
  intros H. rewrite parse_building_year_str. unfold plain_year in H.
  destruct (PyStr.int_of_str s) as [z|]; [|reflexivity].
  destruct (in_year_range z); [discriminate|reflexivity].
Qed.

Lemma era_year_resolved s off :
  era_offset s = Some off ->
  parse_building_year (PStr s) = Ok (add_offset off (numeral s)).
Proof.
  intros He. rewrite parse_building_year_str, (era_offset_int_fails _ _ He).
  rewrite era_branches_offset, He. reflexivity.
Qed.

(** The document's resolution fails on a year that [int()] reads in a
    text that is no plain four-digit year: leading zeros, a sign, blanks
    around the digits or underscores between them. *)
Lemma resolution_differs_from_the_document :
  parse_building_year (PStr "01987") = Ok (Some 1987) /\
  documented_year "01987" = None /\
  parse_building_year (PStr " 1987 ") = Ok (Some 1987) /\
  documented_year " 1987 " = None /\
  ~ resolution_as_documented.
Proof.
  assert (Hcode : parse_building_year (PStr "01987") = Ok (Some 1987))
    by (vm_compute; reflexivity).
  assert (Hdoc : documented_year "01987" = None) by (vm_compute; reflexivity).
  split; [exact Hcode|]. split; [exact Hdoc|].
  split; [vm_compute; reflexivity|]. split; [vm_compute; reflexivity|].
  intros H. specialize (H "01987"). rewrite Hcode, Hdoc in H. discriminate.
Qed.

(** C7.  Calendar-era year resolution, as amended.  [parse_building_year]
    returns the year that [int()] reads in the whole text when it lies
    in [1900, 2100]: a plain four-digit Gregorian year is returned
    unchanged, and so is a year written with leading zeros, a sign,
    blanks around it or underscores between its digits.  Otherwise,
    when the text contains one of the three era markers (Reiwa, Heisei,
    Showa, tried in this order) it returns the fixed offset of the era
    (2018, 1988, 1925) plus the numeral embedded in the text, and null
    when the text embeds no numeral; when no marker matches it returns
    null.  In particular Reiwa 5 gives 2023 and the plain text 1987
    gives 1987. *)
Theorem parse_building_year_resolution :
  (forall s y, four_digit_year s = Some y -> parse_building_year (PStr s) = Ok (Some y)) /\
  (forall s y, plain_year s = Some y -> parse_building_year (PStr s) = Ok (Some y)) /\
  (forall s off n,
      era_offset s = Some off -> numeral s = Some n ->
      parse_building_year (PStr s) = Ok (Some (off + n))) /\
  (forall s off,
      era_offset s = Some off -> numeral s = None ->
      parse_building_year (PStr s) = Ok None) /\
  (forall s,
      plain_year s = None -> era_offset s = None ->
      parse_building_year (PStr s) = Ok None) /\
  (forall s, has_reiwa s = true -> era_offset s = Some 2018) /\
  (forall s, has_reiwa s = false -> has_heisei s = true -> era_offset s = Some 1988) /\
  (forall s, has_reiwa s = false -> has_heisei s = false -> has_showa s = true ->
             era_offset s = Some 1925) /\
  parse_building_year (PStr "Reiwa 5") = Ok (Some 2023) /\
  parse_building_year (PStr "令和5年") = Ok (Some 2023) /\
  parse_building_year (PStr "令和５年") = Ok (Some 2023) /\
  parse_building_year (PStr "1987") = Ok (Some 1987) /\
  parse_building_year (PStr "１９８７") = Ok (Some 1987) /\
  parse_building_year (PStr " 1987 ") = Ok (Some 1987) /\
  parse_building_year (PStr "+1_987") = Ok (Some 1987) /\
  parse_building_year (PStr "") = Ok None /\
  parse_building_year (PStr "unknown") = Ok None.
Proof.
  split; [|split; [|split; [|split; [|split; [|split; [|split; [|split]]]]]]].
  - intros s y H. apply plain_year_resolved, four_digits_value, H.
  - exact plain_year_resolved.
  - intros s off n He Hn. rewrite (era_year_resolved _ _ He), Hn. reflexivity.
  - intros s off He Hn. rewrite (era_year_resolved _ _ He), Hn. reflexivity.
  - intros s Hp He. rewrite (other_year_resolved _ Hp), era_branches_offset, He.
    reflexivity.
  - intros s H. unfold era_offset. rewrite H. reflexivity.
  - intros s H1 H2. unfold era_offset. rewrite H1, H2. reflexivity.
  - intros s H1 H2 H3. unfold era_offset. rewrite H1, H2, H3. reflexivity.
  - repeat split; vm_compute; reflexivity.
Qed.

Lemma parse_building_year_resolution_witness :
  parse_building_year (PStr "2005") = Ok (Some 2005) /\
  parse_building_year (PStr "02005") = Ok (Some 2005) /\
  parse_building_year (PStr "Heisei 12") = Ok (Some 2000) /\
  parse_building_year (PStr "Heisei 1²") = Ok None /\
  parse_building_year (PStr "12") = Ok None /\
  era_offset "Showa 62" = Some 1925.
Proof.
  destruct parse_building_year_resolution
    as (H4 & Hplain & Hera & Hnone & Hnull & Hr & Hh & Hs & _).
  split; [|split; [|split; [|split; [|split]]]].
  - apply H4. reflexivity.
  - apply Hplain. reflexivity.
  - apply (Hera "Heisei 12" 1988 12); reflexivity.
  - apply (Hnone "Heisei 1²" 1988); reflexivity.
  - apply Hnull; reflexivity.
  - apply Hs; reflexivity.
Defined.

(** C10.  For a text containing an era marker, the numeral added to the
    era offset is made of every digit character of the text, in order,
    wherever it stands: a Reiwa text with the digits 5 and 3 yields
    2018 + 53.  The digit characters are those of [str.isdigit]; the
    result is null when the text has none, when one of them has no
    decimal value (a superscript or circled digit) or when there are
    more of them than [int()] converts. *)
Theorem era_numeral_concatenates_all_digits (s : string) (off : Z) :
  era_offset s = Some off ->
  PyStr.filter_digits s = PyStr.cat (digit_chars s) /\
  parse_building_year (PStr s)
  = Ok match digit_chars s with
       | [] => None
       | ds =>
           if PyStr.MAX_STR_DIGITS <? Z.of_nat (length ds) then None
           else add_offset off (decimal_value 0 ds)
       end.
Proof.
  intros He. split; [reflexivity|].
  rewrite (era_year_resolved _ _ He). unfold numeral.
  destruct (digit_chars s); [reflexivity|].
  destruct (PyStr.MAX_STR_DIGITS <? _); reflexivity.
Qed.

Lemma era_numeral_concatenates_all_digits_witness :
  era_offset "令和5年3月" = Some 2018 /\
  digit_chars "令和5年3月" = ["5"; "3"] /\
  parse_building_year (PStr "令和5年3月") = Ok (Some (2018 + 53)) /\
  parse_building_year (PStr "令和５年３月") = Ok (Some (2018 + 53)) /\
  parse_building_year (PStr "Heisei 1²") = Ok None.
Proof.
  split; [reflexivity|split; [reflexivity|split; [|split]]].
  - exact (proj2 (era_numeral_concatenates_all_digits "令和5年3月" 2018 eq_refl)).
  - exact (proj2 (era_numeral_concatenates_all_digits "令和５年３月" 2018 eq_refl)).
  - exact (proj2 (era_numeral_concatenates_all_digits "Heisei 1²" 1988 eq_refl)).
Defined.

(** ** The record transformer *)

Ltac bind_inv H :=
  match type of H with
  | res_bind ?m _ = Ok _ =>
      let E := fresh "E" in
      destruct m eqn:E; [cbn [res_bind] in H | discriminate H]
  end.

(** What a successful run of the transformer went through. *)
Lemma transform_record_inv record pref year quarter c :
  transform_record record pref year quarter = Ok c ->
  exists tp up ar tf fr rw cr far,
    parse_numeric (get record "TradePrice") = Ok tp /\
    parse_numeric (get record "UnitPrice") = Ok up /\
    parse_numeric (get record "Area") = Ok ar /\
    parse_numeric (get record "TotalFloorArea") = Ok tf /\
    parse_numeric (get record "Frontage") = Ok fr /\
    parse_numeric (get record "Breadth") = Ok rw /\
    parse_numeric (get record "CoverageRatio") = Ok cr /\
    parse_numeric (get record "FloorAreaRatio") = Ok far /\
    parse_building_year (get record "BuildingYear") = Ok (building_year c) /\
    int_if_truthy tp = Ok (trade_price c) /\
    int_if_truthy up = Ok (unit_price c) /\
    int_if_truthy cr = Ok (coverage_ratio c) /\
    int_if_truthy far = Ok (floor_area_ratio c) /\
    area_m2 c = ar /\ total_floor_area_m2 c = tf /\
    frontage_m c = fr /\ road_width_m c = rw /\
    source_hash c = generate_record_hash record /\
    property_type_id c = property_type_lookup (get_or record "Type" (PStr "")).
Proof.
  unfold transform_record. intros H.
  repeat bind_inv H.
  injection H as <-.
  cbn [building_year trade_price unit_price coverage_ratio floor_area_ratio
       area_m2 total_floor_area_m2 frontage_m road_width_m source_hash
       property_type_id].
  do 8 eexists. repeat split; eassumption.
Qed.

Lemma parse_numeric_textual v :
  textual v = true -> parse_numeric v = Ok (numeric_text v).
Proof.
  destruct v as [| |z|s]; try discriminate; intros _; [reflexivity|].
  destruct s as [|c rest]; [reflexivity|].
  cbn [parse_numeric py_str numeric_text].
  set (cleaned := PyStr.strip _).
  destruct (String.eqb_spec cleaned "") as [->|Hne]; [reflexivity|].
  cbn [negb]. destruct (PyFloat.of_str cleaned); reflexivity.
Qed.


Lemma get_or_truthy (record : RawRecord) key dflt :
  truthy (get record key) = true -> get_or record key dflt = get record key.
Proof.
  unfold get, get_or. destruct (record !! key); [reflexivity|discriminate].
Qed.



Lemma int_if_truthy_zero sign : int_if_truthy (Some (S754_zero sign)) = Ok None.
Proof. reflexivity. Qed.

(** The examples of the design document for the numeric coercion. *)
Example parse_numeric_examples :
  parse_numeric (PStr "1,234,567") = parse_numeric (PInt 1234567) /\
  (do f <- parse_numeric (PStr "1,234,567");
   match f with Some x => PyFloat.to_int x | None => Raise ValueError end) = Ok 1234567 /\
  parse_numeric (PStr "") = Ok None /\
  parse_numeric PNone = Ok None /\
  parse_numeric (PStr " 12.5 ") = parse_numeric (PStr "12.5") /\
  parse_numeric (PStr "n/a") = Ok None.
Proof. vm_compute. repeat split; reflexivity. Qed.

(** C9.  When [TradePrice], [UnitPrice], [CoverageRatio] or
    [FloorAreaRatio] parses to the number zero, the canonical record holds
    null for that field, not 0: the integer conversion is guarded by the
    truthiness of the parsed value, so a zero is stored exactly as an
    absent value is. *)
Theorem zero_is_stored_as_null record pref year quarter c :
  transform_record record pref year quarter = Ok c ->
  (is_zero (parse_numeric (get record "TradePrice")) -> trade_price c = None) /\
  (is_zero (parse_numeric (get record "UnitPrice")) -> unit_price c = None) /\
  (is_zero (parse_numeric (get record "CoverageRatio")) -> coverage_ratio c = None) /\
  (is_zero (parse_numeric (get record "FloorAreaRatio")) -> floor_area_ratio c = None) /\
  (parse_numeric (get record "TradePrice") = Ok None -> trade_price c = None) /\
  (parse_numeric (get record "UnitPrice") = Ok None -> unit_price c = None) /\
  (parse_numeric (get record "CoverageRatio") = Ok None -> coverage_ratio c = None) /\
  (parse_numeric (get record "FloorAreaRatio") = Ok None -> floor_area_ratio c = None).
Proof.
  intros H. apply transform_record_inv in H.
  destruct H as (tp & up & ar & tf & fr & rw & cr & far & Htp & Hup & _ & _ & _ & _
                 & Hcr & Hfar & _ & Itp & Iup & Icr & Ifar & _).
  repeat split.
  - intros [sg Hz]. rewrite Htp in Hz. injection Hz as ->.
    rewrite int_if_truthy_zero in Itp. congruence.
  - intros [sg Hz]. rewrite Hup in Hz. injection Hz as ->.
    rewrite int_if_truthy_zero in Iup. congruence.
  - intros [sg Hz]. rewrite Hcr in Hz. injection Hz as ->.
    rewrite int_if_truthy_zero in Icr. congruence.
  - intros [sg Hz]. rewrite Hfar in Hz. injection Hz as ->.
    rewrite int_if_truthy_zero in Ifar. congruence.
  - intros Hz. rewrite Htp in Hz. injection Hz as ->. cbn in Itp. congruence.
  - intros Hz. rewrite Hup in Hz. injection Hz as ->. cbn in Iup. congruence.
  - intros Hz. rewrite Hcr in Hz. injection Hz as ->. cbn in Icr. congruence.
  - intros Hz. rewrite Hfar in Hz. injection Hz as ->. cbn in Ifar. congruence.
Qed.

Lemma zero_is_stored_as_null_witness :
  exists c,
    transform_record zero_priced "13" 2023 (Some 1) = Ok c /\
    trade_price c = None /\ unit_price c = None /\
    coverage_ratio c = None /\ floor_area_ratio c = None.
Proof.
  destruct (transform_record zero_priced "13" 2023 (Some 1)) as [c|e] eqn:E.
  - exists c. split; [reflexivity|].
    destruct (zero_is_stored_as_null _ _ _ _ _ E) as (H1 & H2 & H3 & H4 & _).
    split; [apply H1; exists false; reflexivity|].
    split; [apply H2; exists false; reflexivity|].
    split; [apply H3; exists false; reflexivity|].
    apply H4; exists true; reflexivity.
  - vm_compute in E. discriminate E.
Defined.





(** ** The content hash *)

Lemma hex_digits_ok : forallb hex_digit_ok (map Z.of_nat (seq 0 16)) = true.
Proof. vm_compute. reflexivity. Qed.

Lemma hex_char_cases x :
  is_hex (Sha256.hex_char x) = true /\
  PyStr.is_continuation (Sha256.hex_char x) = false.
Proof.
  unfold Sha256.hex_char.
  change 15 with (Z.ones 4). rewrite Z.land_ones by lia.
  pose proof (Z.mod_pos_bound x (2 ^ 4) ltac:(lia)) as Hb.
  set (n := x mod 2 ^ 4) in *. clearbody n.
  assert (Hin : In n (map Z.of_nat (seq 0 16))).
  { apply in_map_iff. exists (Z.to_nat n). split; [lia|]. apply in_seq. lia. }
  pose proof (proj1 (forallb_forall _ _) hex_digits_ok n Hin) as Hok.
  unfold hex_digit_ok in Hok. cbv zeta in Hok.
  apply andb_true_iff in Hok as [H1 H2]. apply negb_true_iff in H2.
  split; assumption.
Qed.

Lemma hex_char_not_continuation x :
  PyStr.is_continuation (Sha256.hex_char x) = false.
Proof. apply hex_char_cases. Qed.

Lemma hex_char_is_hex x : is_hex (Sha256.hex_char x) = true.
Proof. apply hex_char_cases. Qed.

Lemma hex8_all_chars P x tail :
  (forall y, P (Sha256.hex_char y) = true) ->
  all_chars P (Sha256.hex8 x tail) = all_chars P tail.
Proof.
  intros H. unfold Sha256.hex8. cbn [all_chars]. rewrite !H. reflexivity.
Qed.

Lemma hexdigest_all_chars P text :
  (forall y, P (Sha256.hex_char y) = true) ->
  all_chars P (Sha256.hexdigest text) = true.
Proof.
  intros H. unfold Sha256.hexdigest. rewrite !hex8_all_chars by exact H. reflexivity.
Qed.

Lemma hexdigest_length text : String.length (Sha256.hexdigest text) = 64%nat.
Proof. reflexivity. Qed.

Lemma slice_to_all_chars P n s :
  all_chars P s = true -> all_chars P (PyStr.slice_to n s) = true.
Proof.
  revert n. induction s as [|c rest IH]; intros n H; [reflexivity|].
  cbn [all_chars] in H. apply andb_true_iff in H as [Hc Hrest].
  cbn [PyStr.slice_to]. destruct (PyStr.is_continuation c).
  - cbn [all_chars]. rewrite Hc, IH; [reflexivity|exact Hrest].
  - destruct n as [|n]; [reflexivity|].
    cbn [all_chars]. rewrite Hc, IH; [reflexivity|exact Hrest].
Qed.

Lemma slice_to_length n s :
  all_chars (fun c => negb (PyStr.is_continuation c)) s = true ->
  (n <= String.length s)%nat ->
  String.length (PyStr.slice_to n s) = n.
Proof.
  revert n. induction s as [|c rest IH]; intros n H Hn.
  - cbn in Hn. destruct n; [reflexivity|inversion Hn].
  - cbn [all_chars] in H. apply andb_true_iff in H as [Hc Hrest].
    apply negb_true_iff in Hc. cbn [PyStr.slice_to]. rewrite Hc.
    destruct n as [|n]; [reflexivity|].
    cbn [String.length] in *. rewrite IH; [reflexivity|exact Hrest|lia].
Qed.

Lemma hexdigest_prefix_shape text :
  String.length (PyStr.slice_to 32 (Sha256.hexdigest text)) = 32%nat /\
  all_chars is_hex (PyStr.slice_to 32 (Sha256.hexdigest text)) = true.
Proof.
  split.
  - apply slice_to_length.
    + apply hexdigest_all_chars. intros y.
      rewrite hex_char_not_continuation. reflexivity.
    + rewrite hexdigest_length. repeat constructor.
  - apply slice_to_all_chars, hexdigest_all_chars, hex_char_is_hex.
Qed.

Lemma key_string_agree (r1 r2 : RawRecord) :
  (forall k, In k key_field_names -> get r1 k = get r2 k) ->
  key_string r1 = key_string r2.
Proof.
  intros H. unfold key_string, key_fields. f_equal. f_equal.
  apply map_ext_in. exact H.
Qed.

Lemma bar_split a b x y :
  no_bar a = true -> no_bar b = true ->
  (a ++ "|" ++ x)%string = (b ++ "|" ++ y)%string -> a = b /\ x = y.
Proof.
  revert b. induction a as [|c a IH]; intros b Ha Hb H.
  - destruct b as [|d b]; rewrite ?append_cons, ?append_empty in H.
    + injection H as ->. split; reflexivity.
    + injection H as <- _. cbn in Hb. discriminate Hb.
  - destruct b as [|d b]; rewrite ?append_cons, ?append_empty in H.
    + injection H as -> _. cbn in Ha. discriminate Ha.
    + injection H as -> H.
      cbn in Ha, Hb. apply andb_true_iff in Ha as [_ Ha].
      apply andb_true_iff in Hb as [_ Hb].
      destruct (IH b Ha Hb H) as [-> ->]. split; reflexivity.
Qed.

Lemma join_bar_injective (l1 l2 : list string) :
  length l1 = length l2 ->
  Forall (fun s => no_bar s = true) l1 -> Forall (fun s => no_bar s = true) l2 ->
  join "|" l1 = join "|" l2 -> l1 = l2.
Proof.
  revert l2. induction l1 as [|x l1 IH]; intros l2 Hlen H1 H2 Hj.
  - destruct l2; [reflexivity|discriminate Hlen].
  - destruct l2 as [|y l2]; [discriminate Hlen|].
    injection Hlen as Hlen.
    apply Forall_cons in H1 as [Hx H1]. apply Forall_cons in H2 as [Hy H2].
    destruct l1 as [|x' l1]; destruct l2 as [|y' l2]; try discriminate Hlen.
    + cbn in Hj. subst. reflexivity.
    + cbn [join] in Hj.
      apply bar_split in Hj as [-> Hj]; [|exact Hx|exact Hy].
      f_equal. apply IH; [exact Hlen|exact H1|exact H2|exact Hj].
Qed.

Lemma delimiter_free_str v : delimiter_free v = true -> no_bar (py_str v) = true.
Proof. destruct v; try discriminate. intros H. exact H. Qed.

Lemma py_str_injective_on_text (l1 l2 : list pyval) :
  Forall (fun v => delimiter_free v = true) l1 ->
  Forall (fun v => delimiter_free v = true) l2 ->
  map py_str l1 = map py_str l2 -> l1 = l2.
Proof.
  revert l2. induction l1 as [|v l1 IH]; intros l2 H1 H2 H.
  - destruct l2; [reflexivity|discriminate H].
  - destruct l2 as [|u l2]; [discriminate H|].
    apply Forall_cons in H1 as [Hv H1]. apply Forall_cons in H2 as [Hu H2].
    injection H as Hs H.
    destruct v; try discriminate Hv. destruct u; try discriminate Hu.
    cbn in Hs. subst. f_equal. apply IH; assumption.
Qed.

Lemma key_string_injective_on_text (r1 r2 : RawRecord) :
  Forall (fun v => delimiter_free v = true) (key_fields r1) ->
  Forall (fun v => delimiter_free v = true) (key_fields r2) ->
  key_string r1 = key_string r2 -> key_fields r1 = key_fields r2.
Proof.
  intros H1 H2 H. apply py_str_injective_on_text; [exact H1|exact H2|].
  apply join_bar_injective; [| | |exact H].
  - rewrite !length_map. reflexivity.
  - apply Forall_map. eapply Forall_impl; [exact H1|]. apply delimiter_free_str.
  - apply Forall_map. eapply Forall_impl; [exact H2|]. apply delimiter_free_str.
Qed.

(** C5 (amended).  The content hash depends only on the seven key
    fields: two raw records that agree on them have the same hash,
    whatever their other fields, and the hash is a digest of 32
    hexadecimal characters, the head of the SHA-256 digest of the key
    string.  Two records whose key fields are texts without the
    delimiter, and that differ in a key field, have different key
    strings. *)
Theorem hash_is_stable_on_key_fields :
  (forall r1 r2 : RawRecord,
      (forall k, In k key_field_names -> get r1 k = get r2 k) ->
      generate_record_hash r1 = generate_record_hash r2) /\
  (forall r : RawRecord,
      String.length (generate_record_hash r) = 32%nat /\
      all_chars is_hex (generate_record_hash r) = true /\
      generate_record_hash r = PyStr.slice_to 32 (Sha256.hexdigest (key_string r))) /\
  (forall r1 r2 : RawRecord,
      Forall (fun v => delimiter_free v = true) (key_fields r1) ->
      Forall (fun v => delimiter_free v = true) (key_fields r2) ->
      key_fields r1 <> key_fields r2 ->
      key_string r1 <> key_string r2).
Proof.
  split; [|split].
  - intros r1 r2 H. unfold generate_record_hash.
    rewrite (key_string_agree r1 r2 H). reflexivity.
  - intros r. unfold generate_record_hash.
    destruct (hexdigest_prefix_shape (key_string r)) as [Hl Hh].
    repeat split; assumption.
  - intros r1 r2 H1 H2 Hne Hs. apply Hne.
    apply key_string_injective_on_text; assumption.
Qed.

Lemma hash_is_stable_on_key_fields_witness :
  generate_record_hash (remarked "corner lot")
  = generate_record_hash (remarked "irregular shape") /\
  key_string (priced "52000000") <> key_string (priced "52,000,000").
Proof.
  destruct hash_is_stable_on_key_fields as (Hagree & _ & Hdiffer).
  split.
  - apply Hagree. intros k Hk. cbn in Hk.
    repeat (destruct Hk as [<-|Hk]; [reflexivity|]). contradiction.
  - apply Hdiffer.
    + vm_compute. repeat (constructor; [reflexivity|]). constructor.
    + vm_compute. repeat (constructor; [reflexivity|]). constructor.
    + intros H. vm_compute in H. discriminate H.
Defined.

(** Two raw records that differ in a key field and have the same hash:
    the district is absent in one and is the text [None] in the other,
    and both give the same key string.  A delimiter inside a field has
    the same effect. *)
Lemma key_fields_do_not_separate_hashes :
  key_fields district_named_none <> key_fields district_absent /\
  key_string district_named_none = key_string district_absent /\
  generate_record_hash district_named_none = generate_record_hash district_absent /\
  key_string {[ "DistrictName" := PStr "A|B"; "TradePrice" := PStr "C" ]}
  = key_string {[ "DistrictName" := PStr "A"; "TradePrice" := PStr "B|C" ]} /\
  ~ key_fields_separate_hashes.
Proof.
  assert (Hk : key_fields district_named_none <> key_fields district_absent).
  { intros H. vm_compute in H. discriminate H. }
  assert (Hs : key_string district_named_none = key_string district_absent).
  { vm_compute. reflexivity. }
  assert (Hh : generate_record_hash district_named_none
               = generate_record_hash district_absent).
  { unfold generate_record_hash. rewrite Hs. reflexivity. }
  split; [exact Hk|]. split; [exact Hs|]. split; [exact Hh|].
  split; [vm_compute; reflexivity|].
  intros H. exact (H _ _ Hk Hh).
Qed.

(** ** The idempotent loader *)

Lemma hashes_nil : hashes [] = ∅.
Proof. reflexivity. Qed.

Lemma hashes_cons r rows : hashes (r :: rows) = {[ source_hash r ]} ∪ hashes rows.
Proof. reflexivity. Qed.

Lemma hashes_app rows1 rows2 : hashes (rows1 ++ rows2)%list = hashes rows1 ∪ hashes rows2.
Proof.
  unfold hashes. rewrite fmap_app. apply set_eq. intros x.
  rewrite elem_of_union, !elem_of_list_to_set, elem_of_app. reflexivity.
Qed.

#[local] Typeclasses Opaque hashes.

Lemma has_hash_spec h rows : has_hash h rows = true <-> h ∈ hashes rows.
Proof.
  unfold has_hash. induction rows as [|r rows IH]; cbn [existsb].
  - rewrite hashes_nil. split; [discriminate|set_solver].
  - rewrite hashes_cons, orb_true_iff, IH, String.eqb_eq. set_solver.
Qed.

Lemma has_hash_false h rows : has_hash h rows = false <-> h ∉ hashes rows.
Proof.
  rewrite <- has_hash_spec. destruct (has_hash h rows); split; congruence.
Qed.

(** One statement appends the rows whose hash is new, in order, and
    counts them. *)
Lemma insert_do_nothing_spec values : forall rows count,
  exists new,
    insert_do_nothing rows count values = ((rows ++ new)%list, count + Z.of_nat (length new)) /\
    hashes (rows ++ new)%list = hashes rows ∪ hashes values /\
    length new = size (hashes values ∖ hashes rows) /\
    Forall (fun r => source_hash r ∉ hashes rows) new.
Proof.
  induction values as [|v values IH]; intros rows count.
  - exists []. cbn [insert_do_nothing length]. rewrite app_nil_r, Z.add_0_r.
    split; [reflexivity|]. rewrite hashes_nil. split; [set_solver|].
    split; [|constructor].
    replace (∅ ∖ hashes rows) with (∅ : gset string) by set_solver.
    rewrite size_empty. reflexivity.
  - cbn [insert_do_nothing]. destruct (has_hash (source_hash v) rows) eqn:E.
    + apply has_hash_spec in E.
      destruct (IH rows count) as (new & Hrun & Hh & Hl & Hf).
      exists new. split; [exact Hrun|]. rewrite hashes_cons.
      clear IH Hrun.
      split; [rewrite Hh; set_solver|].
      split; [|exact Hf].
      rewrite Hl. f_equal. set_solver.
    + apply has_hash_false in E.
      destruct (IH (rows ++ [v])%list (count + 1)) as (new & Hrun & Hh & Hl & Hf).
      exists (v :: new). rewrite Hrun. clear IH Hrun.
      rewrite <- app_assoc in Hh |- *. cbn [app] in Hh |- *.
      split; [f_equal; cbn [length]; lia|].
      assert (Hv : hashes (rows ++ [v])%list = hashes rows ∪ {[source_hash v]})
        by (rewrite hashes_app, hashes_cons, hashes_nil; set_solver).
      rewrite Hv in Hh, Hl. rewrite hashes_cons.
      split; [rewrite Hh; set_solver|].
      split.
      2:{ constructor; [exact E|].
          eapply Forall_impl; [exact Hf|]. cbn beta. intros r Hr.
          rewrite Hv in Hr. set_solver. }
      cbn [length]. rewrite Hl.
      replace (({[source_hash v]} ∪ hashes values) ∖ hashes rows)
        with ({[source_hash v]} ∪
              hashes values ∖ (hashes rows ∪ {[source_hash v]}))
        by (apply set_eq; intros x; destruct (decide (x = source_hash v)); set_solver).
      rewrite (size_union {[source_hash v]}
                 (hashes values ∖ (hashes rows ∪ {[source_hash v]})))
        by set_solver.
      rewrite size_singleton. reflexivity.
Qed.

(** A statement whose rows are all known changes nothing. *)
Lemma insert_do_nothing_known values rows count :
  hashes values ⊆ hashes rows ->
  insert_do_nothing rows count values = (rows, count).
Proof.
  intros H. destruct (insert_do_nothing_spec values rows count) as (new & Hrun & _ & Hl & _).
  replace (hashes values ∖ hashes rows) with (∅ : gset string) in Hl by set_solver.
  rewrite size_empty in Hl. destruct new; [|discriminate Hl].
  rewrite Hrun, app_nil_r, Z.add_0_r. reflexivity.
Qed.

Lemma paginate_concat {A : Type} (page_size : nat) : forall fuel (l : list A),
  (0 < page_size)%nat -> (length l <= fuel)%nat ->
  concat (paginate fuel page_size l) = l.
Proof.
  induction fuel as [|fuel IH]; intros l Hp Hl.
  - destruct l; [reflexivity|cbn in Hl; lia].
  - destruct l as [|x l]; [reflexivity|].
    cbn [paginate concat]. rewrite IH; [apply firstn_skipn|exact Hp|].
    rewrite length_skipn. cbn [length] in *. lia.
Qed.

Lemma paginate_single {A : Type} (page_size : nat) (x : A) (l : list A) :
  (length (x :: l) <= page_size)%nat ->
  paginate (length (x :: l)) page_size (x :: l) = [x :: l].
Proof.
  intros H. cbn [length paginate].
  rewrite firstn_all2 by exact H. rewrite skipn_all2 by exact H.
  destruct (length l); reflexivity.
Qed.

Lemma hashes_concat_cons page pages :
  hashes (concat (page :: pages)) = hashes page ∪ hashes (concat pages).
Proof. cbn [concat]. apply hashes_app. Qed.

(** The pages append, in order, rows whose hash is new. *)
Lemma execute_pages_spec pages : forall rows count,
  exists new,
    fst (fold_left (fun acc page => insert_do_nothing (fst acc) 0 page) pages (rows, count))
    = (rows ++ new)%list /\
    hashes (rows ++ new)%list = hashes rows ∪ hashes (concat pages) /\
    Forall (fun r => source_hash r ∉ hashes rows) new.
Proof.
  induction pages as [|page pages IH]; intros rows count.
  - exists []. cbn [fold_left fst concat]. rewrite app_nil_r, hashes_nil.
    split; [reflexivity|]. split; [set_solver|constructor].
  - cbn [fold_left fst].
    destruct (insert_do_nothing_spec page rows 0) as (new1 & Hrun & Hh1 & _ & Hf1).
    rewrite Hrun.
    destruct (IH (rows ++ new1)%list (0 + Z.of_nat (length new1))) as (new2 & Hfold & Hh2 & Hf2).
    exists (new1 ++ new2)%list. rewrite Hfold, app_assoc.
    split; [reflexivity|]. rewrite hashes_concat_cons.
    split; [rewrite Hh2, Hh1; set_solver|].
    apply Forall_app. split; [exact Hf1|].
    eapply Forall_impl; [exact Hf2|]. cbn beta. intros r Hr.
    rewrite Hh1 in Hr. set_solver.
Qed.

(** Pages whose rows are all known change nothing, and the row count
    left on the cursor is that of the last page: zero. *)
Lemma execute_pages_known pages : forall rows count,
  hashes (concat pages) ⊆ hashes rows ->
  fold_left (fun acc page => insert_do_nothing (fst acc) 0 page) pages (rows, count)
  = (rows, match pages with [] => count | _ :: _ => 0 end).
Proof.
  induction pages as [|page pages IH]; intros rows count H; [reflexivity|].
  rewrite hashes_concat_cons in H. cbn [fold_left fst].
  rewrite insert_do_nothing_known by set_solver.
  rewrite IH by set_solver. destruct pages; reflexivity.
Qed.

(** The row count left on the cursor is that of the last page alone:
    the distinct hashes of that page that neither the table nor an
    earlier page held. *)
Lemma execute_pages_last pages last rows count :
  snd (fold_left (fun acc page => insert_do_nothing (fst acc) 0 page)
                 (pages ++ [last]) (rows, count))
  = Z.of_nat (size (hashes last ∖ (hashes rows ∪ hashes (concat pages)))).
Proof.
  rewrite fold_left_app. cbn [fold_left].
  destruct (execute_pages_spec pages rows count) as (new & Hrun & Hh & _).
  rewrite Hrun.
  destruct (insert_do_nothing_spec last (rows ++ new)%list 0) as (new' & -> & _ & Hl & _).
  cbn [snd]. rewrite Hl, Hh. lia.
Qed.

Lemma ensure_municipality_exists_settled st code pref name :
  settled st code -> ensure_municipality_exists st code pref name = st.
Proof.
  unfold settled, ensure_municipality_exists. intros [H|[row H]].
  - rewrite H. reflexivity.
  - rewrite H. destruct (String.eqb code "" || negb (Nat.eqb (PyStr.len code) 5)); reflexivity.
Qed.

Lemma ensure_municipality_exists_mono st code pref name c :
  settled st c -> settled (ensure_municipality_exists st code pref name) c.
Proof.
  unfold settled, ensure_municipality_exists. intros [H|H]; [left; exact H|right].
  destruct (String.eqb code "" || negb (Nat.eqb (PyStr.len code) 5)); [exact H|].
  destruct (municipalities st !! code) eqn:E; [exact H|].
  cbn [municipalities]. destruct (decide (code = c)) as [->|Hne].
  - rewrite lookup_insert_eq. eauto.
  - rewrite lookup_insert_ne by exact Hne. exact H.
Qed.

Lemma ensure_municipality_exists_settles st code pref name :
  settled (ensure_municipality_exists st code pref name) code.
Proof.
  unfold settled, ensure_municipality_exists.
  destruct (String.eqb code "" || negb (Nat.eqb (PyStr.len code) 5)) eqn:G;
    [left; reflexivity|right].
  destruct (municipalities st !! code) eqn:E; [rewrite E; eauto|].
  cbn [municipalities]. rewrite lookup_insert_eq. eauto.
Qed.

Lemma ensure_municipality_exists_rows st code pref name :
  transactions (ensure_municipality_exists st code pref name) = transactions st.
Proof.
  unfold ensure_municipality_exists.
  destruct (String.eqb code "" || negb (Nat.eqb (PyStr.len code) 5)); [reflexivity|].
  destruct (municipalities st !! code); reflexivity.
Qed.

Lemma ensure_municipalities_rows records pref : forall st seen,
  transactions (ensure_municipalities st seen records pref) = transactions st.
Proof.
  induction records as [|r records IH]; intros st seen; [reflexivity|].
  cbn [ensure_municipalities]. destruct (municipality_code r) as [c|]; [|apply IH].
  destruct (negb (String.eqb c "") && negb (bool_decide (c ∈ seen))); [|apply IH].
  rewrite IH. apply ensure_municipality_exists_rows.
Qed.

Lemma ensure_municipalities_mono records pref c : forall st seen,
  settled st c -> settled (ensure_municipalities st seen records pref) c.
Proof.
  induction records as [|r records IH]; intros st seen H; [exact H|].
  cbn [ensure_municipalities]. destruct (municipality_code r) as [c'|]; [|apply IH, H].
  destruct (negb (String.eqb c' "") && negb (bool_decide (c' ∈ seen))); [|apply IH, H].
  apply IH, ensure_municipality_exists_mono, H.
Qed.

(** After the first loop every municipality code of the batch is settled. *)
Lemma ensure_municipalities_settles records pref : forall st seen,
  (forall c, c ∈ seen -> settled st c) ->
  forall r c, In r records -> municipality_code r = Some c ->
    settled (ensure_municipalities st seen records pref) c.
Proof.
  induction records as [|r0 records IH]; intros st seen Hseen r c Hin Hc;
    [destruct Hin|].
  cbn [ensure_municipalities].
  destruct (municipality_code r0) as [c0|] eqn:E0.
  2:{ destruct Hin as [->|Hin]; [congruence|]. eapply IH; eassumption. }
  destruct (negb (String.eqb c0 "") && negb (bool_decide (c0 ∈ seen))) eqn:G.
  - destruct Hin as [->|Hin].
    + assert (c0 = c) as -> by congruence.
      apply ensure_municipalities_mono, ensure_municipality_exists_settles.
    + eapply IH; [|exact Hin|exact Hc].
      intros c' Hc'. apply elem_of_union in Hc' as [Hc'|Hc'].
      * apply elem_of_singleton in Hc'. subst c'.
        apply ensure_municipality_exists_settles.
      * apply ensure_municipality_exists_mono, Hseen, Hc'.
  - destruct Hin as [->|Hin]; [|eapply IH; eassumption].
    assert (c0 = c) as -> by congruence.
    apply ensure_municipalities_mono.
    apply andb_false_iff in G as [G|G].
    + apply negb_false_iff in G. left. rewrite G. reflexivity.
    + apply negb_false_iff, bool_decide_eq_true in G. apply Hseen, G.
Qed.

(** When every code of the batch is settled the first loop changes nothing. *)
Lemma ensure_municipalities_noop records pref : forall st seen,
  (forall r c, In r records -> municipality_code r = Some c -> settled st c) ->
  ensure_municipalities st seen records pref = st.
Proof.
  induction records as [|r0 records IH]; intros st seen H; [reflexivity|].
  cbn [ensure_municipalities].
  assert (Hrest : forall r c, In r records -> municipality_code r = Some c -> settled st c)
    by (intros r c Hin; apply H; right; exact Hin).
  destruct (municipality_code r0) as [c0|] eqn:E0; [|apply IH, Hrest].
  destruct (negb (String.eqb c0 "") && negb (bool_decide (c0 ∈ seen))); [|apply IH, Hrest].
  rewrite ensure_municipality_exists_settled by (apply (H r0); [left; reflexivity|exact E0]).
  apply IH, Hrest.
Qed.

Lemma execute_values_pages (records : list CanonicalRecord) :
  concat (paginate (length records) PAGE_SIZE records) = records.
Proof. apply paginate_concat; [unfold PAGE_SIZE; lia|lia]. Qed.

(** What one call of the loader does to the fact table. *)
Lemma insert_transactions_rows st records pref :
  exists new,
    transactions (fst (insert_transactions st records pref))
    = (transactions st ++ new)%list /\
    hashes (transactions st ++ new)%list = hashes (transactions st) ∪ hashes records /\
    Forall (fun r => source_hash r ∉ hashes (transactions st)) new.
Proof.
  unfold insert_transactions. destruct records as [|r records].
  - exists []. cbn [fst]. rewrite app_nil_r, hashes_nil.
    split; [reflexivity|]. split; [set_solver|constructor].
  - set (rs := r :: records). unfold execute_values.
    rewrite ensure_municipalities_rows.
    destruct (execute_pages_spec (paginate (length rs) PAGE_SIZE rs) (transactions st) (-1))
      as (new & Hrun & Hh & Hf).
    rewrite execute_values_pages in Hh.
    destruct (fold_left _ _ _) as [rows inserted]. cbn [fst] in Hrun. subst rows.
    cbn [fst transactions]. exists new. split; [reflexivity|]. split; assumption.
Qed.

Lemma insert_transactions_cons st r records pref :
  insert_transactions st (r :: records) pref =
  let st1 := ensure_municipalities st ∅ (r :: records) pref in
  let result := execute_values (transactions st1) (r :: records) PAGE_SIZE in
  ({| prefectures := prefectures st1;
      municipalities := municipalities st1;
      transactions := fst result |}, snd result).
Proof.
  unfold insert_transactions. cbv zeta.
  destruct (execute_values _ _ _) as [rows inserted]. reflexivity.
Qed.

Lemma settled_same_municipalities st st' c :
  municipalities st' = municipalities st -> settled st c -> settled st' c.
Proof. unfold settled. intros ->. tauto. Qed.

(** Loading a batch whose hashes are all stored and whose municipality
    codes are all settled changes nothing and reports zero new rows. *)
Lemma insert_transactions_known st r records pref :
  hashes (r :: records) ⊆ hashes (transactions st) ->
  (forall r' c, In r' (r :: records) -> municipality_code r' = Some c -> settled st c) ->
  insert_transactions st (r :: records) pref = (st, 0).
Proof.
  intros Hh Hm. rewrite insert_transactions_cons. cbv zeta.
  rewrite (ensure_municipalities_noop _ _ _ _ Hm).
  unfold execute_values.
  rewrite execute_pages_known by (rewrite execute_values_pages; exact Hh).
  cbn [fst snd length paginate]. destruct st; reflexivity.
Qed.

(** C1.  Loading is idempotent: loading the same records a second time
    reports no inserted row and leaves the store, and so the number of
    fact rows, as the first load left it; the first load keeps every
    row already present and only appends rows whose hash was unseen. *)
Theorem insert_transactions_idempotent st records pref :
  let first := insert_transactions st records pref in
  let second := insert_transactions (fst first) records pref in
  snd second = 0 /\
  fst second = fst first /\
  length (transactions (fst second)) = length (transactions (fst first)) /\
  exists new,
    transactions (fst first) = (transactions st ++ new)%list /\
    Forall (fun r => source_hash r ∉ hashes (transactions st)) new.
Proof.
  cbv zeta.
  destruct (insert_transactions_rows st records pref) as (new & Hrows & Hh & Hf).
  assert (Hsecond : insert_transactions (fst (insert_transactions st records pref)) records pref
                    = (fst (insert_transactions st records pref), 0)).
  { destruct records as [|r records]; [reflexivity|].
    apply insert_transactions_known.
    - rewrite Hrows, Hh. set_solver.
    - intros r' c Hin Hc.
      apply (settled_same_municipalities (ensure_municipalities st ∅ (r :: records) pref)).
      + rewrite insert_transactions_cons. reflexivity.
      + eapply ensure_municipalities_settles; [|exact Hin|exact Hc].
        intros c0 Hc0. apply elem_of_empty in Hc0. contradiction. }
  rewrite Hsecond. cbn [fst snd].
  split; [reflexivity|]. split; [reflexivity|]. split; [reflexivity|].
  exists new. split; assumption.
Qed.

(** C3 (amended).  For a list of records of at most one insert page
    (1000 rows) and any store, the count returned by the loader is the
    number of rows it adds to the fact table, which is the number of
    distinct hashes of the input that the store did not hold before the
    call: a hash repeated in the input counts once. *)
Theorem insert_transactions_counts_new_hashes st records pref :
  (length records <= PAGE_SIZE)%nat ->
  let result := insert_transactions st records pref in
  snd result = Z.of_nat (size (hashes records ∖ hashes (transactions st))) /\
  snd result
  = Z.of_nat (length (transactions (fst result))) - Z.of_nat (length (transactions st)).
Proof.
  intros Hlen. cbv zeta. destruct records as [|r records].
  - cbn [insert_transactions fst snd]. rewrite hashes_nil.
    replace (∅ ∖ hashes (transactions st)) with (∅ : gset string) by set_solver.
    rewrite size_empty. lia.
  - rewrite insert_transactions_cons. cbv zeta. cbn [fst snd transactions].
    unfold execute_values. rewrite paginate_single by exact Hlen.
    cbn [fold_left fst]. rewrite ensure_municipalities_rows.
    destruct (insert_do_nothing_spec (r :: records) (transactions st) 0)
      as (new & Hrun & _ & Hl & _).
    rewrite Hrun. cbn [fst snd]. rewrite length_app, <- Hl. lia.
Qed.

Lemma insert_transactions_counts_new_hashes_witness :
  let rows := [blank_row "a"; blank_row "b"; blank_row "a"; blank_row "c"] in
  let st := {| prefectures := ∅; municipalities := ∅;
               transactions := [blank_row "c"] |} in
  (length rows <= PAGE_SIZE)%nat /\
  snd (insert_transactions st rows "13") = 2 /\
  size (hashes rows ∖ hashes (transactions st)) = 2%nat.
Proof.
  cbv zeta.
  assert (Hlen : (length [blank_row "a"; blank_row "b"; blank_row "a"; blank_row "c"]
                  <= PAGE_SIZE)%nat) by (vm_compute; repeat constructor).
  split; [exact Hlen|].
  pose proof (insert_transactions_counts_new_hashes
                {| prefectures := ∅; municipalities := ∅;
                   transactions := [blank_row "c"] |}
                [blank_row "a"; blank_row "b"; blank_row "a"; blank_row "c"]
                "13" Hlen) as [H1 _].
  assert (E : snd (insert_transactions
                     {| prefectures := ∅; municipalities := ∅;
                        transactions := [blank_row "c"] |}
                     [blank_row "a"; blank_row "b"; blank_row "a"; blank_row "c"]
                     "13") = 2) by (vm_compute; reflexivity).
  split; [exact E|].
  rewrite E in H1. lia.
Defined.

(** The returned count is not the number of input rows with an unseen
    hash: a hash that occurs twice in the input is inserted and counted
    once, and of a list longer than one page only the last page is
    counted. *)
Lemma unseen_rows_are_not_the_count :
  snd (insert_transactions empty_store [blank_row "a"; blank_row "a"] "13") = 1 /\
  rows_with_unseen_hash empty_store [blank_row "a"; blank_row "a"] = 2 /\
  snd (insert_transactions empty_store (numbered_rows 1001) "13") = 1 /\
  rows_with_unseen_hash empty_store (numbered_rows 1001) = 1001 /\
  ~ counts_rows_with_unseen_hash.
Proof.
  assert (E1 : snd (insert_transactions empty_store [blank_row "a"; blank_row "a"] "13") = 1)
    by (vm_compute; reflexivity).
  assert (E2 : rows_with_unseen_hash empty_store [blank_row "a"; blank_row "a"] = 2)
    by (vm_compute; reflexivity).
  assert (E3 : snd (insert_transactions empty_store (numbered_rows 1001) "13") = 1)
    by (vm_compute; reflexivity).
  assert (E4 : rows_with_unseen_hash empty_store (numbered_rows 1001) = 1001)
    by (vm_compute; reflexivity).
  split; [exact E1|]. split; [exact E2|]. split; [exact E3|]. split; [exact E4|].
  intros H. specialize (H empty_store [blank_row "a"; blank_row "a"] "13").
  rewrite E1, E2 in H. discriminate H.
Qed.

(** The rows of a list longer than one page are all stored, though only
    the last page is counted. *)
Lemma long_list_is_stored_in_full :
  length (transactions (fst (insert_transactions empty_store (numbered_rows 1001) "13")))
  = 1001%nat.
Proof. vm_compute. reflexivity. Qed.

(** ** The fetch client and the harvest loop *)

Lemma get_transactions_run env year area quarter w :
  get_transactions env year area quarter w =
  (reply_outcome (api env (length (requests_of (trace w))) year area (sent_quarter quarter)),
   extend w [EvRequest year area (sent_quarter quarter)]).
Proof.
  unfold get_transactions, reply_outcome, extend. fold (sent_quarter quarter).
  destruct (api env _ year area (sent_quarter quarter)) as [status data|]; [|reflexivity].
  destruct ((status =? 400) || (status =? 404)); [reflexivity|].
  destruct ((400 <=? status) && (status <? 600)); reflexivity.
Qed.

Lemma extend_extend w evs1 evs2 :
  extend (extend w evs1) evs2 = extend w (evs1 ++ evs2).
Proof. unfold extend. cbn. rewrite <- app_assoc. reflexivity. Qed.

Lemma extend_nil w : extend w [] = w.
Proof. unfold extend. rewrite app_nil_r. destruct w; reflexivity. Qed.

(** A not-published status is an expected outcome, not an exception;
    any other error status and a failed request are exceptions. *)
Example availability_classification :
  reply_outcome (Reply 404 DataAbsent) = Ok None /\
  reply_outcome (Reply 400 DataAbsent) = Ok None /\
  reply_outcome (Reply 500 DataAbsent) = Raise ApiError /\
  reply_outcome RequestFailure = Raise ApiError /\
  reply_outcome (Reply 200 DataAbsent) = Ok (Some []).
Proof. repeat split; reflexivity. Qed.

Section Harvest.

Context (env : Env) (pref : string) (year : Z).

(** One quarter of a harvest: whatever the reply, one request, then one
    pause of the minimum interval, and no exception. *)
Lemma ingest_quarter_run quarter w :
  exists inserted st,
    ingest_quarter env pref year quarter w =
    (Ok inserted,
     {| store := st; fx_rates := fx_rates w;
        trace := (trace w ++ harvest_events year pref [quarter])%list |}).
Proof.
  unfold ingest_quarter, bind, try_except, sleep, log, ret, lift, harvest_events.
  rewrite get_transactions_run. cbn [flat_map app].
  destruct (reply_outcome _) as [[[|t ts]|]|e]; cbn [extend store fx_rates trace];
    try (rewrite <- app_assoc; eauto).
  destruct (map_res _ (t :: ts)) as [records|e];
    [|cbn [extend store fx_rates trace]; rewrite <- app_assoc; eauto].
  unfold insert_transactions_m. cbn [extend store fx_rates trace].
  destruct (insert_transactions _ records pref) as [st inserted].
  cbn [store fx_rates trace]. rewrite <- app_assoc. eauto.
Qed.

Lemma ingest_quarters_run quarters : forall total w,
  exists inserted st,
    ingest_quarters env pref year quarters total w =
    (Ok inserted,
     {| store := st; fx_rates := fx_rates w;
        trace := (trace w ++ harvest_events year pref quarters)%list |}).
Proof.
  induction quarters as [|q quarters IH]; intros total w.
  - exists total, (store w). cbn. rewrite app_nil_r. destruct w; reflexivity.
  - cbn [ingest_quarters]. unfold bind at 1.
    destruct (ingest_quarter_run q w) as (n & st & ->).
    destruct (IH (total + n) {| store := st; fx_rates := fx_rates w;
                                trace := (trace w ++ harvest_events year pref [q])%list |})
      as (n' & st' & ->).
    exists n', st'. cbn [fx_rates trace]. rewrite <- app_assoc. reflexivity.
Qed.

Lemma ingest_prefecture_year_run quarters w :
  exists inserted st,
    ingest_prefecture_year env pref year quarters w =
    (Ok inserted,
     {| store := st; fx_rates := fx_rates w;
        trace := (trace w ++ harvest_events year pref (quarters_to_fetch quarters))%list |}).
Proof.
  unfold ingest_prefecture_year, bind at 1, ensure_prefecture_exists_m.
  cbv zeta.
  destruct (ingest_quarters_run (quarters_to_fetch quarters) 0
              {| store := ensure_prefecture_exists (store w) pref
                            (prefecture_name pref ("Prefecture " ++ pref)%string);
                 fx_rates := fx_rates w; trace := trace w |})
    as (n & st & ->).
  eauto.
Qed.

End Harvest.

Lemma spaced_from_harvest_app gap year pref quarters rest : forall since,
  gap <= MIN_REQUEST_INTERVAL ->
  pause_suffices gap since ->
  (forall since', pause_suffices gap since' -> spaced_from gap since' rest = true) ->
  spaced_from gap since (harvest_events year pref quarters ++ rest) = true.
Proof.
  induction quarters as [|q quarters IH]; intros since Hgap Hsince Hrest.
  - apply Hrest, Hsince.
  - unfold harvest_events. cbn [flat_map app spaced_from option_map].
    fold (harvest_events year pref quarters).
    assert (Htail : spaced_from gap (Some (0 + MIN_REQUEST_INTERVAL))
                      (harvest_events year pref quarters ++ rest) = true)
      by (apply IH; [exact Hgap|cbn; lia|exact Hrest]).
    destruct since as [pause|]; [|exact Htail].
    rewrite Htail, andb_true_r. apply Z.leb_le. exact Hsince.
Qed.

Lemma spaced_from_harvests gap hs : forall since,
  gap <= MIN_REQUEST_INTERVAL ->
  pause_suffices gap since ->
  spaced_from gap since (harvests_events hs) = true.
Proof.
  induction hs as [|h hs IH]; intros since Hgap Hsince; [reflexivity|].
  unfold harvests_events. cbn [flat_map]. fold (harvests_events hs).
  apply spaced_from_harvest_app; [exact Hgap|exact Hsince|].
  intros since' Hs. apply IH; assumption.
Qed.

(** C8 (amended).  The fetch client does no pacing: a call makes one
    request and no pause.  The pacing is a pause of
    1 / REQUESTS_PER_SECOND = 0.5 s made by the harvest loop after the
    request of each quarter, so the requests of harvests run one after
    the other are at least 0.5 s apart. *)
Theorem pacing_is_a_pause_in_the_harvest_loop :
  (forall env year area quarter w,
      snd (get_transactions env year area quarter w)
      = extend w [EvRequest year area (sent_quarter quarter)]) /\
  (forall env pref year quarters w,
      exists inserted st,
        ingest_prefecture_year env pref year quarters w =
        (Ok inserted,
         {| store := st; fx_rates := fx_rates w;
            trace := (trace w
                      ++ harvest_events year pref (quarters_to_fetch quarters))%list |})) /\
  (forall hs, spaced MIN_REQUEST_INTERVAL (harvests_events hs) = true) /\
  MIN_REQUEST_INTERVAL = 500.
Proof.
  split; [|split; [|split]].
  - intros. rewrite get_transactions_run. reflexivity.
  - intros. apply ingest_prefecture_year_run.
  - intros hs. apply spaced_from_harvests; [lia|exact I].
  - reflexivity.
Qed.

(** Two consecutive calls of the client make two requests with no pause
    between them; so does the incremental harvest, whose probe returns
    as soon as a period is published and whose first harvest request
    follows at once. *)
Lemma client_does_not_space_requests :
  trace (snd (get_transactions all_published 2024 "14" (Some 1)
                (snd (get_transactions all_published 2024 "13" (Some 1) empty_world))))
  = [EvRequest 2024 "13" (Some 1); EvRequest 2024 "14" (Some 1)] /\
  firstn 3 (trace (snd (ingest_incremental all_published empty_world)))
  = [EvRequest 2024 "13" (Some 1); EvRequest 2024 "01" (Some 1); EvSleep 500] /\
  spaced MIN_REQUEST_INTERVAL (trace (snd (ingest_incremental all_published empty_world)))
  = false /\
  ~ client_enforces_spacing.
Proof.
  split; [vm_compute; reflexivity|].
  split; [vm_compute; reflexivity|].
  split; [vm_compute; reflexivity|].
  intros H.
  specialize (H all_published empty_world 2024 "13" (Some 1) 2024 "14" (Some 1)).
  vm_compute in H. discriminate H.
Qed.

(** Harvesting the same period twice when the feed returns the same ten
    records both times stores ten rows and reports ten new rows, then
    reports none and still holds ten rows. *)
Example harvest_twice_stores_once :
  let first := ingest_prefecture_year steady_feed "13" 2023 (Some [1]) empty_world in
  let second := ingest_prefecture_year steady_feed "13" 2023 (Some [1]) (snd first) in
  fst first = Ok 10 /\
  length (transactions (store (snd first))) = 10%nat /\
  fst second = Ok 0 /\
  length (transactions (store (snd second))) = 10%nat.
Proof. vm_compute. repeat split; reflexivity. Qed.

(** ** The period probe *)

Lemma step_back_previous year quarter :
  step_back year quarter = previous_quarter (year, quarter).
Proof.
  unfold step_back, previous_quarter. cbn [fst snd].
  destruct (Z.eqb_spec (quarter - 1) 0), (Z.eqb_spec quarter 1); try lia; reflexivity.
Qed.

Lemma previous_quarter_valid p : valid_quarter p -> valid_quarter (previous_quarter p).
Proof.
  unfold valid_quarter, previous_quarter.
  destruct (Z.eqb_spec (snd p) 1); cbn [snd]; lia.
Qed.

Lemma probe_start_previous year month :
  1 <= month <= 12 ->
  probe_start year month = previous_quarter (year, quarter_of_month month) /\
  valid_quarter (probe_start year month).
Proof.
  intros H. unfold probe_start, previous_quarter, quarter_of_month, valid_quarter.
  cbn [fst snd].
  assert (Hq : 0 <= (month - 1) / 3 < 4).
  { split; [apply Z.div_pos; lia|]. apply Z.div_lt_upper_bound; lia. }
  destruct (Z.eqb_spec ((month - 1) / 3) 0) as [E|E].
  - rewrite E. cbn. split; [reflexivity|lia].
  - destruct (Z.eqb_spec ((month - 1) / 3 + 1) 1); [lia|].
    cbn [snd]. split; [f_equal; lia|lia].
Qed.

Lemma requests_of_app t1 t2 :
  requests_of (t1 ++ t2) = (requests_of t1 ++ requests_of t2)%list.
Proof. unfold requests_of. apply List.filter_app. Qed.

Lemma requests_of_probe_misses ps :
  requests_of (probe_misses ps) = map probe_request ps.
Proof.
  induction ps as [|p ps IH]; [reflexivity|].
  unfold probe_misses. cbn [flat_map app]. fold (probe_misses ps).
  unfold requests_of in *. cbn. rewrite IH. reflexivity.
Qed.

Lemma sent_quarter_valid p :
  valid_quarter p -> sent_quarter (Some (snd p)) = Some (snd p).
Proof.
  unfold valid_quarter, sent_quarter. intros H.
  destruct (Z.eqb_spec (snd p) 0); [lia|reflexivity].
Qed.

Section Probe.

Context (env : Env).

(** One unavailable period costs one request and one pause, and the
    probe goes on with the quarter before. *)
Lemma probe_miss n p w :
  valid_quarter p ->
  unavailable (api env (length (requests_of (trace w))) (fst p) "13" (Some (snd p))) = true ->
  probe env (S n) (fst p) (snd p) w =
  probe env n (fst (previous_quarter p)) (snd (previous_quarter p))
        (extend w (probe_misses [p])).
Proof.
  intros Hv Hu. cbn [probe]. unfold bind at 1. rewrite get_transactions_run.
  rewrite (sent_quarter_valid p Hv).
  unfold unavailable in Hu.
  destruct (reply_outcome _) as [[data|]|e]; try discriminate Hu.
  rewrite step_back_previous. replace (fst p, snd p) with p by (destruct p; reflexivity).
  destruct (previous_quarter p) as [y' q'] eqn:E. cbn [fst snd].
  unfold bind, sleep, log. cbn [extend store fx_rates trace].
  unfold probe_misses, probe_request. cbn [flat_map app].
  unfold extend. cbn [store fx_rates trace]. rewrite <- app_assoc. reflexivity.
Qed.

(** A period that is not unavailable ends the probe at once: with that
    period when the client returns data, with the client's exception
    otherwise. *)
Lemma probe_hit n p w :
  valid_quarter p ->
  unavailable (api env (length (requests_of (trace w))) (fst p) "13" (Some (snd p))) = false ->
  probe env (S n) (fst p) (snd p) w =
  (match reply_outcome (api env (length (requests_of (trace w))) (fst p) "13" (Some (snd p))) with
   | Ok _ => Ok (Some (fst p), Some (snd p))
   | Raise e => Raise e
   end,
   extend w [probe_request p]).
Proof.
  intros Hv Hu. cbn [probe]. unfold bind at 1. rewrite get_transactions_run.
  rewrite (sent_quarter_valid p Hv).
  unfold unavailable in Hu.
  destruct (reply_outcome _) as [[data|]|e]; [reflexivity|discriminate Hu|reflexivity].
Qed.

Lemma request_count_after_miss w p :
  length (requests_of (trace (extend w (probe_misses [p]))))
  = S (length (requests_of (trace w))).
Proof.
  unfold extend. cbn [trace]. rewrite requests_of_app, length_app.
  rewrite requests_of_probe_misses. cbn. lia.
Qed.

(** A walk whose periods are all unavailable ends without a period and
    without an exception, after one request per period. *)
Lemma probe_all_unavailable n : forall p w,
  valid_quarter p ->
  forallb unavailable (probe_replies env (length (requests_of (trace w))) n p) = true ->
  probe env n (fst p) (snd p) w =
  (Ok (None, None), extend w (probe_misses (periods_back n p))).
Proof.
  induction n as [|n IH]; intros p w Hv Hall.
  - cbn. rewrite extend_nil. reflexivity.
  - cbn [probe_replies forallb] in Hall. apply andb_true_iff in Hall as [H0 Hrest].
    rewrite (probe_miss n p w Hv H0).
    rewrite IH.
    + rewrite extend_extend. reflexivity.
    + apply previous_quarter_valid, Hv.
    + rewrite request_count_after_miss. exact Hrest.
Qed.

(** A walk stops at the first period that is not unavailable. *)
Lemma probe_first_hit n : forall p w i r pi,
  valid_quarter p ->
  forallb unavailable (firstn i (probe_replies env (length (requests_of (trace w))) n p))
  = true ->
  nth_error (probe_replies env (length (requests_of (trace w))) n p) i = Some r ->
  unavailable r = false ->
  nth_error (periods_back n p) i = Some pi ->
  probe env n (fst p) (snd p) w =
  (match reply_outcome r with
   | Ok _ => Ok (Some (fst pi), Some (snd pi))
   | Raise e => Raise e
   end,
   extend w (probe_misses (firstn i (periods_back n p)) ++ [probe_request pi])).
Proof.
  induction n as [|n IH]; intros p w i r pi Hv Hpre Hr Hu Hpi.
  - destruct i; discriminate Hr.
  - destruct i as [|i].
    + cbn in Hr, Hpi. injection Hr as <-. injection Hpi as <-.
      rewrite (probe_hit n p w Hv Hu). reflexivity.
    + cbn [probe_replies firstn forallb nth_error periods_back] in Hpre, Hr, Hpi.
      apply andb_true_iff in Hpre as [H0 Hpre].
      rewrite (probe_miss n p w Hv H0).
      rewrite (IH (previous_quarter p) _ i r pi).
      * rewrite extend_extend. reflexivity.
      * apply previous_quarter_valid, Hv.
      * rewrite request_count_after_miss. exact Hpre.
      * rewrite request_count_after_miss. exact Hr.
      * exact Hu.
      * exact Hpi.
Qed.

Lemma first_not_unavailable (l : list http_reply) :
  forallb unavailable l = true \/
  exists i r, (i < length l)%nat /\
              forallb unavailable (firstn i l) = true /\
              nth_error l i = Some r /\ unavailable r = false.
Proof.
  induction l as [|x l IH]; [left; reflexivity|].
  destruct (unavailable x) eqn:Ex.
  - destruct IH as [IH|(i & r & Hi & Hpre & Hr & Hu)].
    + left. cbn. rewrite Ex, IH. reflexivity.
    + right. exists (S i), r. cbn [length firstn forallb nth_error].
      rewrite Ex, Hpre. repeat split; [lia|exact Hr|exact Hu].
  - right. exists O, x. cbn [length]. repeat split; [lia|exact Ex].
Qed.

Lemma firstn_snoc {A : Type} (l : list A) i x :
  nth_error l i = Some x -> firstn (S i) l = (firstn i l ++ [x])%list.
Proof.
  revert i. induction l as [|y l IH]; intros i H; [destruct i; discriminate H|].
  destruct i as [|i]; cbn in H.
  - injection H as ->. reflexivity.
  - cbn [firstn app]. f_equal. apply IH, H.
Qed.

Lemma periods_back_length n p : length (periods_back n p) = n.
Proof. revert p. induction n as [|n IH]; intros p; cbn; [reflexivity|]. rewrite IH. reflexivity. Qed.

Lemma probe_replies_length c n p : length (probe_replies env c n p) = n.
Proof.
  revert c p. induction n as [|n IH]; intros c p; cbn; [reflexivity|].
  rewrite IH. reflexivity.
Qed.

Lemma reply_outcome_data r data :
  reply_outcome r = Ok (Some data) -> unavailable r = false.
Proof.
  unfold unavailable. intros ->. reflexivity.
Qed.

Lemma requests_after_probe w ps tail :
  requests_of (trace (extend w (probe_misses ps ++ tail)))
  = (requests_of (trace w) ++ map probe_request ps ++ requests_of tail)%list.
Proof.
  unfold extend. cbn [trace].
  rewrite !requests_of_app, requests_of_probe_misses. reflexivity.
Qed.

(** C6.  The period probe starts from the most recently completed
    calendar quarter, walks backward one quarter at a time across year
    boundaries, stops at the first quarter that returns data, makes at
    most four fetch attempts, and returns no period, without raising,
    when all four probed quarters are unavailable. *)
Theorem find_latest_available_quarter_probe w :
  1 <= now_month env <= 12 ->
  let start := previous_quarter (now_year env, quarter_of_month (now_month env)) in
  let periods := periods_back 4 start in
  let replies := probe_replies env (length (requests_of (trace w))) 4 start in
  let run := find_latest_available_quarter env w in
  (exists k, (k <= 4)%nat /\
             requests_of (trace (snd run))
             = (requests_of (trace w) ++ map probe_request (firstn k periods))%list) /\
  (forallb unavailable replies = true ->
   fst run = Ok (None, None) /\
   requests_of (trace (snd run))
   = (requests_of (trace w) ++ map probe_request periods)%list) /\
  (forall i r pi data,
      forallb unavailable (firstn i replies) = true ->
      nth_error replies i = Some r ->
      reply_outcome r = Ok (Some data) ->
      nth_error periods i = Some pi ->
      fst run = Ok (Some (fst pi), Some (snd pi)) /\
      requests_of (trace (snd run))
      = (requests_of (trace w) ++ map probe_request (firstn (S i) periods))%list).
Proof.
  intros Hmonth. cbv zeta.
  destruct (probe_start_previous (now_year env) (now_month env) Hmonth) as [Hstart Hvalid].
  unfold find_latest_available_quarter.
  set (start := previous_quarter (now_year env, quarter_of_month (now_month env))) in *.
  rewrite Hstart in *. clear Hstart.
  replace (let '(year, quarter) := start in probe env 4 year quarter)
    with (probe env 4 (fst start) (snd start)) by (destruct start; reflexivity).
  set (replies := probe_replies env (length (requests_of (trace w))) 4 start).
  assert (Hall : forallb unavailable replies = true ->
                 probe env 4 (fst start) (snd start) w
                 = (Ok (None, None), extend w (probe_misses (periods_back 4 start))))
    by (intros H; apply probe_all_unavailable; assumption).
  assert (Hhit : forall i r pi,
             forallb unavailable (firstn i replies) = true ->
             nth_error replies i = Some r -> unavailable r = false ->
             nth_error (periods_back 4 start) i = Some pi ->
             probe env 4 (fst start) (snd start) w
             = (match reply_outcome r with
                | Ok _ => Ok (Some (fst pi), Some (snd pi))
                | Raise e => Raise e
                end,
                extend w (probe_misses (firstn i (periods_back 4 start))
                          ++ [probe_request pi])))
    by (intros; apply probe_first_hit; assumption).
  split; [|split].
  - destruct (first_not_unavailable replies) as [H|(i & r & Hi & Hpre & Hr & Hu)].
    + exists 4%nat. split; [lia|]. rewrite (Hall H). cbn [snd].
      rewrite <- (app_nil_r (probe_misses _)), requests_after_probe.
      rewrite app_nil_r. reflexivity.
    + unfold replies in Hi. rewrite probe_replies_length in Hi.
      destruct (nth_error (periods_back 4 start) i) as [pi|] eqn:Epi.
      2:{ apply nth_error_None in Epi. rewrite periods_back_length in Epi. lia. }
      exists (S i). split; [lia|]. rewrite (Hhit i r pi Hpre Hr Hu Epi). cbn [snd].
      rewrite requests_after_probe, (firstn_snoc _ _ _ Epi), map_app. reflexivity.
  - intros H. rewrite (Hall H). cbn [fst snd]. split; [reflexivity|].
    rewrite <- (app_nil_r (probe_misses _)), requests_after_probe.
    rewrite app_nil_r. reflexivity.
  - intros i r pi data Hpre Hr Hdata Hpi.
    rewrite (Hhit i r pi Hpre Hr (reply_outcome_data _ _ Hdata) Hpi). cbn [fst snd].
    rewrite Hdata. split; [reflexivity|].
    rewrite requests_after_probe, (firstn_snoc _ _ _ Hpi), map_app. reflexivity.
Qed.

End Probe.

Lemma find_latest_available_quarter_probe_witness :
  (fst (find_latest_available_quarter nothing_published empty_world) = Ok (None, None) /\
   requests_of (trace (snd (find_latest_available_quarter nothing_published empty_world)))
   = [EvRequest 2024 "13" (Some 1); EvRequest 2023 "13" (Some 4);
      EvRequest 2023 "13" (Some 3); EvRequest 2023 "13" (Some 2)]) /\
  (fst (find_latest_available_quarter published_until_2023_q3 empty_world)
   = Ok (Some 2023, Some 3) /\
   requests_of (trace (snd (find_latest_available_quarter published_until_2023_q3 empty_world)))
   = [EvRequest 2024 "13" (Some 1); EvRequest 2023 "13" (Some 4);
      EvRequest 2023 "13" (Some 3)]).
Proof.
  assert (Hmonth : 1 <= 5 <= 12) by lia.
  split.
  - destruct (find_latest_available_quarter_probe nothing_published empty_world Hmonth)
      as (_ & Hnone & _).
    exact (Hnone eq_refl).
  - destruct (find_latest_available_quarter_probe published_until_2023_q3 empty_world Hmonth)
      as (_ & _ & Hhit).
    exact (Hhit 2%nat (Reply 200 (DataList [])) (2023, 3) [] eq_refl eq_refl eq_refl eq_refl).
Defined.

(** ** The FX fetch *)

Lemma fx_requests_of_app t1 t2 :
  fx_requests_of (t1 ++ t2) = (fx_requests_of t1 ++ fx_requests_of t2)%list.
Proof. unfold fx_requests_of. apply List.filter_app. Qed.

Lemma fx_walk_S rate_date currency n :
  fx_walk rate_date currency (S n)
  = EvFxRequest rate_date currency :: fx_walk (rate_date - 1) currency n.
Proof.
  unfold fx_walk. cbn [seq map]. rewrite Z.sub_0_r. f_equal.
  rewrite <- seq_shift, map_map. apply map_ext. intros i. f_equal. lia.
Qed.

Section FxFetch.

Context (env : Env) (currency : string).

(** The first attempt of a call that is answered with a rate. *)
Lemma fetch_fx_rate_found depth rate_date max_retries w status r :
  1 <= max_retries ->
  fx_api env (length (fx_requests_of (trace w))) rate_date currency = FxReply status (Some r) ->
  status = 200 ->
  fetch_fx_rate env (S depth) rate_date currency max_retries w
  = (Ok (Some r), extend w [EvFxRequest rate_date currency]).
Proof.
  intros Hm Hreply ->. cbn [fetch_fx_rate].
  destruct (Z.to_nat max_retries) as [|remaining] eqn:E; [lia|].
  unfold bind at 1, fx_get. rewrite Hreply. reflexivity.
Qed.

(** The first attempt of a call that is answered not-found: the call
    becomes a call for the day before with a single attempt. *)
Lemma fetch_fx_rate_not_found depth rate_date max_retries w :
  1 <= max_retries -> 2 <= rate_date ->
  not_found (fx_api env (length (fx_requests_of (trace w))) rate_date currency) = true ->
  fetch_fx_rate env (S depth) rate_date currency max_retries w
  = fetch_fx_rate env depth (rate_date - 1) currency 1
      (extend w [EvFxRequest rate_date currency]).
Proof.
  intros Hm Hd Hreply. cbn [fetch_fx_rate].
  destruct (Z.to_nat max_retries) as [|remaining] eqn:E; [lia|].
  unfold bind at 1, fx_get.
  destruct (fx_api env _ rate_date currency) as [status rate|]; [|discriminate Hreply].
  cbn [not_found] in Hreply. apply Z.eqb_eq in Hreply. subst status.
  cbn [Z.eqb Pos.eqb]. unfold bind, lift, previous_day.
  destruct (Z.leb_spec 1 (rate_date - 1)); [|lia]. reflexivity.
Qed.

Lemma fx_request_count_after w rate_date :
  length (fx_requests_of (trace (extend w [EvFxRequest rate_date currency])))
  = S (length (fx_requests_of (trace w))).
Proof.
  unfold extend. cbn [trace]. rewrite fx_requests_of_app, length_app. cbn. lia.
Qed.

(** A walk over [k] not-found days that ends on a day with a rate. *)
Lemma fetch_fx_rate_walk r k : forall depth rate_date max_retries w,
  (k < depth)%nat -> 1 <= max_retries -> Z.of_nat k < rate_date ->
  (forall i, (i < k)%nat ->
     not_found (fx_api env (length (fx_requests_of (trace w)) + i)
                       (rate_date - Z.of_nat i) currency) = true) ->
  fx_api env (length (fx_requests_of (trace w)) + k) (rate_date - Z.of_nat k) currency
  = FxReply 200 (Some r) ->
  fetch_fx_rate env depth rate_date currency max_retries w
  = (Ok (Some r), extend w (fx_walk rate_date currency (S k))).
Proof.
  induction k as [|k IH]; intros depth rate_date max_retries w Hdepth Hm Hd Hnf Hok.
  - destruct depth as [|depth]; [lia|].
    rewrite Nat.add_0_r, Z.sub_0_r in Hok.
    rewrite (fetch_fx_rate_found _ _ _ _ _ _ Hm Hok eq_refl).
    unfold fx_walk. cbn [seq map]. rewrite Z.sub_0_r. reflexivity.
  - destruct depth as [|depth]; [lia|].
    rewrite fetch_fx_rate_not_found; [|exact Hm|lia|].
    2:{ specialize (Hnf O ltac:(lia)). rewrite Nat.add_0_r, Z.sub_0_r in Hnf. exact Hnf. }
    rewrite (IH depth (rate_date - 1) 1).
    + rewrite extend_extend, (fx_walk_S rate_date currency (S k)). reflexivity.
    + lia.
    + lia.
    + lia.
    + intros i Hi. rewrite fx_request_count_after.
      specialize (Hnf (S i) ltac:(lia)).
      replace (rate_date - 1 - Z.of_nat i) with (rate_date - Z.of_nat (S i)) by lia.
      replace (S (length (fx_requests_of (trace w))) + i)%nat
        with (length (fx_requests_of (trace w)) + S i)%nat by lia.
      exact Hnf.
    + rewrite fx_request_count_after.
      replace (rate_date - 1 - Z.of_nat k) with (rate_date - Z.of_nat (S k)) by lia.
      replace (S (length (fx_requests_of (trace w))) + k)%nat
        with (length (fx_requests_of (trace w)) + S k)%nat by lia.
      exact Hok.
Qed.

(** A walk that meets not-found replies only uses up the nested calls
    the interpreter allows. *)
Lemma fetch_fx_rate_exhausts : forall depth rate_date max_retries w,
  1 <= max_retries -> Z.of_nat depth < rate_date ->
  (forall n d, not_found (fx_api env n d currency) = true) ->
  fetch_fx_rate env depth rate_date currency max_retries w
  = (Raise RecursionError, extend w (fx_walk rate_date currency depth)).
Proof.
  induction depth as [|depth IH]; intros rate_date max_retries w Hm Hd Hnf.
  - cbn. rewrite extend_nil. reflexivity.
  - rewrite fetch_fx_rate_not_found; [|exact Hm|lia|apply Hnf].
    rewrite IH; [|lia|lia|exact Hnf].
    rewrite extend_extend, (fx_walk_S rate_date currency depth). reflexivity.
Qed.

End FxFetch.

(** C2 (amended).  On a not-found reply for the requested date the FX
    fetch calls itself for the prior calendar day with a single attempt,
    and it does so again on every further not-found reply: when the [k]
    days from the requested date backward are answered not-found and
    the day before them is answered with a rate, that rate is returned
    after exactly [k + 1] requests, one per day. *)
Theorem fx_fallback_walks_back :
  (forall env depth rate_date currency max_retries w,
      1 <= max_retries -> 2 <= rate_date ->
      not_found (fx_api env (length (fx_requests_of (trace w))) rate_date currency) = true ->
      fetch_fx_rate env (S depth) rate_date currency max_retries w
      = fetch_fx_rate env depth (rate_date - 1) currency 1
          (extend w [EvFxRequest rate_date currency])) /\
  (forall env currency r k depth rate_date max_retries w,
      (k < depth)%nat -> 1 <= max_retries -> Z.of_nat k < rate_date ->
      (forall i, (i < k)%nat ->
         not_found (fx_api env (length (fx_requests_of (trace w)) + i)
                           (rate_date - Z.of_nat i) currency) = true) ->
      fx_api env (length (fx_requests_of (trace w)) + k) (rate_date - Z.of_nat k) currency
      = FxReply 200 (Some r) ->
      fetch_fx_rate env depth rate_date currency max_retries w
      = (Ok (Some r), extend w (fx_walk rate_date currency (S k)))).
Proof.
  split.
  - intros. apply fetch_fx_rate_not_found; assumption.
  - intros. apply fetch_fx_rate_walk; assumption.
Qed.

Lemma fx_fallback_walks_back_witness :
  fetch_fx_rate closed_two_days 1000 738931 "USD" 3 empty_world
  = (Ok (Some (S754_finite false 1 (-7))),
     extend empty_world
       [EvFxRequest 738931 "USD"; EvFxRequest 738930 "USD"; EvFxRequest 738929 "USD"]) /\
  fetch_fx_rate closed_two_days 1000 738931 "USD" 3 empty_world
  = fetch_fx_rate closed_two_days 999 738930 "USD" 1
      (extend empty_world [EvFxRequest 738931 "USD"]).
Proof.
  destruct fx_fallback_walks_back as [Hstep Hwalk].
  split.
  - apply (Hwalk closed_two_days "USD" (S754_finite false 1 (-7)) 2%nat 1000%nat
             738931 3 empty_world); [lia|lia|lia| |reflexivity].
    intros i Hi. destruct i as [|[|i]]; [reflexivity|reflexivity|lia].
  - apply (Hstep closed_two_days 999%nat 738931 "USD" 3 empty_world);
      [lia|lia|reflexivity].
Defined.

(** After two not-found replies the fetch asks for a third day and
    returns its rate; against a service that answers not-found to
    everything it walks on until the interpreter stops it. *)
Lemma fx_fallback_goes_beyond_one_day :
  fetch_fx_rate closed_two_days 1000 738931 "USD" 3 empty_world
  = (Ok (Some (S754_finite false 1 (-7))),
     extend empty_world
       [EvFxRequest 738931 "USD"; EvFxRequest 738930 "USD"; EvFxRequest 738929 "USD"]) /\
  fst (fetch_fx_rate always_not_found 1000 738931 "USD" 3 empty_world)
  = Raise RecursionError /\
  length (trace (snd (fetch_fx_rate always_not_found 1000 738931 "USD" 3 empty_world)))
  = 1000%nat /\
  ~ one_level_fallback.
Proof.
  assert (E : fetch_fx_rate closed_two_days 1000 738931 "USD" 3 empty_world
              = (Ok (Some (S754_finite false 1 (-7))),
                 extend empty_world
                   [EvFxRequest 738931 "USD"; EvFxRequest 738930 "USD";
                    EvFxRequest 738929 "USD"]))
    by (vm_compute; reflexivity).
  split; [exact E|].
  split; [vm_compute; reflexivity|].
  split; [vm_compute; reflexivity|].
  intros H.
  destruct (H closed_two_days 1000%nat 738931 "USD" empty_world
              ltac:(lia) ltac:(lia) eq_refl eq_refl) as [Hnone _].
  rewrite E in Hnone. discriminate Hnone.
Qed.

(** * Further properties of the pipeline *)

(** ** Numbers in the transformer *)

Lemma digits2_pos_iter (m d : positive) :
  digits2_pos (Pos.iter xO m d) = (digits2_pos m + d)%positive.
Proof.
  induction d as [|d IH] using Pos.peano_ind.
  - cbn. lia.
  - rewrite Pos.iter_succ. cbn [digits2_pos]. rewrite IH. lia.
Qed.

Lemma digits2_pos_bound (m : positive) :
  2 ^ (Z.pos (digits2_pos m) - 1) <= Z.pos m.
Proof.
  induction m as [m IH|m IH|]; cbn [digits2_pos]; [| |cbn; lia].
  - rewrite Pos2Z.inj_succ.
    replace (Z.succ (Z.pos (digits2_pos m)) - 1) with (Z.succ (Z.pos (digits2_pos m) - 1)) by lia.
    rewrite Z.pow_succ_r by lia. lia.
  - rewrite Pos2Z.inj_succ.
    replace (Z.succ (Z.pos (digits2_pos m)) - 1) with (Z.succ (Z.pos (digits2_pos m) - 1)) by lia.
    rewrite Z.pow_succ_r by lia. lia.
Qed.

Lemma digits2_pos_le (m : positive) (n : Z) :
  Z.pos m < 2 ^ n -> Z.pos (digits2_pos m) <= n.
Proof.
  intros H. pose proof (digits2_pos_bound m) as Hb.
  destruct (Z.le_gt_cases (Z.pos (digits2_pos m)) n) as [Hle|Hgt]; [exact Hle|].
  assert (2 ^ n <= 2 ^ (Z.pos (digits2_pos m) - 1)).
  { destruct (Z.le_gt_cases 0 n).
    - apply Z.pow_le_mono_r; lia.
    - rewrite (Z.pow_neg_r 2 n) by lia. apply Z.pow_nonneg. lia. }
  lia.
Qed.

Lemma iter_xO_value (m d : positive) :
  Z.pos (Pos.iter xO m d) = Z.pos m * 2 ^ Z.pos d.
Proof.
  pose proof (shift_pos_correct d m) as H. unfold shift_pos in H.
  rewrite H, Z.pow_pos_fold. lia.
Qed.

(** A whole number below [2 ^ 53] is a float, exactly: the mantissa is
    the number shifted left to 53 bits. *)
Lemma binary_round_whole (sx : bool) (m : positive) :
  Z.pos m < 2 ^ 53 ->
  exists m' k,
    0 <= k <= 52 /\ Z.pos m' = Z.pos m * 2 ^ k /\
    binary_round PyFloat.prec PyFloat.emax sx m 0 = S754_finite sx m' (- k).
Proof.
  intros Hm. pose proof (digits2_pos_le m 53 Hm) as Hd.
  assert (Hd1 : 1 <= Z.pos (digits2_pos m)) by lia.
  unfold binary_round, PyFloat.prec, PyFloat.emax.
  assert (Hf : fexp 53 1024 (Z.pos (digits2_pos m) + 0) = Z.pos (digits2_pos m) - 53).
  { unfold fexp, emin. lia. }
  rewrite Hf. clear Hf.
  unfold shl_align.
  destruct (Z.pos (digits2_pos m) - 53 - 0) as [|p|d] eqn:E.
  - exists m, 0. split; [lia|]. split; [lia|].
    unfold binary_round_aux, shr_fexp. cbn [shr_record_of_loc Zdigits2].
    assert (Hf : fexp 53 1024 (Z.pos (digits2_pos m) + 0) - 0 = 0)
      by (unfold fexp, emin; lia).
    rewrite Hf. cbn [shr shr_m loc_of_shr_record round_nearest_even shr_record_of_loc Zdigits2].
    rewrite Hf. cbn [shr shr_m]. reflexivity.
  - lia.
  - set (mz := PosDef.Pos.iter xO m d).
    assert (Hmz : mz = Pos.iter xO m d) by reflexivity.
    assert (Hdig : Z.pos (digits2_pos mz) = 53).
    { rewrite Hmz, digits2_pos_iter. lia. }
    exists mz, (Z.pos d). split; [lia|]. split; [rewrite Hmz; apply iter_xO_value|].
    unfold binary_round_aux, shr_fexp. cbn [shr_record_of_loc Zdigits2].
    assert (Hf : fexp 53 1024 (Z.pos (digits2_pos mz) + (Z.pos (digits2_pos m) - 53))
                 - (Z.pos (digits2_pos m) - 53) = 0)
      by (unfold fexp, emin; lia).
    rewrite Hf. cbn [shr shr_m loc_of_shr_record round_nearest_even shr_record_of_loc Zdigits2].
    rewrite Hf. cbn [shr shr_m].
    destruct (Z.leb_spec (Z.pos (digits2_pos m) - 53) (1024 - 53)); [|lia].
    f_equal. lia.
Qed.

Lemma to_int_whole (sx : bool) (m m' : positive) (k : Z) :
  0 <= k -> Z.pos m' = Z.pos m * 2 ^ k ->
  PyFloat.to_int (S754_finite sx m' (- k)) = Ok (if sx then Z.neg m else Z.pos m).
Proof.
  intros Hk Hv. unfold PyFloat.to_int.
  destruct (Z.leb_spec 0 (- k)) as [H0|H0].
  - assert (k = 0) by lia. subst k. rewrite Z.pow_0_r in *.
    replace (Z.pos m' * 1) with (Z.pos m) by lia.
    destruct sx; reflexivity.
  - rewrite Z.opp_involutive, Hv, Z.div_mul by (apply Z.pow_nonzero; lia).
    destruct sx; reflexivity.
Qed.

(** [int(float(z))] is [z] for a whole number below [2 ^ 53] in magnitude. *)
Lemma float_of_whole_round_trip (z : Z) :
  z <> 0 -> Z.abs z < 2 ^ 53 ->
  exists f, PyFloat.of_int z = Ok f /\ PyFloat.truthy f = true /\ PyFloat.to_int f = Ok z
            /\ binary_normalize PyFloat.prec PyFloat.emax z 0 false = f.
Proof.
  intros Hz Hb. unfold PyFloat.of_int, binary_normalize.
  destruct z as [|m|m]; [contradiction| |].
  - destruct (binary_round_whole false m Hb) as (m' & k & Hk & Hv & ->).
    eexists. split; [reflexivity|]. split; [reflexivity|].
    split; [|reflexivity]. apply (to_int_whole false m m' k); [lia|exact Hv].
  - destruct (binary_round_whole true m Hb) as (m' & k & Hk & Hv & ->).
    eexists. split; [reflexivity|]. split; [reflexivity|].
    split; [|reflexivity]. apply (to_int_whole true m m' k); [lia|exact Hv].
Qed.

Lemma remove_commas_idempotent s :
  PyStr.remove_commas (PyStr.remove_commas s) = PyStr.remove_commas s.
Proof.
  induction s as [|c rest IH]; [reflexivity|].
  cbn [PyStr.remove_commas]. destruct (Ascii.eqb c ",") eqn:E; [exact IH|].
  cbn [PyStr.remove_commas]. rewrite E, IH. reflexivity.
Qed.

Lemma drop_while_none {A : Type} (p : A -> bool) l :
  (forall x, In x l -> p x = false) -> PyStr.drop_while p l = l.
Proof.
  destruct l as [|x l]; [reflexivity|].
  intros H. cbn [PyStr.drop_while]. rewrite (H x (or_introl eq_refl)). reflexivity.
Qed.

Lemma cat_bytes l :
  PyStr.cat (map (fun c => String c EmptyString) l) = string_of_list_ascii l.
Proof.
  induction l as [|c l IH]; [reflexivity|].
  cbn [map PyStr.cat string_of_list_ascii]. rewrite IH. reflexivity.
Qed.

Lemma ascii_digit_opening c :
  PyStr.ascii_digit c = true -> negb (PyStr.is_continuation c) = true.
Proof.
  unfold PyStr.ascii_digit, PyStr.is_continuation. intros H.
  apply andb_true_iff in H as [_ H]. apply Z.leb_le in H.
  apply negb_true_iff, andb_false_iff. left. apply Z.leb_gt. lia.
Qed.

Lemma ascii_digit_not_blank c :
  PyStr.ascii_digit c = true -> PyStr.isspace (String c EmptyString) = false.
Proof.
  unfold PyStr.ascii_digit. intros H. apply andb_true_iff in H as [H1 H2].
  apply Z.leb_le in H1. apply Z.leb_le in H2.
  destruct (PyStr.isspace (String c "")) eqn:E; [|reflexivity].
  exfalso. unfold PyStr.isspace in E. cbn [PyStr.ord] in E.
  destruct (PyStr.code c <? 128) eqn:El; [|apply Z.ltb_ge in El; lia].
  destruct (in_ranges_spec _ _ E) as (r & Hin & Hr).
  assert (Hs : forallb (fun r => (snd r <? 48) || (57 <? fst r)) PyStr.WHITESPACE = true)
    by (vm_compute; reflexivity).
  rewrite forallb_forall in Hs. specialize (Hs r Hin).
  apply orb_true_iff in Hs as [Hs|Hs]; apply Z.ltb_lt in Hs; lia.
Qed.

(** A text of ASCII digits has no blank to trim, and the number parsers
    read it as it is. *)
Lemma strip_digits_text s :
  all_chars PyStr.ascii_digit s = true -> PyStr.strip s = s.
Proof.
  intros H. unfold PyStr.strip.
  rewrite chars_bytes by (eapply all_chars_impl; [|exact H]; exact ascii_digit_opening).
  assert (Hl : forall c, In c (list_ascii_of_string s) -> PyStr.ascii_digit c = true).
  { intros c Hin. rewrite <- (string_of_list_ascii_of_string s), all_chars_of_list in H.
    rewrite forallb_forall in H. exact (H c Hin). }
  set (single := fun c => String c EmptyString).
  assert (Hd : forall l ch, (forall c, In c l -> PyStr.ascii_digit c = true) ->
                            In ch (map single l) -> PyStr.isspace ch = false).
  { intros l ch Hall Hin. apply in_map_iff in Hin as (c & <- & Hc).
    apply ascii_digit_not_blank, Hall, Hc. }
  rewrite (drop_while_none _ _ (fun ch => Hd _ ch Hl)).
  rewrite <- map_rev.
  rewrite drop_while_none.
  - rewrite map_rev, rev_involutive. unfold single. rewrite cat_bytes.
    apply string_of_list_ascii_of_string.
  - intros ch Hin. apply (Hd (rev (list_ascii_of_string s))); [|exact Hin].
    intros c Hc. apply Hl, in_rev, Hc.
Qed.

Lemma to_ascii_digits_text s :
  all_chars PyStr.ascii_digit s = true -> PyStr.to_ascii s = s.
Proof.
  intros H. unfold PyStr.to_ascii.
  rewrite chars_bytes by (eapply all_chars_impl; [|exact H]; exact ascii_digit_opening).
  rewrite map_map. rewrite <- (string_of_list_ascii_of_string s) at 2.
  f_equal. rewrite <- (map_id (list_ascii_of_string s)) at 2.
  apply map_ext_in. intros c Hin. cbn [PyStr.ascii_of_char].
  rewrite <- (string_of_list_ascii_of_string s), all_chars_of_list in H.
  rewrite forallb_forall in H. specialize (H c Hin).
  unfold PyStr.ascii_digit in H. apply andb_true_iff in H as [_ H]. apply Z.leb_le in H.
  destruct (PyStr.code c <? 127) eqn:E; [reflexivity|apply Z.ltb_ge in E; lia].
Qed.

Lemma isdigit_lower c : PyStr.ascii_digit c = true -> PyStr.lower c = c.
Proof.
  unfold PyStr.ascii_digit, PyStr.lower. intros H.
  apply andb_true_iff in H as [_ H]. apply Z.leb_le in H.
  destruct (Z.leb_spec 65 (PyStr.code c)); [lia|reflexivity].
Qed.

(** [float()] of a non-empty text of digits is the float nearest to its
    decimal value. *)
Lemma of_str_digits c rest :
  all_chars PyStr.ascii_digit (String c rest) = true ->
  PyFloat.of_str (String c rest)
  = Some (PyFloat.of_decimal false (PyStr.digits_value 0 (String c rest)) 0).
Proof.
  intros H. pose proof H as H0.
  cbn [all_chars] in H0. apply andb_true_iff in H0 as [Hc _].
  unfold PyFloat.of_str. rewrite (to_ascii_digits_text _ H).
  unfold PyFloat.of_ascii, PyStr.strip_c.
  rewrite (strip_digits PyStr.isspace_c _ isdigit_not_space H).
  unfold PyStr.take_sign. destruct (isdigit_not_sign _ Hc) as [-> ->].
  cbn [PyStr.map_lower]. rewrite (isdigit_lower _ Hc).
  assert (Hi : forall t, String.eqb (String c (PyStr.map_lower rest)) (String "i" t) = false).
  { intros t. cbn [String.eqb]. destruct (Ascii.eqb_spec c "i") as [->|]; [discriminate Hc|reflexivity]. }
  assert (Hn : forall t, String.eqb (String c (PyStr.map_lower rest)) (String "n" t) = false).
  { intros t. cbn [String.eqb]. destruct (Ascii.eqb_spec c "n") as [->|]; [discriminate Hc|reflexivity]. }
  rewrite !Hi, Hn. cbn [orb].
  rewrite (digit_run_all_digits _ H). cbn [String.length Z.of_nat Z.opp].
  rewrite append_empty_r. reflexivity.
Qed.

(** [int(x) if x else None] after [parse_numeric] keeps a whole amount
    below [2 ^ 53] exactly. *)
Lemma parse_numeric_whole v z :
  whole_amount v = Some z -> 0 < z < 2 ^ 53 ->
  exists f, parse_numeric v = Ok (Some f) /\ int_if_truthy (Some f) = Ok (Some z).
Proof.
  intros Hw Hz.
  destruct (float_of_whole_round_trip z ltac:(lia) ltac:(lia)) as (f & Hf & Ht & Hi & Hn).
  assert (Hint : int_if_truthy (Some f) = Ok (Some z)).
  { cbn [int_if_truthy]. rewrite Ht, Hi. reflexivity. }
  exists f. split; [|exact Hint].
  destruct v as [| |z'|s]; try discriminate Hw.
  - cbn in Hw. injection Hw as ->. cbn [parse_numeric]. rewrite Hf. reflexivity.
  - cbn [whole_amount] in Hw. cbv zeta in Hw.
    destruct (String.eqb_spec (PyStr.remove_commas s) "") as [|Hne]; [discriminate Hw|].
    cbn [negb andb] in Hw.
    destruct (all_chars PyStr.ascii_digit (PyStr.remove_commas s)) eqn:Hd; [|discriminate Hw].
    injection Hw as Hv.
    destruct s as [|c0 s0]; [contradiction Hne; reflexivity|].
    cbn [parse_numeric py_str]. set (s := String c0 s0) in *.
    rewrite (strip_digits_text _ Hd).
    destruct (String.eqb_spec (PyStr.remove_commas s) "") as [|_]; [contradiction|].
    cbn [negb].
    destruct (PyStr.remove_commas s) as [|c rest] eqn:Er; [contradiction Hne; reflexivity|].
    rewrite (of_str_digits _ _ Hd), Hv.
    unfold PyFloat.of_decimal. destruct z as [|p|p]; try lia.
    cbn [Z.leb Z.compare]. rewrite Z.pow_0_r, Z.mul_1_r. rewrite Hn. reflexivity.
Qed.

(** X1.  Thousands separators do not matter to the numeric parser: a
    text and the same text with its commas removed parse to the same
    result, so [1,234,567] is read as [1234567]. *)
Theorem parse_numeric_ignores_separators (s : string) :
  parse_numeric (PStr s) = parse_numeric (PStr (PyStr.remove_commas s)).
Proof.
  destruct s as [|c0 s0]; [reflexivity|]. set (s := String c0 s0).
  destruct (PyStr.remove_commas s) as [|c rest] eqn:E.
  - cbn [parse_numeric py_str]. rewrite E. reflexivity.
  - cbn [parse_numeric py_str]. rewrite <- E, remove_commas_idempotent. reflexivity.
Qed.

(** X2.  A price, unit price or ratio that is written in plain digits,
    with or without thousands separators, or that is delivered as an
    integer, and that lies strictly between 0 and 2 ^ 53, is stored as
    exactly that number: the passage through a float loses nothing. *)
Theorem whole_amounts_are_kept_exactly record pref year quarter c z :
  transform_record record pref year quarter = Ok c ->
  0 < z < 2 ^ 53 ->
  (whole_amount (get record "TradePrice") = Some z -> trade_price c = Some z) /\
  (whole_amount (get record "UnitPrice") = Some z -> unit_price c = Some z) /\
  (whole_amount (get record "CoverageRatio") = Some z -> coverage_ratio c = Some z) /\
  (whole_amount (get record "FloorAreaRatio") = Some z -> floor_area_ratio c = Some z).
Proof.
  intros H Hz. apply transform_record_inv in H.
  destruct H as (tp & up & ar & tf & fr & rw & cr & far & Htp & Hup & _ & _ & _ & _
                 & Hcr & Hfar & _ & Itp & Iup & Icr & Ifar & _).
  repeat split; intros Hw;
    destruct (parse_numeric_whole _ _ Hw Hz) as (f & Hp & Hi); congruence.
Qed.

Lemma whole_amounts_are_kept_exactly_witness :
  exists c,
    transform_record (priced "52,000,000") "13" 2023 (Some 1) = Ok c /\
    trade_price c = Some 52000000.
Proof.
  destruct (transform_record (priced "52,000,000") "13" 2023 (Some 1)) as [c|e] eqn:E.
  - exists c. split; [reflexivity|].
    assert (Hz : 0 < 52000000 < 2 ^ 53) by (split; reflexivity).
    destruct (whole_amounts_are_kept_exactly _ _ _ _ _ 52000000 E Hz) as (H1 & _).
    apply H1. reflexivity.
  - vm_compute in E. discriminate E.
Defined.

(** Above [2 ^ 53] the float may round: the stored price differs from
    the digits delivered. *)
Example large_amounts_are_rounded :
  (do f <- parse_numeric (PStr "9007199254740993"); int_if_truthy f)
  = Ok (Some 9007199254740992).
Proof. vm_compute. reflexivity. Qed.

(** X3.  The numeric parser raises on no text, null or boolean: the one
    exception that escapes it is the [OverflowError] of [float()] on an
    integer too large for a float, and such an integer is at least
    2 ^ 53 in magnitude. *)
Theorem parse_numeric_raises_only_overflow (v : pyval) (e : exn) :
  parse_numeric v = Raise e ->
  e = OverflowError /\ exists z, v = PInt z /\ 2 ^ 53 <= Z.abs z.
Proof.
  intros H. destruct v as [|b|z|s].
  - discriminate H.
  - destruct b; vm_compute in H; discriminate H.
  - cbn [parse_numeric] in H.
    assert (He : e = OverflowError).
    { unfold PyFloat.of_int in H.
      destruct (binary_normalize _ _ z 0 false); cbn in H; congruence. }
    split; [exact He|]. exists z. split; [reflexivity|].
    destruct (Z.le_gt_cases (2 ^ 53) (Z.abs z)) as [Hle|Hgt]; [exact Hle|].
    destruct (Z.eq_dec z 0) as [->|Hnz]; [vm_compute in H; discriminate H|].
    destruct (float_of_whole_round_trip z Hnz Hgt) as (f & Hf & _).
    rewrite Hf in H. discriminate H.
  - rewrite parse_numeric_textual in H by reflexivity. discriminate H.
Qed.

Lemma parse_numeric_raises_only_overflow_witness :
  parse_numeric (PInt (2 ^ 1024)) = Raise OverflowError /\
  2 ^ 53 <= Z.abs (2 ^ 1024).
Proof.
  assert (H : parse_numeric (PInt (2 ^ 1024)) = Raise OverflowError)
    by (vm_compute; reflexivity).
  split; [exact H|].
  destruct (parse_numeric_raises_only_overflow _ _ H) as (_ & z & Hz & Hb).
  injection Hz as <-. exact Hb.
Defined.

(** ** Years and codes of the canonical record *)

Lemma slice_to_len n s : (PyStr.len (PyStr.slice_to n s) <= n)%nat.
Proof.
  revert n. induction s as [|c rest IH]; intros n; [cbn; lia|].
  cbn [PyStr.slice_to]. destruct (PyStr.is_continuation c) eqn:E.
  - cbn [PyStr.len]. rewrite E. apply IH.
  - destruct n as [|n]; [cbn; lia|].
    cbn [PyStr.len]. rewrite E. specialize (IH n). lia.
Qed.

Lemma property_type_id_range v n :
  property_type_lookup v = Some n -> 1 <= n <= 10.
Proof.
  destruct v as [| | |s]; try discriminate. cbn [property_type_lookup]. intros H.
  apply elem_of_list_to_map_2 in H.
  repeat (apply elem_of_cons in H as [H|H]; [injection H as _ ->; lia|]).
  apply elem_of_nil in H. contradiction.
Qed.

(** The codes of a canonical record the transformer returned. *)
Lemma transform_record_codes record pref year quarter c :
  transform_record record pref year quarter = Ok c ->
  prefecture_code c = pref /\
  transaction_year c = year /\
  transaction_quarter c = quarter /\
  (forall m, municipality_code c = Some m ->
             get_or record "MunicipalityCode" (PStr "") = PStr m /\ PyStr.len m = 5%nat) /\
  (if truthy (get record "PriceCategory")
   then exists s, get record "PriceCategory" = PStr s /\
                  price_classification c = PyStr.slice_to 2 s
   else price_classification c = "01").
Proof.
  unfold transform_record. intros H.
  bind_inv H. rename E into Em. do 9 (bind_inv H; clear E).
  bind_inv H. rename E into Ep. repeat bind_inv H. injection H as <-.
  cbn [prefecture_code transaction_year transaction_quarter municipality_code
       price_classification].
  split; [reflexivity|]. split; [reflexivity|]. split; [reflexivity|]. split.
  - intros m Hm. subst a.
    destruct (truthy (get_or record "MunicipalityCode" (PStr ""))); [|discriminate Em].
    destruct (get_or record "MunicipalityCode" (PStr "")) as [| | |s]; try discriminate Em.
    cbn [py_len res_bind py_str] in Em.
    destruct (Nat.eqb_spec (PyStr.len s) 5); [|discriminate Em].
    injection Em as <-. split; [reflexivity|assumption].
  - destruct (truthy (get record "PriceCategory")) eqn:Et.
    + rewrite (get_or_truthy _ _ _ Et) in Ep.
      destruct (get record "PriceCategory") as [| | |s]; try discriminate Ep.
      injection Ep as <-. exists s. split; reflexivity.
    + injection Ep as <-. reflexivity.
Qed.

Lemma era_branches_lower_bound s y : era_branches s = Some y -> 1925 <= y.
Proof.
  rewrite era_branches_offset. unfold era_offset, add_offset.
  pose proof (numeral_nonneg s) as Hn.
  destruct (numeral s) as [n|];
    [specialize (Hn n eq_refl)|
     destruct (has_reiwa s), (has_heisei s), (has_showa s); discriminate].
  destruct (has_reiwa s); [|destruct (has_heisei s); [|destruct (has_showa s)]];
    try discriminate; intros H; injection H as <-; lia.
Qed.

(** X4.  Whatever the raw value is, text or not, [parse_building_year]
    raises nothing, and a year it returns is never before 1900: a plain
    year lies in [1900, 2100] and an era year is at least the offset of
    the era.  The upper limit holds for plain years only: an era year
    can lie beyond 2100. *)
Theorem building_year_is_never_before_1900 :
  (forall v, exists r,
      parse_building_year v = Ok r /\ forall y, r = Some y -> 1900 <= y) /\
  parse_building_year (PStr "Reiwa 100") = Ok (Some 2118).
Proof.
  split; [|reflexivity].
  intros v. unfold parse_building_year.
  destruct (truthy v); cbn [negb]; [|exists None; split; [reflexivity|discriminate]].
  assert (Hera : exists r, Ok (era_branches (py_str v)) = Ok r /\
                           forall y, r = Some y -> 1900 <= y).
  { exists (era_branches (py_str v)). split; [reflexivity|].
    intros y Hy. apply era_branches_lower_bound in Hy. lia. }
  assert (Hint : py_int v = Raise TypeError \/ py_int v = Raise ValueError \/
                 exists year, py_int v = Ok year).
  { destruct v as [|b|z|s]; cbn [py_int]; eauto.
    destruct (PyStr.int_of_str s); eauto. }
  destruct Hint as [->|[->|[year ->]]]; cbn [res_bind catch_value_type]; try exact Hera.
  destruct ((1900 <=? year) && (year <=? 2100)) eqn:E; [|exact Hera].
  exists (Some year). split; [reflexivity|]. intros y Hy. injection Hy as <-.
  apply andb_true_iff in E as [E _]. apply Z.leb_le in E. exact E.
Qed.

(** X5.  In a record the transformer returns, the prefecture, the year
    and the quarter are those of the call; a municipality code that is
    not null is the raw code and has exactly five characters; the price
    classification has at most two characters and is [01] when the raw
    record has none; and a property type id that is not null is one of
    the ten ids of the table. *)
Theorem transformed_codes_are_well_formed record pref year quarter c :
  transform_record record pref year quarter = Ok c ->
  prefecture_code c = pref /\ transaction_year c = year /\
  transaction_quarter c = quarter /\
  (forall m, municipality_code c = Some m ->
             get record "MunicipalityCode" = PStr m /\ PyStr.len m = 5%nat) /\
  (PyStr.len (price_classification c) <= 2)%nat /\
  (truthy (get record "PriceCategory") = false -> price_classification c = "01") /\
  (forall n, property_type_id c = Some n -> 1 <= n <= 10).
Proof.
  intros H.
  destruct (transform_record_codes _ _ _ _ _ H) as (Hp & Hy & Hq & Hm & Hpc).
  apply transform_record_inv in H.
  destruct H as (tp & up & ar & tf & fr & rw & cr & far & H). 
  assert (Ht : property_type_id c = property_type_lookup (get_or record "Type" (PStr "")))
    by (do 18 (destruct H as [_ H]); exact H).
  split; [exact Hp|]. split; [exact Hy|]. split; [exact Hq|]. split; [|split; [|split]].
  - intros m Hc. destruct (Hm m Hc) as [Hg Hl]. split; [|exact Hl].
    unfold get_or in Hg. unfold get.
    destruct (record !! "MunicipalityCode") as [v|]; [exact Hg|].
    cbn in Hg. injection Hg as <-. discriminate Hl.
  - destruct (truthy (get record "PriceCategory")).
    + destruct Hpc as (s & _ & ->). apply slice_to_len.
    + rewrite Hpc. vm_compute. lia.
  - intros Hf. rewrite Hf in Hpc. exact Hpc.
  - intros n Hn. rewrite Ht in Hn. exact (property_type_id_range _ _ Hn).
Qed.

Lemma transformed_codes_are_well_formed_witness :
  exists c,
    transform_record (priced "52000000") "13" 2023 (Some 1) = Ok c /\
    prefecture_code c = "13" /\ municipality_code c = Some "13101" /\
    property_type_id c = Some 1 /\ price_classification c = "01".
Proof.
  destruct (transform_record (priced "52000000") "13" 2023 (Some 1)) as [c|e] eqn:E.
  - exists c. split; [reflexivity|].
    destruct (transformed_codes_are_well_formed _ _ _ _ _ E)
      as (Hp & _ & _ & _ & _ & Hpc & _).
    split; [exact Hp|].
    assert (Hc : Ok c = transform_record (priced "52000000") "13" 2023 (Some 1))
      by (symmetry; exact E).
    vm_compute in Hc. injection Hc as ->.
    split; [reflexivity|]. split; [reflexivity|]. apply Hpc. reflexivity.
  - vm_compute in E. discriminate E.
Defined.

(** [str()] of an integer is made of digits and a sign. *)
Lemma string_of_uint_chars (d : Decimal.uint) :
  all_chars (fun c => PyStr.ascii_digit c || Ascii.eqb c "-") (NilEmpty.string_of_uint d) = true.
Proof. induction d; cbn [NilEmpty.string_of_uint all_chars]; try rewrite IHd; reflexivity. Qed.

Lemma str_of_int_chars (z : Z) :
  all_chars (fun c => PyStr.ascii_digit c || Ascii.eqb c "-") (PyStr.str_of_int z) = true.
Proof.
  unfold PyStr.str_of_int, NilEmpty.string_of_int.
  destruct (Z.to_int z) as [d|d]; [apply string_of_uint_chars|].
  cbn [all_chars]. rewrite string_of_uint_chars. reflexivity.
Qed.

Lemma era_offset_none_without_letters s :
  all_chars (fun c => PyStr.ascii_digit c || Ascii.eqb c "-") s = true -> era_branches s = None.
Proof.
  intros H. rewrite era_branches_offset.
  assert (Hno : forall needle,
             all_chars (fun c => PyStr.ascii_digit c || Ascii.eqb c "-") needle = false ->
             PyStr.contains needle s = false).
  { intros needle Hn. destruct (PyStr.contains needle s) eqn:E; [|reflexivity].
    rewrite (contains_all_chars _ _ _ E H) in Hn. discriminate Hn. }
  unfold era_offset, has_reiwa, has_heisei, has_showa.
  rewrite !Hno by reflexivity. reflexivity.
Qed.

(** X6.  A building year delivered as an integer is kept when it lies
    in [1900, 2100] and is null otherwise: its decimal text holds no era
    marker, so no era reading applies; a boolean gives null. *)
Theorem numeric_building_year (z : Z) (b : bool) :
  parse_building_year (PInt z) = Ok (if in_year_range z then Some z else None) /\
  parse_building_year (PBool b) = Ok None.
Proof.
  split.
  - unfold parse_building_year. cbn [truthy py_int py_str res_bind catch_value_type].
    unfold in_year_range.
    destruct (Z.eqb_spec z 0) as [->|Hz]; [reflexivity|]. cbn [negb].
    destruct ((1900 <=? z) && (z <=? 2100)); [reflexivity|].
    rewrite (era_offset_none_without_letters _ (str_of_int_chars z)). reflexivity.
  - destruct b; reflexivity.
Qed.

(** ** The tables under the loader *)

Lemma elem_of_hashes h rows : h ∈ hashes rows <-> h ∈ source_hash <$> rows.
Proof.
  induction rows as [|r rows IH].
  - rewrite hashes_nil. cbn. set_solver.
  - rewrite hashes_cons, fmap_cons, elem_of_cons, <- IH. set_solver.
Qed.

Lemma insert_do_nothing_unique values : forall rows count,
  NoDup (source_hash <$> rows) ->
  NoDup (source_hash <$> fst (insert_do_nothing rows count values)).
Proof.
  induction values as [|v values IH]; intros rows count H; [exact H|].
  cbn [insert_do_nothing]. destruct (has_hash (source_hash v) rows) eqn:E; [apply IH, H|].
  apply IH. rewrite fmap_app. apply NoDup_app. split; [exact H|]. split.
  - intros h Hh Hv. cbn in Hv. apply list_elem_of_singleton in Hv. subst h.
    apply has_hash_false in E. apply E, elem_of_hashes, Hh.
  - cbn. apply NoDup_singleton.
Qed.

Lemma execute_pages_unique pages : forall rows count,
  NoDup (source_hash <$> rows) ->
  NoDup (source_hash <$>
           fst (fold_left (fun acc page => insert_do_nothing (fst acc) 0 page) pages
                          (rows, count))).
Proof.
  induction pages as [|page pages IH]; intros rows count H; [exact H|].
  cbn [fold_left].
  destruct (insert_do_nothing (fst (rows, count)) 0 page) as [rows' count'] eqn:E.
  apply IH. replace rows' with (fst (insert_do_nothing rows 0 page)) by (cbn [fst] in E; rewrite E; reflexivity).
  apply insert_do_nothing_unique, H.
Qed.

Lemma insert_do_nothing_origin values : forall rows count r,
  r ∈ fst (insert_do_nothing rows count values) -> r ∈ rows \/ r ∈ values.
Proof.
  induction values as [|v values IH]; intros rows count r H; [left; exact H|].
  cbn [insert_do_nothing] in H. destruct (has_hash (source_hash v) rows).
  - destruct (IH _ _ _ H) as [Hr|Hr]; [left; exact Hr|right; right; exact Hr].
  - destruct (IH _ _ _ H) as [Hr|Hr]; [|right; right; exact Hr].
    apply elem_of_app in Hr as [Hr|Hr]; [left; exact Hr|].
    apply list_elem_of_singleton in Hr. subst r. right. left.
Qed.

Lemma execute_pages_origin pages : forall rows count r,
  r ∈ fst (fold_left (fun acc page => insert_do_nothing (fst acc) 0 page) pages (rows, count)) ->
  r ∈ rows \/ r ∈ concat pages.
Proof.
  induction pages as [|page pages IH]; intros rows count r H; [left; exact H|].
  cbn [fold_left] in H.
  destruct (insert_do_nothing (fst (rows, count)) 0 page) as [rows' count'] eqn:E.
  cbn [fst] in E.
  destruct (IH _ _ _ H) as [Hr|Hr].
  - replace rows' with (fst (insert_do_nothing rows 0 page)) in Hr by (rewrite E; reflexivity).
    destruct (insert_do_nothing_origin _ _ _ _ Hr) as [Hr'|Hr']; [left; exact Hr'|].
    right. cbn [concat]. apply elem_of_app. left. exact Hr'.
  - right. cbn [concat]. apply elem_of_app. right. exact Hr.
Qed.

Lemma ensure_municipality_exists_prefectures st code pref name :
  prefectures (ensure_municipality_exists st code pref name) = prefectures st.
Proof.
  unfold ensure_municipality_exists.
  destruct (String.eqb code "" || negb (Nat.eqb (PyStr.len code) 5)); [reflexivity|].
  destruct (municipalities st !! code); reflexivity.
Qed.

Lemma ensure_municipalities_prefectures records pref : forall st seen,
  prefectures (ensure_municipalities st seen records pref) = prefectures st.
Proof.
  induction records as [|r records IH]; intros st seen; [reflexivity|].
  cbn [ensure_municipalities]. destruct (municipality_code r) as [c|]; [|apply IH].
  destruct (negb (String.eqb c "") && negb (bool_decide (c ∈ seen))); [|apply IH].
  rewrite IH. apply ensure_municipality_exists_prefectures.
Qed.

Lemma ensure_municipality_exists_grows st code pref name :
  municipalities st ⊆ municipalities (ensure_municipality_exists st code pref name).
Proof.
  unfold ensure_municipality_exists.
  destruct (String.eqb code "" || negb (Nat.eqb (PyStr.len code) 5)); [reflexivity|].
  destruct (municipalities st !! code) eqn:E; [reflexivity|].
  cbn [municipalities]. apply insert_subseteq, E.
Qed.

Lemma ensure_municipalities_grows records pref : forall st seen,
  municipalities st ⊆ municipalities (ensure_municipalities st seen records pref).
Proof.
  induction records as [|r records IH]; intros st seen; [reflexivity|].
  cbn [ensure_municipalities]. destruct (municipality_code r) as [c|]; [|apply IH].
  destruct (negb (String.eqb c "") && negb (bool_decide (c ∈ seen))); [|apply IH].
  etrans; [apply ensure_municipality_exists_grows|apply IH].
Qed.

(** What one call of the loader does to the three tables. *)
Lemma insert_transactions_tables st records pref :
  let st' := fst (insert_transactions st records pref) in
  prefectures st' = prefectures st /\
  municipalities st' = municipalities (ensure_municipalities st ∅ records pref) /\
  transactions st `prefix_of` transactions st' /\
  (forall r, r ∈ transactions st' -> r ∈ transactions st \/ r ∈ records) /\
  (unique_hashes st -> unique_hashes st').
Proof.
  cbv zeta. destruct records as [|r0 records].
  - cbn [insert_transactions fst ensure_municipalities].
    split; [reflexivity|]. split; [reflexivity|]. split; [reflexivity|].
    split; [intros r H; left; exact H|intros H; exact H].
  - rewrite insert_transactions_cons. cbv zeta. cbn [fst prefectures municipalities transactions].
    rewrite ensure_municipalities_prefectures, ensure_municipalities_rows.
    split; [reflexivity|]. split; [reflexivity|].
    unfold execute_values. set (rs := r0 :: records).
    split; [|split].
    + destruct (execute_pages_spec (paginate (length rs) PAGE_SIZE rs) (transactions st) (-1))
        as (new & -> & _). exists new. reflexivity.
    + intros r H. apply execute_pages_origin in H. rewrite execute_values_pages in H. exact H.
    + unfold unique_hashes. cbn [transactions]. apply execute_pages_unique.
Qed.

(** ** The attempts of the FX fetch *)

Lemma fetch_fx_rate_attempts env depth rate_date currency max_retries :
  fetch_fx_rate env (S depth) rate_date currency max_retries
  = fx_attempts env depth rate_date currency max_retries (Z.to_nat max_retries) 0.
Proof. reflexivity. Qed.

Section FxAttempts.

Context (env : Env) (depth : nat) (rate_date : Z) (currency : string) (max_retries : Z).

Local Abbreviation asked w := (length (fx_requests_of (trace w))).

Lemma fx_attempts_failure remaining attempt w :
  fx_api env (asked w) rate_date currency = FxRequestFailure ->
  fx_attempts env depth rate_date currency max_retries (S remaining) attempt w
  = fx_attempts env depth rate_date currency max_retries remaining (attempt + 1)
      (extend w (if attempt <? max_retries - 1
                 then [EvFxRequest rate_date currency; EvSleep 1000]
                 else [EvFxRequest rate_date currency])).
Proof.
  intros H. cbn [fx_attempts]. unfold bind at 1, fx_get. rewrite H.
  destruct (attempt <? max_retries - 1); [|reflexivity].
  unfold bind, sleep, log. cbn [store fx_rates trace]. unfold extend.
  rewrite <- app_assoc. reflexivity.
Qed.

Lemma fx_attempts_without_rate remaining attempt w :
  without_rate (fx_api env (asked w) rate_date currency) = true ->
  fx_attempts env depth rate_date currency max_retries (S remaining) attempt w
  = fx_attempts env depth rate_date currency max_retries remaining (attempt + 1)
      (extend w [EvFxRequest rate_date currency]).
Proof.
  intros H. cbn [fx_attempts]. unfold bind at 1, fx_get. fold (asked w).
  destruct (fx_api env (asked w) rate_date currency) as [status rate|]; [|discriminate H].
  cbn [without_rate] in H. destruct (status =? 200).
  - destruct rate; [discriminate H|reflexivity].
  - apply negb_true_iff in H. rewrite H. reflexivity.
Qed.

Lemma fx_attempts_rate remaining attempt w r :
  fx_api env (asked w) rate_date currency = FxReply 200 (Some r) ->
  fx_attempts env depth rate_date currency max_retries (S remaining) attempt w
  = (Ok (Some r), extend w [EvFxRequest rate_date currency]).
Proof.
  intros H. cbn [fx_attempts]. unfold bind at 1, fx_get. rewrite H.
  reflexivity.
Qed.

Lemma count_after_attempt w (b : bool) :
  asked (extend w (if b then [EvFxRequest rate_date currency; EvSleep 1000]
                   else [EvFxRequest rate_date currency]))
  = S (asked w).
Proof.
  unfold extend. cbn [trace]. rewrite fx_requests_of_app, length_app.
  destruct b; cbn; lia.
Qed.

(** Failed requests are tried again after a pause until one is answered. *)
Lemma fx_attempts_recover r k : forall remaining attempt w,
  (k < remaining)%nat -> attempt + Z.of_nat remaining = max_retries ->
  (forall i, (i < k)%nat ->
     fx_api env (asked w + i) rate_date currency = FxRequestFailure) ->
  fx_api env (asked w + k) rate_date currency = FxReply 200 (Some r) ->
  fx_attempts env depth rate_date currency max_retries remaining attempt w
  = (Ok (Some r),
     extend w (retried rate_date currency k ++ [EvFxRequest rate_date currency])).
Proof.
  induction k as [|k IH]; intros remaining attempt w Hk Hsum Hfail Hok.
  - destruct remaining as [|remaining]; [lia|].
    rewrite Nat.add_0_r in Hok. apply fx_attempts_rate, Hok.
  - destruct remaining as [|remaining]; [lia|].
    rewrite fx_attempts_failure
      by (specialize (Hfail O ltac:(lia)); rewrite Nat.add_0_r in Hfail; exact Hfail).
    destruct (Z.ltb_spec attempt (max_retries - 1)); [|lia].
    rewrite (IH remaining (attempt + 1)).
    + rewrite extend_extend. reflexivity.
    + lia.
    + lia.
    + intros i Hi. rewrite (count_after_attempt w true).
      replace (S (asked w) + i)%nat with (asked w + S i)%nat by lia. apply Hfail. lia.
    + rewrite (count_after_attempt w true).
      replace (S (asked w) + k)%nat with (asked w + S k)%nat by lia. exact Hok.
Qed.

(** When every attempt fails the fetch gives up after the last one. *)
Lemma fx_attempts_give_up : forall remaining attempt w,
  attempt + Z.of_nat remaining = max_retries ->
  (forall i, (i < remaining)%nat ->
     fx_api env (asked w + i) rate_date currency = FxRequestFailure) ->
  fx_attempts env depth rate_date currency max_retries remaining attempt w
  = (Ok None, extend w (failed_attempts rate_date currency remaining)).
Proof.
  induction remaining as [|remaining IH]; intros attempt w Hsum Hfail.
  - cbn. rewrite extend_nil. reflexivity.
  - rewrite fx_attempts_failure
      by (specialize (Hfail O ltac:(lia)); rewrite Nat.add_0_r in Hfail; exact Hfail).
    rewrite IH.
    + rewrite extend_extend. f_equal. f_equal.
      destruct remaining as [|remaining].
      * destruct (Z.ltb_spec attempt (max_retries - 1)); [lia|reflexivity].
      * destruct (Z.ltb_spec attempt (max_retries - 1)); [reflexivity|lia].
    + lia.
    + intros i Hi. rewrite count_after_attempt.
      replace (S (asked w) + i)%nat with (asked w + S i)%nat by lia. apply Hfail. lia.
Qed.

(** Replies without a rate use up the attempts with no pause. *)
Lemma fx_attempts_without_rates : forall remaining attempt w,
  (forall i, (i < remaining)%nat ->
     without_rate (fx_api env (asked w + i) rate_date currency) = true) ->
  fx_attempts env depth rate_date currency max_retries remaining attempt w
  = (Ok None, extend w (repeat (EvFxRequest rate_date currency) remaining)).
Proof.
  induction remaining as [|remaining IH]; intros attempt w H.
  - cbn. rewrite extend_nil. reflexivity.
  - rewrite fx_attempts_without_rate
      by (specialize (H O ltac:(lia)); rewrite Nat.add_0_r in H; exact H).
    rewrite IH.
    + rewrite extend_extend. reflexivity.
    + intros i Hi. rewrite (count_after_attempt w false).
      replace (S (asked w) + i)%nat with (asked w + S i)%nat by lia. apply H. lia.
Qed.

End FxAttempts.

(** X7.  A request to the FX service that fails is tried again after a
    pause of one second, [max_retries] times in all: when the first [k]
    requests fail and the next is answered with a rate, that rate is
    returned after [k] pauses; when all [max_retries] requests fail the
    fetch returns no rate, with no pause after the last one and no
    exception. *)
Theorem fetch_fx_rate_retries_failed_requests env depth rate_date currency max_retries w :
  let n := length (fx_requests_of (trace w)) in
  (forall r k,
      (k < Z.to_nat max_retries)%nat ->
      (forall i, (i < k)%nat -> fx_api env (n + i) rate_date currency = FxRequestFailure) ->
      fx_api env (n + k) rate_date currency = FxReply 200 (Some r) ->
      fetch_fx_rate env (S depth) rate_date currency max_retries w
      = (Ok (Some r),
         extend w (retried rate_date currency k ++ [EvFxRequest rate_date currency]))) /\
  ((forall i, (i < Z.to_nat max_retries)%nat ->
      fx_api env (n + i) rate_date currency = FxRequestFailure) ->
   fetch_fx_rate env (S depth) rate_date currency max_retries w
   = (Ok None, extend w (failed_attempts rate_date currency (Z.to_nat max_retries)))).
Proof.
  cbv zeta. rewrite fetch_fx_rate_attempts. split.
  - intros r k Hk Hfail Hok. apply fx_attempts_recover; [exact Hk|lia|exact Hfail|exact Hok].
  - intros Hfail. destruct (Z.le_gt_cases 0 max_retries) as [Hm|Hm].
    + apply fx_attempts_give_up; [lia|exact Hfail].
    + replace (Z.to_nat max_retries) with O by lia. cbn. rewrite extend_nil. reflexivity.
Qed.

Lemma fetch_fx_rate_retries_failed_requests_witness :
  fetch_fx_rate fx_flaky 1000 738931 "USD" 3 empty_world
  = (Ok (Some (S754_finite false 1 (-7))),
     extend empty_world
       [EvFxRequest 738931 "USD"; EvSleep 1000; EvFxRequest 738931 "USD"; EvSleep 1000;
        EvFxRequest 738931 "USD"]) /\
  fetch_fx_rate fx_down 1000 738931 "USD" 3 empty_world
  = (Ok None,
     extend empty_world
       [EvFxRequest 738931 "USD"; EvSleep 1000; EvFxRequest 738931 "USD"; EvSleep 1000;
        EvFxRequest 738931 "USD"]).
Proof.
  split.
  - destruct (fetch_fx_rate_retries_failed_requests fx_flaky 999 738931 "USD" 3 empty_world)
      as [Hrecover _].
    apply (Hrecover (S754_finite false 1 (-7)) 2%nat); [vm_compute; lia| |reflexivity].
    intros i Hi. destruct i as [|[|i]]; [reflexivity|reflexivity|lia].
  - destruct (fetch_fx_rate_retries_failed_requests fx_down 999 738931 "USD" 3 empty_world)
      as [_ Hgive_up].
    apply Hgive_up. intros i _. reflexivity.
Defined.

(** X8.  A reply of the FX service that carries no rate and is not a
    not-found reply (status 200 without the currency, or an error
    status) uses up one attempt at once: after [max_retries] such
    replies, with no pause between the requests, the fetch returns no
    rate and raises nothing. *)
Theorem fetch_fx_rate_gives_up_without_rate env depth rate_date currency max_retries w :
  (forall i, (i < Z.to_nat max_retries)%nat ->
     without_rate (fx_api env (length (fx_requests_of (trace w)) + i) rate_date currency)
     = true) ->
  fetch_fx_rate env (S depth) rate_date currency max_retries w
  = (Ok None, extend w (repeat (EvFxRequest rate_date currency) (Z.to_nat max_retries))).
Proof. intros H. rewrite fetch_fx_rate_attempts. apply fx_attempts_without_rates, H. Qed.

Lemma fetch_fx_rate_gives_up_without_rate_witness :
  fetch_fx_rate steady_feed 1000 738931 "USD" 3 empty_world
  = (Ok None,
     extend empty_world
       [EvFxRequest 738931 "USD"; EvFxRequest 738931 "USD"; EvFxRequest 738931 "USD"]).
Proof.
  apply (fetch_fx_rate_gives_up_without_rate steady_feed 999 738931 "USD" 3 empty_world).
  intros i _. reflexivity.
Defined.

(** X9.  The day before is asked once: when the requested day is answered
    not-found and the request for the day before fails, the fetch
    returns no rate after these two requests, with no pause and no
    further attempt, however many attempts the caller allowed. *)
Theorem fallback_day_is_asked_once env depth rate_date currency max_retries w :
  1 <= max_retries -> 2 <= rate_date ->
  not_found (fx_api env (length (fx_requests_of (trace w))) rate_date currency) = true ->
  fx_api env (S (length (fx_requests_of (trace w)))) (rate_date - 1) currency
  = FxRequestFailure ->
  fetch_fx_rate env (S (S depth)) rate_date currency max_retries w
  = (Ok None,
     extend w [EvFxRequest rate_date currency; EvFxRequest (rate_date - 1) currency]).
Proof.
  intros Hm Hd Hnf Hfail.
  rewrite (fetch_fx_rate_not_found env currency (S depth) rate_date max_retries w Hm Hd Hnf).
  rewrite fetch_fx_rate_attempts.
  rewrite (fx_attempts_give_up env depth (rate_date - 1) currency 1 1 0).
  - rewrite extend_extend. reflexivity.
  - reflexivity.
  - intros i Hi. assert (i = O) by lia. subst i.
    rewrite fx_request_count_after, Nat.add_0_r. exact Hfail.
Qed.

Lemma fallback_day_is_asked_once_witness :
  fetch_fx_rate fx_closed_then_down 1000 738931 "USD" 3 empty_world
  = (Ok None, extend empty_world [EvFxRequest 738931 "USD"; EvFxRequest 738930 "USD"]).
Proof.
  apply (fallback_day_is_asked_once fx_closed_then_down 998 738931 "USD" 3 empty_world);
    [lia|lia|reflexivity|reflexivity].
Defined.

(** ** The FX refresh *)

Lemma fx_events_app evs1 evs2 : fx_events evs1 -> fx_events evs2 -> fx_events (evs1 ++ evs2).
Proof. unfold fx_events. rewrite requests_of_app. intros -> ->. reflexivity. Qed.

Lemma fx_only_ret {A : Type} (a : A) : fx_only (ret a).
Proof. intros w. exists []. cbn. rewrite extend_nil. split; reflexivity. Qed.

Lemma fx_only_raise {A : Type} (e : exn) : fx_only (raise (A := A) e).
Proof. intros w. exists []. cbn. rewrite extend_nil. split; reflexivity. Qed.

Lemma fx_only_lift {A : Type} (r : res A) : fx_only (lift r).
Proof. intros w. exists []. cbn. rewrite extend_nil. split; reflexivity. Qed.

Lemma fx_only_sleep ms : fx_only (sleep ms).
Proof. intros w. exists [EvSleep ms]. split; reflexivity. Qed.

Lemma fx_only_fx_get env rate_date currency : fx_only (fx_get env rate_date currency).
Proof. intros w. exists [EvFxRequest rate_date currency]. split; reflexivity. Qed.

Lemma fx_only_bind {A B : Type} (m : M A) (k : A -> M B) :
  fx_only m -> (forall a, fx_only (k a)) -> fx_only (bind m k).
Proof.
  intros Hm Hk w. unfold bind. destruct (Hm w) as (evs1 & E1 & H1).
  destruct (m w) as [[a|e] w1]; cbn [snd] in E1; subst w1.
  - destruct (Hk a (extend w evs1)) as (evs2 & -> & H2).
    exists (evs1 ++ evs2)%list. rewrite extend_extend.
    split; [reflexivity|apply fx_events_app; assumption].
  - exists evs1. split; [reflexivity|exact H1].
Qed.

Lemma fetch_fx_rate_fx_only env currency : forall depth rate_date max_retries,
  fx_only (fetch_fx_rate env depth rate_date currency max_retries).
Proof.
  induction depth as [|depth IH]; intros rate_date max_retries; [apply fx_only_raise|].
  cbn [fetch_fx_rate].
  generalize (Z.to_nat max_retries) as remaining. generalize 0 as attempt.
  intros attempt remaining. revert attempt.
  induction remaining as [|remaining IHr]; intros attempt; [apply fx_only_ret|].
  apply fx_only_bind; [apply fx_only_fx_get|].
  intros [status rate|].
  - destruct (status =? 200); [destruct rate; [apply fx_only_ret|apply IHr]|].
    destruct (status =? 404); [|apply IHr].
    apply fx_only_bind; [apply fx_only_lift|]. intros alt. apply IH.
  - destruct (attempt <? max_retries - 1); [|apply IHr].
    apply fx_only_bind; [apply fx_only_sleep|]. intros _. apply IHr.
Qed.

Lemma fx_only_fx_rate_missing currency year quarter :
  fx_only (fx_rate_missing currency year quarter).
Proof. intros w. exists []. cbn. rewrite extend_nil. split; reflexivity. Qed.

Lemma refresh_quarter_fx_only env year quarter rate_date currencies : forall rates,
  fx_only (refresh_quarter env year quarter rate_date currencies rates).
Proof.
  induction currencies as [|c currencies IH]; intros rates; [apply fx_only_ret|].
  cbn [refresh_quarter]. apply fx_only_bind; [apply fx_only_fx_rate_missing|].
  intros [|]; [|apply IH].
  apply fx_only_bind; [apply fetch_fx_rate_fx_only|]. intros rate.
  apply fx_only_bind; [apply fx_only_sleep|]. intros _. apply IH.
Qed.

Lemma refresh_quarters_fx_only env quarters : forall rates,
  fx_only (refresh_quarters env quarters rates).
Proof.
  induction quarters as [|[year quarter] quarters IH]; intros rates; [apply fx_only_ret|].
  cbn [refresh_quarters]. apply fx_only_bind; [apply fx_only_lift|]. intros rate_date.
  apply fx_only_bind; [apply refresh_quarter_fx_only|]. intros rates'. apply IH.
Qed.

Lemma triple_bind {A B : Type} Pre (Mid : A -> World -> Prop) Post (m : M A) (k : A -> M B) :
  triple Pre m Mid -> (forall a, triple (Mid a) (k a) Post) ->
  triple Pre (bind m k) Post.
Proof.
  intros Hm Hk w b w' HPre Hrun. unfold bind in Hrun.
  destruct (m w) as [[a|e] w1] eqn:E; [|discriminate Hrun].
  exact (Hk a w1 b w' (Hm w a w1 HPre E) Hrun).
Qed.

Lemma triple_ret {A : Type} (Pre : World -> Prop) (Post : A -> World -> Prop) (a : A) :
  (forall w, Pre w -> Post a w) -> triple Pre (ret a) Post.
Proof. intros H w a' w' HPre Hrun. injection Hrun as <- <-. exact (H w HPre). Qed.

Lemma triple_weaken {A : Type} (Pre Pre' : World -> Prop) (Post Post' : A -> World -> Prop)
    (m : M A) :
  triple Pre' m Post' -> (forall w, Pre w -> Pre' w) ->
  (forall a w, Post' a w -> Post a w) -> triple Pre m Post.
Proof. intros H H1 H2 w a w' HPre Hrun. exact (H2 _ _ (H w a w' (H1 _ HPre) Hrun)). Qed.

(** A computation that only adds FX events keeps the FX table. *)
Lemma fx_only_table {A : Type} (m : M A) table :
  fx_only m ->
  triple (fun w => fx_rates w = table) m (fun _ w' => fx_rates w' = table).
Proof.
  intros Hm w a w' HPre Hrun. destruct (Hm w) as (evs & E & _).
  rewrite Hrun in E. cbn [snd] in E. subst w'. exact HPre.
Qed.

Lemma refresh_quarter_entries env table year quarter rate_date currencies : forall rates,
  triple (fun w => fx_rates w = table)
         (refresh_quarter env year quarter rate_date currencies rates)
         (fun rates' w' =>
            fx_rates w' = table /\
            exists new, rates' = (rates ++ new)%list /\
                        Forall (fetched_entry table currencies year quarter rate_date) new).
Proof.
  induction currencies as [|c currencies IH]; intros rates.
  - cbn [refresh_quarter]. apply triple_ret. intros w H. split; [exact H|].
    exists []. rewrite app_nil_r. split; constructor.
  - assert (Htail : forall rates0 new0,
               Forall (fetched_entry table (c :: currencies) year quarter rate_date) new0 ->
               triple (fun w => fx_rates w = table)
                 (refresh_quarter env year quarter rate_date currencies (rates0 ++ new0)%list)
                 (fun rates' w' =>
                    fx_rates w' = table /\
                    exists new, rates' = (rates0 ++ new)%list /\
                      Forall (fetched_entry table (c :: currencies) year quarter rate_date) new)).
    { intros rates0 new0 H0 w rates' w' HPre Hrun.
      destruct (IH _ w rates' w' HPre Hrun) as (Ht & new & -> & Hnew). split; [exact Ht|].
      exists (new0 ++ new)%list. rewrite app_assoc. split; [reflexivity|].
      apply Forall_app. split; [exact H0|].
      eapply Forall_impl; [exact Hnew|].
      intros entry (c' & row & -> & Hin & Hnone & Hd).
      exists c', row. repeat split; [right; exact Hin|exact Hnone|exact Hd]. }
    cbn [refresh_quarter].
    apply (triple_bind _ (fun missing w' =>
              fx_rates w' = table /\
              missing = match table !! (c, year, quarter) with Some _ => false | None => true end)).
    { intros w b w' HPre Hrun. unfold fx_rate_missing in Hrun. injection Hrun as <- <-.
      rewrite HPre. split; reflexivity. }
    intros missing. destruct missing.
    2:{ intros w rates' w' [HPre _] Hrun.
        apply (Htail rates [] (List.Forall_nil _) w rates' w' HPre).
        rewrite app_nil_r. exact Hrun. }
    apply (triple_bind _ (fun _ w' =>
              fx_rates w' = table /\ table !! (c, year, quarter) = None)).
    { intros w rate w' [HPre Hm] Hrun. split.
      - exact (fx_only_table _ table (fetch_fx_rate_fx_only env c _ _ _) w rate w' HPre Hrun).
      - destruct (table !! (c, year, quarter)); [discriminate Hm|reflexivity]. }
    intros rate.
    apply (triple_bind _ (fun _ w' =>
              fx_rates w' = table /\ table !! (c, year, quarter) = None)).
    { intros w u w' [HPre Hn] Hrun. split; [|exact Hn].
      exact (fx_only_table _ table (fx_only_sleep 200) w u w' HPre Hrun). }
    intros _. destruct rate as [r|].
    + intros w rates' w' [HPre Hn] Hrun.
      apply (Htail rates [(c, year, quarter, {| fx_rate := r; fx_rate_date := rate_date |})]
               ltac:(constructor; [|constructor];
                     exists c, {| fx_rate := r; fx_rate_date := rate_date |};
                     repeat split; [left; reflexivity|exact Hn])
               w rates' w' HPre Hrun).
    + intros w rates' w' [HPre _] Hrun.
      apply (Htail rates [] (List.Forall_nil _) w rates' w' HPre).
      rewrite app_nil_r. exact Hrun.
Qed.

Lemma refresh_quarters_entries env table quarters : forall rates,
  triple (fun w => fx_rates w = table)
         (refresh_quarters env quarters rates)
         (fun rates' w' =>
            fx_rates w' = table /\
            exists new, rates' = (rates ++ new)%list /\
                        Forall (refreshed_entry table quarters) new).
Proof.
  induction quarters as [|[year quarter] quarters IH]; intros rates.
  - cbn [refresh_quarters]. apply triple_ret. intros w H. split; [exact H|].
    exists []. rewrite app_nil_r. split; constructor.
  - cbn [refresh_quarters]. intros w rates' w' HPre Hrun.
    unfold bind at 1, lift in Hrun. fold (mid_quarter_day year quarter) in Hrun.
    destruct (mid_quarter_day year quarter) as [rate_date|e] eqn:Ed; [|discriminate Hrun].
    unfold bind at 1 in Hrun.
    destruct (refresh_quarter env year quarter rate_date FX_CURRENCIES rates w)
      as [[rates1|e] w1] eqn:E1; [|discriminate Hrun].
    destruct (refresh_quarter_entries env table year quarter rate_date FX_CURRENCIES rates
                w rates1 w1 HPre E1) as (H1 & new1 & -> & Hnew1).
    destruct (IH _ w1 rates' w' H1 Hrun) as (H2 & new2 & -> & Hnew2).
    split; [exact H2|]. exists (new1 ++ new2)%list. rewrite app_assoc.
    split; [reflexivity|]. apply Forall_app. split.
    + eapply Forall_impl; [exact Hnew1|]. intros entry Hentry.
      exists year, quarter, rate_date. split; [left; reflexivity|]. split; assumption.
    + eapply Forall_impl; [exact Hnew2|].
      intros entry (y & q & d & Hin & Hd & Hentry).
      exists y, q, d. split; [right; exact Hin|]. split; assumption.
Qed.

Lemma upsert_lookup (rates : list (string * Z * Z * FxRow)) :
  forall (table : gmap (string * Z * Z) FxRow) key row,
  fold_left (fun table row => <[fst row := snd row]> table) rates table !! key = Some row ->
  table !! key = Some row \/ In (key, row) rates.
Proof.
  induction rates as [|[k r] rates IH]; intros table key row H; [left; exact H|].
  cbn [fold_left fst snd] in H. destruct (IH _ _ _ H) as [Hl|Hin].
  - destruct (decide (k = key)) as [->|Hne].
    + rewrite lookup_insert_eq in Hl. injection Hl as ->. right. left. reflexivity.
    + rewrite lookup_insert_ne in Hl by exact Hne. left. exact Hl.
  - right. right. exact Hin.
Qed.

Lemma upsert_keeps (rates : list (string * Z * Z * FxRow)) :
  forall (table : gmap (string * Z * Z) FxRow) key row,
  table !! key = Some row -> (forall entry, In entry rates -> fst entry <> key) ->
  fold_left (fun table row => <[fst row := snd row]> table) rates table !! key = Some row.
Proof.
  induction rates as [|[k r] rates IH]; intros table key row H Hk; [exact H|].
  cbn [fold_left fst snd]. apply IH.
  - rewrite lookup_insert_ne; [exact H|]. exact (Hk (k, r) (or_introl eq_refl)).
  - intros entry Hin. apply Hk. right. exact Hin.
Qed.

(** What a refresh does to the world: it adds FX events, and when it
    returns the table is the old one with the fetched rates written
    over it; when it raises the table is the old one. *)
Lemma refresh_fx_rates_run env start_year w :
  let checked := quarters_to_check start_year (now_year env) ((now_month env - 1) / 3 + 1) in
  exists evs table,
    snd (refresh_fx_rates env start_year w)
    = {| store := store w; fx_rates := table; trace := (trace w ++ evs)%list |} /\
    fx_events evs /\
    match fst (refresh_fx_rates env start_year w) with
    | Ok _ =>
        exists rates,
          Forall (refreshed_entry (fx_rates w) checked) rates /\
          table = fold_left (fun table row => <[fst row := snd row]> table) rates (fx_rates w)
    | Raise _ => table = fx_rates w
    end.
Proof.
  cbv zeta. unfold refresh_fx_rates. cbv zeta.
  set (checked := quarters_to_check _ _ _). unfold bind.
  destruct (refresh_quarters_fx_only env checked [] w) as (evs & E & Hevs).
  pose proof (refresh_quarters_entries env (fx_rates w) checked [] w) as Hent.
  destruct (refresh_quarters env checked [] w) as [[rates|e] w1]; cbn [snd] in E; subst w1.
  - destruct (Hent rates _ eq_refl eq_refl) as (_ & new & Hr & Hnew).
    rewrite app_nil_l in Hr. subst new.
    destruct rates as [|entry rates].
    + exists evs, (fx_rates w). cbn [ret fst snd]. split; [reflexivity|]. split; [exact Hevs|].
      exists []. split; [constructor|reflexivity].
    + exists evs, (fold_left (fun table row => <[fst row := snd row]> table)
                             (entry :: rates) (fx_rates w)).
      cbn [upsert_fx_rates fst snd extend store fx_rates trace].
      split; [reflexivity|]. split; [exact Hevs|].
      exists (entry :: rates). split; [exact Hnew|reflexivity].
  - exists evs, (fx_rates w). cbn [fst snd]. split; [reflexivity|]. split; [exact Hevs|reflexivity].
Qed.

Lemma in_range a b x : In x (range a b) <-> a <= x < b.
Proof.
  unfold range. rewrite in_map_iff. split.
  - intros (i & <- & Hi). apply in_seq in Hi. lia.
  - intros H. exists (Z.to_nat (x - a)). split; [lia|]. apply in_seq. lia.
Qed.

Lemma quarters_to_check_years start_year current_year current_quarter year quarter :
  In (year, quarter) (quarters_to_check start_year current_year current_quarter) ->
  start_year <= year <= current_year.
Proof.
  unfold quarters_to_check. rewrite in_flat_map.
  intros (y & Hy & Hin). apply in_range in Hy. apply in_flat_map in Hin as (q & _ & Hin).
  destruct ((y >? current_year) || ((y =? current_year) && (q >? current_quarter))) eqn:E;
    [destruct Hin|].
  destruct Hin as [Hin|[]]. injection Hin as -> _.
  apply orb_false_iff in E as [E _]. rewrite Z.gtb_ltb in E. apply Z.ltb_ge in E. lia.
Qed.

(** X10.  The quarters the FX refresh checks are exactly the quarters from
    the first of [start_year] to the current one, the current quarter
    included and no later quarter. *)
Theorem quarters_to_check_spec start_year current_year current_quarter year quarter :
  In (year, quarter) (quarters_to_check start_year current_year current_quarter) <->
  start_year <= year <= current_year /\ 1 <= quarter <= 4 /\
  (year < current_year \/ quarter <= current_quarter).
Proof.
  unfold quarters_to_check. rewrite in_flat_map. split.
  - intros (y & Hy & Hin). apply in_range in Hy. apply in_flat_map in Hin as (q & Hq & Hin).
    apply in_range in Hq.
    destruct ((y >? current_year) || ((y =? current_year) && (q >? current_quarter))) eqn:E;
      [destruct Hin|].
    destruct Hin as [Hin|[]]. injection Hin as -> ->.
    apply orb_false_iff in E as [E1 E2].
    rewrite Z.gtb_ltb in E1. apply Z.ltb_ge in E1.
    split; [lia|]. split; [lia|].
    apply andb_false_iff in E2 as [E2|E2].
    + apply Z.eqb_neq in E2. lia.
    + rewrite Z.gtb_ltb in E2. apply Z.ltb_ge in E2. lia.
  - intros (Hy & Hq & Hc). exists year. split; [apply in_range; lia|].
    apply in_flat_map. exists quarter. split; [apply in_range; lia|].
    assert (E : (year >? current_year)
                || ((year =? current_year) && (quarter >? current_quarter)) = false).
    { apply orb_false_iff. split.
      - rewrite Z.gtb_ltb. apply Z.ltb_ge. lia.
      - destruct Hc as [Hc|Hc].
        + apply andb_false_iff. left. apply Z.eqb_neq. lia.
        + apply andb_false_iff. right. rewrite Z.gtb_ltb. apply Z.ltb_ge. lia. }
    rewrite E. left. reflexivity.
Qed.

(** X11.  Whatever the FX service replies, a refresh changes nothing but
    the FX table: the three tables of the store are as before and no
    transaction request is sent.  When the refresh ends in an exception
    the FX table is as before too: the rates fetched so far are written
    only at the end. *)
Theorem refresh_fx_rates_is_confined env start_year w :
  let run := refresh_fx_rates env start_year w in
  store (snd run) = store w /\
  requests_of (trace (snd run)) = requests_of (trace w) /\
  (forall e, fst run = Raise e -> fx_rates (snd run) = fx_rates w).
Proof.
  cbv zeta. destruct (refresh_fx_rates_run env start_year w) as (evs & table & -> & Hevs & H).
  cbn [store trace fx_rates]. split; [reflexivity|]. split.
  - rewrite requests_of_app, Hevs, app_nil_r. reflexivity.
  - intros e He. rewrite He in H. exact H.
Qed.

(** A refresh keeps the rows of the FX table. *)
Lemma refresh_fx_rates_keeps_rows env start_year w key row :
  fx_rates w !! key = Some row ->
  fx_rates (snd (refresh_fx_rates env start_year w)) !! key = Some row.
Proof.
  intros Hk. destruct (refresh_fx_rates_run env start_year w) as (evs & table & -> & _ & H).
  cbn [fx_rates].
  destruct (fst (refresh_fx_rates env start_year w)) as [[]|e]; [|subst table; exact Hk].
  destruct H as (rates & Hrates & ->).
  apply upsert_keeps; [exact Hk|].
  intros entry Hin Hkey.
  apply (proj1 (List.Forall_forall _ _) Hrates) in Hin.
  destruct Hin as (y & q & d & _ & _ & c & r & -> & _ & Hnone & _).
  cbn [fst] in Hkey. subst key. congruence.
Qed.

(** X12.  A refresh never changes a rate that is in the table, and a row
    that it adds is the row of a currency of the list and of a checked
    quarter that had none; the date recorded with it is the fifteenth of
    the middle month of the quarter, whatever day the rate came from. *)
Theorem refresh_fx_rates_adds_missing_rates_only env start_year w :
  let run := refresh_fx_rates env start_year w in
  let checked := quarters_to_check start_year (now_year env) ((now_month env - 1) / 3 + 1) in
  (forall key row, fx_rates w !! key = Some row -> fx_rates (snd run) !! key = Some row) /\
  (forall currency year quarter row,
      fx_rates w !! (currency, year, quarter) = None ->
      fx_rates (snd run) !! (currency, year, quarter) = Some row ->
      In currency FX_CURRENCIES /\ In (year, quarter) checked /\
      mid_quarter_day year quarter = Ok (fx_rate_date row)).
Proof.
  cbv zeta. split; [intros key row; apply refresh_fx_rates_keeps_rows|].
  destruct (refresh_fx_rates_run env start_year w) as (evs & table & -> & _ & H).
  cbn [fx_rates].
  destruct (fst (refresh_fx_rates env start_year w)) as [[]|e].
  2:{ subst table. intros c y q row Hn Hs. congruence. }
  destruct H as (rates & Hrates & ->).
  - intros c y q row Hn Hs. apply upsert_lookup in Hs as [Hs|Hin]; [congruence|].
    apply (proj1 (List.Forall_forall _ _) Hrates) in Hin.
    destruct Hin as (y' & q' & d & Hq & Hd & c' & r & Heq & Hc & _ & Hdate).
    injection Heq as -> -> -> ->. split; [exact Hc|]. split; [exact Hq|].
    rewrite Hd, Hdate. reflexivity.
Qed.

Lemma refresh_quarter_present env year quarter rate_date currencies : forall rates w,
  (forall c, In c currencies -> is_Some (fx_rates w !! (c, year, quarter))) ->
  refresh_quarter env year quarter rate_date currencies rates w = (Ok rates, w).
Proof.
  induction currencies as [|c currencies IH]; intros rates w H; [reflexivity|].
  cbn [refresh_quarter]. unfold bind at 1, fx_rate_missing.
  destruct (H c (or_introl eq_refl)) as [row ->].
  apply IH. intros c' Hc'. apply H. right. exact Hc'.
Qed.

Lemma refresh_quarters_present env quarters : forall rates w,
  (forall y q, In (y, q) quarters -> 1 <= y <= 9999) ->
  (forall c y q, In c FX_CURRENCIES -> In (y, q) quarters ->
                 is_Some (fx_rates w !! (c, y, q))) ->
  refresh_quarters env quarters rates w = (Ok rates, w).
Proof.
  induction quarters as [|[year quarter] quarters IH]; intros rates w Hy H; [reflexivity|].
  cbn [refresh_quarters]. unfold bind at 1, lift, date_ordinal.
  destruct (Hy year quarter (or_introl eq_refl)) as [H1 H2].
  apply Z.leb_le in H1. apply Z.leb_le in H2. rewrite H1, H2. cbn [andb].
  unfold bind at 1. rewrite refresh_quarter_present.
  - apply IH.
    + intros y q Hin. apply (Hy y q). right. exact Hin.
    + intros c y q Hc Hin. apply H; [exact Hc|right; exact Hin].
  - intros c Hc. apply H; [exact Hc|left; reflexivity].
Qed.

(** X13.  When the FX table has a rate for every currency and every
    checked quarter, a refresh sends no request, makes no pause and
    changes nothing. *)
Theorem refresh_of_complete_table_is_silent env start_year w :
  1 <= start_year -> now_year env <= 9999 ->
  (forall c y q,
      In c FX_CURRENCIES ->
      In (y, q) (quarters_to_check start_year (now_year env) ((now_month env - 1) / 3 + 1)) ->
      is_Some (fx_rates w !! (c, y, q))) ->
  refresh_fx_rates env start_year w = (Ok tt, w).
Proof.
  intros Hs Hn H. unfold refresh_fx_rates. cbv zeta. unfold bind.
  rewrite refresh_quarters_present; [reflexivity| |exact H].
  intros y q Hin. apply quarters_to_check_years in Hin. lia.
Qed.

Lemma refresh_of_complete_table_is_silent_witness :
  let w := {| store := empty_store; fx_rates := rates_of_2024; trace := [] |} in
  refresh_fx_rates all_published 2024 w = (Ok tt, w).
Proof.
  cbv zeta. apply refresh_of_complete_table_is_silent; [lia|cbn; lia|].
  intros c y q Hc Hq. cbn in Hc.
  assert (Hq' : In (y, q) [(2024, 1); (2024, 2)]) by exact Hq.
  cbn in Hq'.
  destruct Hc as [<-|[<-|[<-|[]]]]; destruct Hq' as [Hq'|[Hq'|[]]];
    injection Hq' as <- <-; vm_compute; eauto.
Defined.

Lemma upsert_has (rates : list (string * Z * Z * FxRow)) :
  forall (table : gmap (string * Z * Z) FxRow) key,
  is_Some (table !! key) \/ (exists row, In (key, row) rates) ->
  is_Some (fold_left (fun table row => <[fst row := snd row]> table) rates table !! key).
Proof.
  induction rates as [|[k r] rates IH]; intros table key H.
  - destruct H as [H|[row []]]. exact H.
  - cbn [fold_left fst snd]. apply IH.
    destruct (decide (k = key)) as [->|Hne]; [left; rewrite lookup_insert_eq; eauto|].
    destruct H as [H|[row [Hin|Hin]]].
    + left. rewrite lookup_insert_ne by exact Hne. exact H.
    + injection Hin as -> _. contradiction.
    + right. exists row. exact Hin.
Qed.

Section RefreshAgainstAReliableService.

Context (env : Env).

Hypothesis answers : fx_always_answers env.
Hypothesis budget : (1 <= recursion_budget env)%nat.

Lemma refresh_quarter_completes year quarter rate_date currencies : forall rates w,
  exists rates' evs,
    refresh_quarter env year quarter rate_date currencies rates w = (Ok rates', extend w evs) /\
    incl rates rates' /\
    forall c, In c currencies ->
      is_Some (fx_rates w !! (c, year, quarter)) \/
      exists row, In (c, year, quarter, row) rates'.
Proof.
  induction currencies as [|c currencies IH]; intros rates w.
  - exists rates, []. cbn [refresh_quarter ret]. rewrite extend_nil.
    split; [reflexivity|]. split; [apply incl_refl|intros c []].
  - cbn [refresh_quarter]. unfold bind at 1, fx_rate_missing.
    destruct (fx_rates w !! (c, year, quarter)) as [row|] eqn:E.
    + destruct (IH rates w) as (rates' & evs & -> & Hincl & Hall).
      exists rates', evs. split; [reflexivity|]. split; [exact Hincl|].
      intros c' [<-|Hin]; [left; rewrite E; eauto|apply Hall, Hin].
    + unfold bind at 1.
      destruct (answers (length (fx_requests_of (trace w))) rate_date c) as [r Hr].
      destruct (recursion_budget env) as [|depth] eqn:Eb; [lia|].
      rewrite (fetch_fx_rate_found env c depth rate_date 3 w 200 r ltac:(lia) Hr eq_refl).
      unfold bind at 1, sleep, log. cbn [extend store fx_rates trace].
      set (w1 := {| store := store w |}).
      assert (Hw1 : w1 = extend w [EvFxRequest rate_date c; EvSleep 200]).
      { unfold w1, extend. rewrite <- app_assoc. reflexivity. }
      rewrite Hw1.
      destruct (IH (rates ++ [(c, year, quarter,
                               {| fx_rate := r; fx_rate_date := rate_date |})])%list
                  (extend w [EvFxRequest rate_date c; EvSleep 200]))
        as (rates' & evs & -> & Hincl & Hall).
      exists rates', ([EvFxRequest rate_date c; EvSleep 200] ++ evs)%list.
      rewrite extend_extend. split; [reflexivity|]. split.
      * intros x Hx. apply Hincl, in_or_app. left. exact Hx.
      * intros c' [<-|Hin]; [|apply Hall, Hin].
        right. exists {| fx_rate := r; fx_rate_date := rate_date |}.
        apply Hincl, in_or_app. right. left. reflexivity.
Qed.

Lemma refresh_quarters_completes quarters : forall rates w,
  (forall y q, In (y, q) quarters -> 1 <= y <= 9999) ->
  exists rates' evs,
    refresh_quarters env quarters rates w = (Ok rates', extend w evs) /\
    incl rates rates' /\
    forall c y q, In c FX_CURRENCIES -> In (y, q) quarters ->
      is_Some (fx_rates w !! (c, y, q)) \/ exists row, In (c, y, q, row) rates'.
Proof.
  induction quarters as [|[year quarter] quarters IH]; intros rates w Hy.
  - exists rates, []. cbn [refresh_quarters ret]. rewrite extend_nil.
    split; [reflexivity|]. split; [apply incl_refl|intros c y q _ []].
  - cbn [refresh_quarters]. unfold bind at 1, lift, date_ordinal.
    destruct (Hy year quarter (or_introl eq_refl)) as [H1 H2].
    apply Z.leb_le in H1. apply Z.leb_le in H2. rewrite H1, H2. cbn [andb].
    unfold bind at 1.
    destruct (refresh_quarter_completes year quarter
                ((year - 1) * 365 + (year - 1) / 4 - (year - 1) / 100 + (year - 1) / 400
                 + days_before_month year ((quarter - 1) * 3 + 2) + 15)
                FX_CURRENCIES rates w) as (rates1 & evs1 & -> & Hincl1 & Hall1).
    destruct (IH rates1 (extend w evs1)) as (rates' & evs & -> & Hincl & Hall).
    { intros y q Hin. apply (Hy y q). right. exact Hin. }
    exists rates', (evs1 ++ evs)%list. rewrite extend_extend.
    split; [reflexivity|]. split; [intros x Hx; apply Hincl, Hincl1, Hx|].
    intros c y q Hc [Heq|Hin]; [|apply (Hall c y q Hc Hin)].
    injection Heq as <- <-.
    destruct (Hall1 c Hc) as [Hs|[row Hrow]]; [left; exact Hs|].
    right. exists row. apply Hincl, Hrow.
Qed.

End RefreshAgainstAReliableService.

(** X14.  Against an FX service that answers every request with a rate, a
    refresh returns without an exception and leaves the table with a
    rate for every currency of the list and every checked quarter; a
    second refresh then sends nothing and changes nothing. *)
Theorem refresh_completes_the_table env start_year w :
  fx_always_answers env -> (1 <= recursion_budget env)%nat ->
  1 <= start_year -> now_year env <= 9999 ->
  let run := refresh_fx_rates env start_year w in
  let checked := quarters_to_check start_year (now_year env) ((now_month env - 1) / 3 + 1) in
  fst run = Ok tt /\
  (forall c y q, In c FX_CURRENCIES -> In (y, q) checked ->
                 is_Some (fx_rates (snd run) !! (c, y, q))) /\
  refresh_fx_rates env start_year (snd run) = (Ok tt, snd run).
Proof.
  intros Hanswers Hbudget Hstart Hnow. cbv zeta.
  set (checked := quarters_to_check _ _ _).
  assert (Hyears : forall y q, In (y, q) checked -> 1 <= y <= 9999).
  { intros y q Hin. apply quarters_to_check_years in Hin. lia. }
  assert (Hfirst : fst (refresh_fx_rates env start_year w) = Ok tt /\
                   forall c y q, In c FX_CURRENCIES -> In (y, q) checked ->
                     is_Some (fx_rates (snd (refresh_fx_rates env start_year w)) !! (c, y, q))).
  { unfold refresh_fx_rates. cbv zeta. fold checked. unfold bind.
    destruct (refresh_quarters_completes env Hanswers Hbudget checked [] w Hyears)
      as (rates & evs & -> & _ & Hall).
    destruct rates as [|entry rates].
    - cbn [ret fst snd extend fx_rates]. split; [reflexivity|].
      intros c y q Hc Hq. destruct (Hall c y q Hc Hq) as [Hs|[row []]]. exact Hs.
    - cbn [upsert_fx_rates fst snd extend fx_rates store trace]. split; [reflexivity|].
      intros c y q Hc Hq. apply upsert_has. exact (Hall c y q Hc Hq). }
  destruct Hfirst as [Hok Hall]. split; [exact Hok|]. split; [exact Hall|].
  unfold refresh_fx_rates at 1. cbv zeta. fold checked. unfold bind.
  rewrite refresh_quarters_present; [reflexivity|exact Hyears|exact Hall].
Qed.

Lemma refresh_completes_the_table_witness :
  fst (refresh_fx_rates all_published 2024 empty_world) = Ok tt /\
  is_Some (fx_rates (snd (refresh_fx_rates all_published 2024 empty_world))
           !! ("EUR", 2024, 2)).
Proof.
  assert (Hanswers : fx_always_answers all_published)
    by (intros n d c; eexists; reflexivity).
  assert (Hbudget : (1 <= 1000)%nat) by lia.
  assert (Hstart : 1 <= 2024) by lia.
  assert (Hnow : 2024 <= 9999) by lia.
  destruct (refresh_completes_the_table all_published 2024 empty_world
              Hanswers Hbudget Hstart Hnow) as (Hok & Hall & _).
  split; [exact Hok|]. apply Hall.
  - right. left. reflexivity.
  - right. left. reflexivity.
Defined.

(** ** The store under the harvest *)

Lemma harvests_events_app hs1 hs2 :
  harvests_events (hs1 ++ hs2) = (harvests_events hs1 ++ harvests_events hs2)%list.
Proof. unfold harvests_events. apply flat_map_app. Qed.

Lemma harvests_events_cons year pref quarters hs :
  harvests_events ((year, pref, quarters) :: hs)
  = (harvest_events year pref quarters ++ harvests_events hs)%list.
Proof. reflexivity. Qed.

Lemma requests_of_harvest_events year pref quarters :
  requests_of (harvest_events year pref quarters)
  = map (fun q => EvRequest year pref (sent_quarter (Some q))) quarters.
Proof.
  induction quarters as [|q quarters IH]; [reflexivity|].
  unfold harvest_events. cbn [flat_map app]. fold (harvest_events year pref quarters).
  unfold requests_of in *. cbn [List.filter is_request]. rewrite IH. reflexivity.
Qed.

Lemma harvest_events_fx_free year pref quarters :
  fx_requests_of (harvest_events year pref quarters) = [].
Proof.
  induction quarters as [|q quarters IH]; [reflexivity|].
  unfold harvest_events. cbn [flat_map app]. fold (harvest_events year pref quarters).
  unfold fx_requests_of in *. cbn [List.filter is_fx_request]. exact IH.
Qed.

Section DriverRuns.

Context (env : Env).

Lemma ingest_years_run pref years : forall total w,
  exists inserted st,
    ingest_years env pref years total w =
    (Ok inserted,
     {| store := st; fx_rates := fx_rates w;
        trace := (trace w ++ harvests_events (history_plan [pref] years))%list |}).
Proof.
  induction years as [|y years IH]; intros total w.
  - exists total, (store w). cbn. rewrite app_nil_r. destruct w; reflexivity.
  - cbn [ingest_years]. unfold bind at 1.
    destruct (ingest_prefecture_year_run env pref y None w) as (n & st & ->).
    destruct (IH (total + n)
                {| store := st; fx_rates := fx_rates w;
                   trace := (trace w ++ harvest_events y pref (quarters_to_fetch None))%list |})
      as (n' & st' & ->).
    exists n', st'. cbn [fx_rates trace]. rewrite <- app_assoc.
    unfold history_plan. cbn [flat_map map]. rewrite !app_nil_r.
    rewrite harvests_events_cons. reflexivity.
Qed.

Lemma ingest_history_run prefectures years : forall total w,
  exists inserted st,
    ingest_history env prefectures years total w =
    (Ok inserted,
     {| store := st; fx_rates := fx_rates w;
        trace := (trace w ++ harvests_events (history_plan prefectures years))%list |}).
Proof.
  induction prefectures as [|p prefectures IH]; intros total w.
  - exists total, (store w). cbn. rewrite app_nil_r. destruct w; reflexivity.
  - cbn [ingest_history]. unfold bind at 1.
    destruct (ingest_years_run p years total w) as (n & st & ->).
    destruct (IH n {| store := st; fx_rates := fx_rates w;
                      trace := (trace w ++ harvests_events (history_plan [p] years))%list |})
      as (n' & st' & ->).
    exists n', st'. cbn [fx_rates trace]. rewrite <- app_assoc, <- harvests_events_app.
    unfold history_plan. cbn [flat_map]. rewrite app_nil_r. reflexivity.
Qed.

Lemma ingest_prefectures_run prefectures year quarter : forall total w,
  exists inserted st,
    ingest_prefectures env prefectures year quarter total w =
    (Ok inserted,
     {| store := st; fx_rates := fx_rates w;
        trace := (trace w ++ harvests_events (quarter_plan prefectures year [quarter]))%list |}).
Proof.
  induction prefectures as [|p prefectures IH]; intros total w.
  - exists total, (store w). cbn. rewrite app_nil_r. destruct w; reflexivity.
  - cbn [ingest_prefectures]. unfold bind at 1.
    destruct (ingest_prefecture_year_run env p year (Some [quarter]) w) as (n & st & ->).
    destruct (IH (total + n)
                {| store := st; fx_rates := fx_rates w;
                   trace := (trace w ++ harvest_events year p
                                          (quarters_to_fetch (Some [quarter])))%list |})
      as (n' & st' & ->).
    exists n', st'. cbn [fx_rates trace]. rewrite <- app_assoc.
    unfold quarter_plan. cbn [map]. rewrite harvests_events_cons. reflexivity.
Qed.

Lemma ingest_each_run prefectures year quarters : forall w,
  exists st,
    ingest_each env prefectures year quarters w =
    (Ok tt,
     {| store := st; fx_rates := fx_rates w;
        trace := (trace w ++ harvests_events
                               (quarter_plan prefectures year (quarters_to_fetch quarters)))%list |}).
Proof.
  induction prefectures as [|p prefectures IH]; intros w.
  - exists (store w). cbn. rewrite app_nil_r. destruct w; reflexivity.
  - cbn [ingest_each]. unfold bind at 1.
    destruct (ingest_prefecture_year_run env p year quarters w) as (n & st & ->).
    destruct (IH {| store := st; fx_rates := fx_rates w;
                    trace := (trace w ++ harvest_events year p
                                           (quarters_to_fetch quarters))%list |})
      as (st' & ->).
    exists st'. cbn [fx_rates trace]. rewrite <- app_assoc.
    unfold quarter_plan. cbn [map]. rewrite harvests_events_cons. reflexivity.
Qed.

Lemma ingest_full_history_run start_year prefectures w :
  exists st,
    ingest_full_history env start_year prefectures w =
    (Ok tt,
     {| store := st; fx_rates := fx_rates w;
        trace := (trace w ++ harvests_events
                    (history_plan
                       match prefectures with
                       | Some ps => ps
                       | None => sorted_prefecture_codes
                       end
                       (range start_year (now_year env + 1))))%list |}).
Proof.
  unfold ingest_full_history. cbv zeta. unfold bind.
  destruct (ingest_history_run
              match prefectures with Some ps => ps | None => sorted_prefecture_codes end
              (range start_year (now_year env + 1)) 0 w) as (n & st & ->).
  exists st. reflexivity.
Qed.

End DriverRuns.

Lemma requests_of_harvests_events hs :
  requests_of (harvests_events hs)
  = flat_map (fun h => map (fun q => EvRequest (fst (fst h)) (snd (fst h)) (sent_quarter (Some q)))
                           (snd h)) hs.
Proof.
  induction hs as [|[[y p] qs] hs IH]; [reflexivity|].
  rewrite harvests_events_cons, requests_of_app, requests_of_harvest_events, IH.
  reflexivity.
Qed.

Lemma length_requests_of_history prefectures years :
  length (requests_of (harvests_events (history_plan prefectures years)))
  = (4 * (length prefectures * length years))%nat.
Proof.
  rewrite requests_of_harvests_events. unfold history_plan.
  induction prefectures as [|p prefectures IH]; [cbn; lia|].
  cbn [flat_map]. rewrite flat_map_app, length_app, IH. cbn [length].
  assert (H : forall l : list Z,
             length (flat_map
                       (fun h : Z * string * list Z =>
                          map (fun q => EvRequest (fst (fst h)) (snd (fst h))
                                                  (sent_quarter (Some q))) (snd h))
                       (map (fun y => (y, p, [1; 2; 3; 4])) l))
             = (4 * length l)%nat).
  { induction l as [|y l IHl]; [reflexivity|].
    cbn [map flat_map fst snd]. rewrite length_app, IHl. cbn [length]. lia. }
  rewrite H. lia.
Qed.

Lemma store_extends_refl st : store_extends st st.
Proof. repeat split; reflexivity. Qed.

Lemma store_extends_trans st1 st2 st3 :
  store_extends st1 st2 -> store_extends st2 st3 -> store_extends st1 st3.
Proof.
  intros (Hp1 & Hm1 & Ht1) (Hp2 & Hm2 & Ht2).
  repeat split; etrans; eassumption.
Qed.

Lemma ensure_prefecture_exists_extends st code name :
  store_extends st (ensure_prefecture_exists st code name).
Proof.
  unfold ensure_prefecture_exists.
  destruct (prefectures st !! code) eqn:E; [apply store_extends_refl|].
  repeat split; cbn [prefectures municipalities transactions]; [|reflexivity|reflexivity].
  apply insert_subseteq, E.
Qed.

Lemma insert_transactions_extends st records pref :
  store_extends st (fst (insert_transactions st records pref)).
Proof.
  destruct (insert_transactions_tables st records pref) as (Hp & Hm & Ht & _).
  repeat split; [rewrite Hp; reflexivity| |exact Ht].
  rewrite Hm. apply ensure_municipalities_grows.
Qed.

Lemma row_resolved_extends st st' r :
  store_extends st st' -> row_resolved st r -> row_resolved st' r.
Proof.
  intros (Hp & Hm & _) [H1 H2]. split.
  - destruct H1 as [row H1]. exists row. eapply lookup_weaken; eassumption.
  - intros m Hc. destruct (H2 m Hc) as [row Hrow]. exists row.
    eapply lookup_weaken; eassumption.
Qed.

(** The records the transformer returns for a prefecture carry its code,
    and a municipality code of theirs has five characters. *)
Lemma map_res_transform_codes pref year quarter ts : forall records,
  map_res (fun t => transform_record t pref year quarter) ts = Ok records ->
  Forall (fun r => prefecture_code r = pref /\
                   forall m, municipality_code r = Some m -> PyStr.len m = 5%nat) records.
Proof.
  induction ts as [|t ts IH]; intros records H.
  - injection H as <-. constructor.
  - cbn [map_res] in H. bind_inv H. bind_inv H. injection H as <-.
    constructor; [|apply IH; reflexivity].
    destruct (transform_record_codes _ _ _ _ _ E) as (Hp & _ & _ & Hm & _).
    split; [exact Hp|]. intros m Hc. exact (proj2 (Hm m Hc)).
Qed.

Lemma len_five_not_rejected m :
  PyStr.len m = 5%nat -> String.eqb m "" || negb (Nat.eqb (PyStr.len m) 5) = false.
Proof.
  intros H. rewrite H. destruct m; [discriminate H|reflexivity].
Qed.

Lemma ensure_prefecture_exists_unique st code name :
  unique_hashes st -> unique_hashes (ensure_prefecture_exists st code name).
Proof.
  unfold unique_hashes, ensure_prefecture_exists.
  destruct (prefectures st !! code); intros H; exact H.
Qed.

Lemma ensure_prefecture_exists_resolved st code name :
  references_resolved st -> references_resolved (ensure_prefecture_exists st code name).
Proof.
  unfold references_resolved. intros H.
  replace (transactions (ensure_prefecture_exists st code name)) with (transactions st)
    by (unfold ensure_prefecture_exists; destruct (prefectures st !! code); reflexivity).
  eapply Forall_impl; [exact H|]. intros r.
  apply row_resolved_extends, ensure_prefecture_exists_extends.
Qed.

Lemma insert_transactions_resolved st pref year quarter ts records :
  references_resolved st -> is_Some (prefectures st !! pref) ->
  map_res (fun t => transform_record t pref year quarter) ts = Ok records ->
  references_resolved (fst (insert_transactions st records pref)).
Proof.
  intros Hres Hpref Hmap. unfold references_resolved.
  pose proof (insert_transactions_extends st records pref) as Hext.
  destruct (insert_transactions_tables st records pref) as (Hp & Hm & _ & Horigin & _).
  pose proof (map_res_transform_codes _ _ _ _ _ Hmap) as Hcodes.
  apply List.Forall_forall. intros r Hin. apply list_elem_of_In in Hin.
  destruct (Horigin r Hin) as [Hold|Hnew].
  - apply (row_resolved_extends st); [exact Hext|].
    apply list_elem_of_In in Hold. exact (proj1 (List.Forall_forall _ _) Hres r Hold).
  - apply list_elem_of_In in Hnew.
    destruct (proj1 (List.Forall_forall _ _) Hcodes r Hnew) as [Hrp Hrm].
    split; [rewrite Hp, Hrp; exact Hpref|].
    intros m Hc. rewrite Hm.
    assert (Hs : settled (ensure_municipalities st ∅ records pref) m).
    { eapply ensure_municipalities_settles; [|exact Hnew|exact Hc].
      intros c0 Hc0. apply elem_of_empty in Hc0. contradiction. }
    destruct Hs as [Hs|Hs]; [|exact Hs].
    rewrite (len_five_not_rejected m (Hrm m Hc)) in Hs. discriminate Hs.
Qed.

Lemma ensure_municipalities_keeps_row records pref c row : forall st seen,
  municipalities st !! c = Some row ->
  municipalities (ensure_municipalities st seen records pref) !! c = Some row.
Proof.
  intros st seen H. eapply lookup_weaken; [exact H|apply ensure_municipalities_grows].
Qed.

Lemma ensure_municipalities_first records pref c : forall st seen,
  PyStr.len c = 5%nat -> c ∉ seen -> municipalities st !! c = None ->
  municipalities (ensure_municipalities st seen records pref) !! c
  = match first_with_code c records with
    | Some r => Some {| muni_prefecture_code := pref;
                        muni_name_ja := municipality_name r;
                        muni_name_en := municipality_name r |}
    | None => None
    end.
Proof.
  induction records as [|r records IH]; intros st seen Hlen Hseen Hnone; [exact Hnone|].
  cbn [ensure_municipalities first_with_code find]. fold (first_with_code c records).
  destruct (municipality_code r) as [c'|] eqn:Ec.
  2:{ rewrite (bool_decide_eq_false_2 (None = Some c)) by discriminate.
      apply IH; assumption. }
  destruct (decide (c' = c)) as [->|Hne].
  - rewrite (bool_decide_eq_true_2 (Some c = Some c)) by reflexivity.
    assert (Hc : negb (String.eqb c "") && negb (bool_decide (c ∈ seen)) = true).
    { destruct (bool_decide (c ∈ seen)) eqn:Eb;
        [apply bool_decide_eq_true in Eb; contradiction|].
      destruct c; [discriminate Hlen|reflexivity]. }
    rewrite Hc. apply ensure_municipalities_keeps_row.
    unfold ensure_municipality_exists. rewrite (len_five_not_rejected c Hlen), Hnone.
    cbn [municipalities]. apply lookup_insert_eq.
  - rewrite (bool_decide_eq_false_2 (Some c' = Some c)) by congruence.
    destruct (negb (String.eqb c' "") && negb (bool_decide (c' ∈ seen))); [|apply IH; assumption].
    apply IH; [exact Hlen|set_solver|].
    unfold ensure_municipality_exists.
    destruct (String.eqb c' "" || negb (Nat.eqb (PyStr.len c') 5)); [exact Hnone|].
    destruct (municipalities st !! c'); [exact Hnone|].
    cbn [municipalities]. rewrite lookup_insert_ne by exact Hne. exact Hnone.
Qed.

(** X15.  A municipality that is new to the dimension table gets its row
    from the first record of the batch that carries its code: both name
    columns hold the municipality name of that record, and the
    prefecture code is that of the load.  A municipality that has a row
    keeps it, whatever names the batch carries. *)
Theorem first_record_names_the_municipality st records pref c :
  PyStr.len c = 5%nat ->
  let st' := fst (insert_transactions st records pref) in
  (forall row, municipalities st !! c = Some row -> municipalities st' !! c = Some row) /\
  (municipalities st !! c = None ->
   municipalities st' !! c
   = match first_with_code c records with
     | Some r => Some {| muni_prefecture_code := pref;
                         muni_name_ja := municipality_name r;
                         muni_name_en := municipality_name r |}
     | None => None
     end).
Proof.
  intros Hlen. cbv zeta.
  destruct (insert_transactions_tables st records pref) as (_ & -> & _).
  split.
  - intros row. apply ensure_municipalities_keeps_row.
  - intros Hnone. apply ensure_municipalities_first; [exact Hlen|set_solver|exact Hnone].
Qed.

Lemma first_record_names_the_municipality_witness :
  let named (name : string) :=
    {| source_hash := name; price_classification := "01"; prefecture_code := "13";
       municipality_code := Some "13101"; municipality_name := PStr name;
       district_name := PNone; property_type_id := None;
       property_type_raw := PStr ""; trade_price := None; unit_price := None;
       area_m2 := None; total_floor_area_m2 := None; floor_plan := PNone;
       building_year := None; structure := PNone; land_shape := PNone;
       frontage_m := None; road_direction := PNone; road_type := PNone;
       road_width_m := None; city_planning := PNone; coverage_ratio := None;
       floor_area_ratio := None; transaction_year := 2023;
       transaction_quarter := Some 1; transaction_period := PNone;
       renovation := PNone; remarks := PNone |} in
  municipalities (fst (insert_transactions empty_store
                         [named "Chiyoda Ward"; named "Chiyoda-ku"] "13")) !! "13101"
  = Some {| muni_prefecture_code := "13"; muni_name_ja := PStr "Chiyoda Ward";
            muni_name_en := PStr "Chiyoda Ward" |}.
Proof.
  cbv zeta.
  refine (proj2 (first_record_names_the_municipality empty_store _ "13" "13101" eq_refl)
                eq_refl).
Defined.

(** The probe only adds transaction requests and pauses to the trace. *)
Lemma probe_store env n : forall year quarter w,
  exists evs, snd (probe env n year quarter w) = extend w evs /\ fx_requests_of evs = [].
Proof.
  induction n as [|n IH]; intros year quarter w.
  - exists []. cbn. rewrite extend_nil. split; reflexivity.
  - cbn [probe]. unfold bind at 1. rewrite get_transactions_run.
    destruct (reply_outcome _) as [[data|]|e].
    + eexists. split; reflexivity.
    + destruct (step_back year quarter) as [y' q']. unfold bind at 1, sleep, log.
      cbn [extend store fx_rates trace].
      destruct (IH y' q' {| store := store w; fx_rates := fx_rates w;
                            trace := (trace w ++ [EvRequest year "13" (sent_quarter (Some quarter))])
                                     ++ [EvSleep 500] |})
        as (evs & -> & Hevs).
      exists ([EvRequest year "13" (sent_quarter (Some quarter)); EvSleep 500] ++ evs)%list.
      unfold extend. cbn [store fx_rates trace]. rewrite <- !app_assoc.
      split; [reflexivity|]. rewrite fx_requests_of_app, Hevs. reflexivity.
    + eexists. split; reflexivity.
Qed.

Lemma find_latest_available_quarter_store env w :
  exists evs, snd (find_latest_available_quarter env w) = extend w evs.
Proof.
  unfold find_latest_available_quarter.
  destruct (probe_start (now_year env) (now_month env)) as [year quarter].
  destruct (probe_store env 4 year quarter w) as (evs & E & _). exists evs. exact E.
Qed.

(** One quarter of a harvest leaves the store alone or loads one batch
    of transformed records. *)
Lemma ingest_quarter_store env pref year quarter w :
  let run := ingest_quarter env pref year quarter w in
  store (snd run) = store w \/
  exists ts records,
    map_res (fun t => transform_record t pref year (Some quarter)) ts = Ok records /\
    store (snd run) = fst (insert_transactions (store w) records pref).
Proof.
  cbv zeta.
  unfold ingest_quarter, bind, try_except, sleep, log, ret, lift.
  rewrite get_transactions_run.
  destruct (reply_outcome _) as [[[|t ts]|]|e]; cbn [extend store fx_rates trace snd];
    try (left; reflexivity).
  destruct (map_res _ (t :: ts)) as [records|e] eqn:E;
    [|cbn [extend store fx_rates trace snd]; left; reflexivity].
  right. exists (t :: ts), records. split; [exact E|].
  unfold insert_transactions_m. cbn [extend store fx_rates trace].
  destruct (insert_transactions _ records pref) as [st inserted].
  reflexivity.
Qed.

Section StoreInvariant.

(** A property of the store that the two writers of the harvest keep:
    the prefecture upsert, and the loader on a batch of transformed
    records of a prefecture that is in the dimension table. *)
Context (P : Store -> Prop).

Hypothesis P_prefecture : forall st code name,
  P st -> P (ensure_prefecture_exists st code name).

Hypothesis P_insert : forall st pref year quarter ts records,
  P st -> is_Some (prefectures st !! pref) ->
  map_res (fun t => transform_record t pref year quarter) ts = Ok records ->
  P (fst (insert_transactions st records pref)).

Context (env : Env).

Lemma ingest_quarter_keeps pref year quarter w :
  P (store w) -> is_Some (prefectures (store w) !! pref) ->
  P (store (snd (ingest_quarter env pref year quarter w))) /\
  is_Some (prefectures (store (snd (ingest_quarter env pref year quarter w))) !! pref).
Proof.
  intros HP Hk.
  destruct (ingest_quarter_store env pref year quarter w) as [->|(ts & records & Hm & ->)];
    [split; assumption|].
  split; [eapply P_insert; eassumption|].
  destruct (insert_transactions_tables (store w) records pref) as (-> & _).
  exact Hk.
Qed.

Lemma ingest_quarters_keeps pref year quarters : forall total w,
  P (store w) -> is_Some (prefectures (store w) !! pref) ->
  P (store (snd (ingest_quarters env pref year quarters total w))).
Proof.
  induction quarters as [|q quarters IH]; intros total w HP Hk; [exact HP|].
  cbn [ingest_quarters]. unfold bind at 1.
  destruct (ingest_quarter_keeps pref year q w HP Hk) as [HP' Hk'].
  destruct (ingest_quarter_run env pref year q w) as (n & st & E).
  rewrite E in HP', Hk' |- *. apply IH; assumption.
Qed.

Lemma ingest_prefecture_year_keeps pref year quarters w :
  P (store w) -> P (store (snd (ingest_prefecture_year env pref year quarters w))).
Proof.
  intros HP. unfold ingest_prefecture_year, bind at 1, ensure_prefecture_exists_m.
  cbv zeta. apply ingest_quarters_keeps; cbn [store].
  - apply P_prefecture, HP.
  - unfold ensure_prefecture_exists.
    destruct (prefectures (store w) !! pref) eqn:E; [rewrite E; eauto|].
    cbn [prefectures]. rewrite lookup_insert_eq. eauto.
Qed.

Lemma ingest_years_keeps pref years : forall total w,
  P (store w) -> P (store (snd (ingest_years env pref years total w))).
Proof.
  induction years as [|y years IH]; intros total w HP; [exact HP|].
  cbn [ingest_years]. unfold bind at 1.
  pose proof (ingest_prefecture_year_keeps pref y None w HP) as HP'.
  destruct (ingest_prefecture_year_run env pref y None w) as (n & st & E).
  rewrite E in HP' |- *. apply IH, HP'.
Qed.

Lemma ingest_history_keeps prefectures years : forall total w,
  P (store w) -> P (store (snd (ingest_history env prefectures years total w))).
Proof.
  induction prefectures as [|p prefectures IH]; intros total w HP; [exact HP|].
  cbn [ingest_history]. unfold bind at 1.
  pose proof (ingest_years_keeps p years total w HP) as HP'.
  destruct (ingest_years_run env p years total w) as (n & st & E).
  rewrite E in HP' |- *. apply IH, HP'.
Qed.

Lemma ingest_full_history_keeps start_year prefectures w :
  P (store w) -> P (store (snd (ingest_full_history env start_year prefectures w))).
Proof.
  intros HP. unfold ingest_full_history. cbv zeta. unfold bind.
  set (chosen := match prefectures with Some ps => ps | None => sorted_prefecture_codes end).
  pose proof (ingest_history_keeps chosen (range start_year (now_year env + 1)) 0 w HP) as HP'.
  destruct (ingest_history_run env chosen (range start_year (now_year env + 1)) 0 w)
    as (n & st & E).
  rewrite E in HP' |- *. exact HP'.
Qed.

Lemma ingest_prefectures_keeps prefectures year quarter : forall total w,
  P (store w) -> P (store (snd (ingest_prefectures env prefectures year quarter total w))).
Proof.
  induction prefectures as [|p prefectures IH]; intros total w HP; [exact HP|].
  cbn [ingest_prefectures]. unfold bind at 1.
  pose proof (ingest_prefecture_year_keeps p year (Some [quarter]) w HP) as HP'.
  destruct (ingest_prefecture_year_run env p year (Some [quarter]) w) as (n & st & E).
  rewrite E in HP' |- *. apply IH, HP'.
Qed.

Lemma ingest_each_keeps prefectures year quarters : forall w,
  P (store w) -> P (store (snd (ingest_each env prefectures year quarters w))).
Proof.
  induction prefectures as [|p prefectures IH]; intros w HP; [exact HP|].
  cbn [ingest_each]. unfold bind at 1.
  pose proof (ingest_prefecture_year_keeps p year quarters w HP) as HP'.
  destruct (ingest_prefecture_year_run env p year quarters w) as (n & st & E).
  rewrite E in HP' |- *. apply IH, HP'.
Qed.

Lemma refresh_fx_rates_keeps start_year w :
  P (store w) -> P (store (snd (refresh_fx_rates env start_year w))).
Proof.
  intros HP. destruct (refresh_fx_rates_run env start_year w) as (evs & table & -> & _).
  exact HP.
Qed.

Lemma ingest_incremental_keeps w :
  P (store w) -> P (store (snd (ingest_incremental env w))).
Proof.
  intros HP. unfold ingest_incremental. unfold bind at 1.
  destruct (find_latest_available_quarter_store env w) as (evs & E).
  destruct (find_latest_available_quarter env w) as [[[[year|] [quarter|]]|e] w1];
    cbn [snd] in E; subst w1; try exact HP.
  unfold bind.
  pose proof (ingest_prefectures_keeps sorted_prefecture_codes year quarter 0
                (extend w evs) HP) as HP'.
  destruct (ingest_prefectures_run env sorted_prefecture_codes year quarter 0 (extend w evs))
    as (n & st & E).
  rewrite E in HP' |- *. apply refresh_fx_rates_keeps, HP'.
Qed.

Lemma main_keeps API_KEY args w :
  P (store w) -> P (store (snd (main env API_KEY args w))).
Proof.
  intros HP. unfold main.
  assert (Hfinish : forall run : res unit * World,
             P (store (snd run)) -> P (store (snd (finish run)))).
  { intros [[[]|e] w'] H; exact H. }
  destruct (Args.refresh_fx_only args); [apply Hfinish, refresh_fx_rates_keeps, HP|].
  destruct (String.eqb API_KEY PLACEHOLDER_API_KEY); [exact HP|].
  destruct (Args.full args).
  { apply Hfinish. unfold bind.
    set (chosen := match given_text (Args.prefecture args) with
                   | Some p => Some [p] | None => None end).
    pose proof (ingest_full_history_keeps 2005 chosen w HP) as HP'.
    destruct (ingest_full_history_run env 2005 chosen w) as (st & E).
    rewrite E in HP' |- *. apply refresh_fx_rates_keeps, HP'. }
  destruct (Args.incremental args); [apply Hfinish, ingest_incremental_keeps, HP|].
  destruct (given_int (Args.year args)) as [year|]; [|exact HP].
  apply Hfinish, ingest_each_keeps, HP.
Qed.

End StoreInvariant.

(** One quarter of a harvest is one load of the batch of the quarter. *)
Lemma ingest_quarter_loads env pref year quarter w :
  let loaded := insert_transactions (store w)
                  (batch env (length (requests_of (trace w))) pref year quarter) pref in
  ingest_quarter env pref year quarter w
  = (Ok (snd loaded),
     {| store := fst loaded; fx_rates := fx_rates w;
        trace := (trace w ++ harvest_events year pref [quarter])%list |}).
Proof.
  cbv zeta. unfold batch.
  unfold ingest_quarter, bind, try_except, sleep, log, ret, lift, harvest_events.
  rewrite get_transactions_run. cbn [flat_map app].
  destruct (reply_outcome _) as [[[|t ts]|]|e]; cbn [extend store fx_rates trace];
    try (cbn [map_res insert_transactions fst snd]; rewrite <- app_assoc;
         destruct w; reflexivity).
  destruct (map_res _ (t :: ts)) as [records|e];
    [|cbn [extend store fx_rates trace insert_transactions fst snd];
      rewrite <- app_assoc; destruct w; reflexivity].
  unfold insert_transactions_m. cbn [extend store fx_rates trace].
  destruct (insert_transactions _ records pref) as [st inserted].
  cbn [store fx_rates trace fst snd]. rewrite <- app_assoc. reflexivity.
Qed.

Lemma map_res_length {A B : Type} (f : A -> res B) (l : list A) : forall l',
  map_res f l = Ok l' -> length l' = length l.
Proof.
  induction l as [|x l IH]; intros l' H.
  - injection H as <-. reflexivity.
  - cbn [map_res] in H. bind_inv H. bind_inv H. injection H as <-.
    cbn [length]. rewrite (IH _ eq_refl). reflexivity.
Qed.

Lemma hashes_prefix rows rows' :
  rows `prefix_of` rows' -> hashes rows ⊆ hashes rows'.
Proof. intros [k ->]. rewrite hashes_app. set_solver. Qed.

Lemma settled_extends st st' c : store_extends st st' -> settled st c -> settled st' c.
Proof.
  intros (_ & Hm & _) [H|[row H]]; [left; exact H|right].
  exists row. eapply lookup_weaken; eassumption.
Qed.

Lemma covers_extends st st' records :
  store_extends st st' -> covers st records -> covers st' records.
Proof.
  intros Hext [Hh Hm]. split.
  - etrans; [exact Hh|]. apply hashes_prefix. apply Hext.
  - intros r c Hin Hc. eapply settled_extends; [exact Hext|]. eapply Hm; eassumption.
Qed.

Lemma insert_transactions_covers st records pref :
  covers (fst (insert_transactions st records pref)) records.
Proof.
  destruct (insert_transactions_rows st records pref) as (new & Hrows & Hh & _).
  destruct (insert_transactions_tables st records pref) as (_ & Hm & _).
  split.
  - rewrite Hrows, Hh. set_solver.
  - intros r c Hin Hc.
    apply (settled_same_municipalities (ensure_municipalities st ∅ records pref));
      [exact Hm|].
    eapply ensure_municipalities_settles; [|exact Hin|exact Hc].
    intros c0 Hc0. apply elem_of_empty in Hc0. contradiction.
Qed.

Lemma insert_transactions_covered st records pref :
  covers st records -> insert_transactions st records pref = (st, 0).
Proof.
  intros [Hh Hm]. destruct records as [|r records]; [reflexivity|].
  apply insert_transactions_known; assumption.
Qed.

(** The count of a load of at most one page is the number of rows added. *)
Lemma insert_transactions_page_count st records pref :
  (length records <= PAGE_SIZE)%nat ->
  snd (insert_transactions st records pref)
  = Z.of_nat (length (transactions (fst (insert_transactions st records pref))))
    - Z.of_nat (length (transactions st)).
Proof.
  intros Hlen. destruct records as [|r records]; [cbn; lia|].
  rewrite insert_transactions_cons. cbv zeta. cbn [fst snd transactions].
  unfold execute_values. rewrite paginate_single by exact Hlen.
  cbn [fold_left fst]. rewrite ensure_municipalities_rows.
  destruct (insert_do_nothing_spec (r :: records) (transactions st) 0) as (new & -> & _).
  cbn [fst snd]. rewrite length_app. lia.
Qed.

Lemma map_res_raise {A B : Type} (f : A -> res B) (l : list A) :
  Exists (fun x => exists e, f x = Raise e) l -> exists e, map_res f l = Raise e.
Proof.
  induction l as [|x l IH]; intros H; [inversion H|].
  cbn [map_res]. destruct (f x) as [y|e] eqn:E; [|exists e; reflexivity].
  cbn [res_bind]. inversion H as [? ? [e He]|? ? Hl]; subst; [congruence|].
  destruct (IH Hl) as [e ->]. exists e. reflexivity.
Qed.

(** X16.  One record that the transformer cannot handle discards the
    batch of its quarter: nothing of the quarter is stored, the quarter
    counts no new row, no exception leaves the loop, and the pause is
    made as after any other quarter. *)
Theorem one_bad_record_discards_the_quarter env pref year quarter w ts :
  fst (get_transactions env year pref (Some quarter) w) = Ok (Some ts) ->
  Exists (fun t => exists e, transform_record t pref year (Some quarter) = Raise e) ts ->
  ingest_quarter env pref year quarter w
  = (Ok 0, extend w (harvest_events year pref [quarter])).
Proof.
  intros Hreply Hbad. destruct (map_res_raise _ _ Hbad) as [e He].
  unfold ingest_quarter, bind, try_except, sleep, log, ret, lift, harvest_events.
  rewrite get_transactions_run in Hreply |- *. cbn [fst] in Hreply. rewrite Hreply.
  destruct ts as [|t ts]; [inversion Hbad|]. rewrite He.
  cbn [flat_map app extend store fx_rates trace]. rewrite <- app_assoc. reflexivity.
Qed.

Lemma one_bad_record_discards_the_quarter_witness :
  ingest_quarter mixed_feed "13" 2023 1 empty_world
  = (Ok 0, extend empty_world [EvRequest 2023 "13" (Some 1); EvSleep 500]).
Proof.
  apply (one_bad_record_discards_the_quarter mixed_feed "13" 2023 1 empty_world
           [priced "1000000"; numeric_municipality]); [reflexivity|].
  right. left. exists TypeError. vm_compute. reflexivity.
Defined.

(** X17.  A harvest keeps the content hashes of the fact table pairwise
    different, whatever the service delivers. *)
Theorem harvest_keeps_hashes_unique env pref year quarters w :
  unique_hashes (store w) ->
  unique_hashes (store (snd (ingest_prefecture_year env pref year quarters w))).
Proof.
  apply (ingest_prefecture_year_keeps unique_hashes).
  - apply ensure_prefecture_exists_unique.
  - intros st p y q ts records H _ _.
    destruct (insert_transactions_tables st records p) as (_ & _ & _ & _ & Hu). exact (Hu H).
Qed.

Lemma harvest_keeps_hashes_unique_witness :
  unique_hashes (store (snd (ingest_prefecture_year steady_feed "13" 2023 (Some [1])
                               (snd (ingest_prefecture_year steady_feed "13" 2023 (Some [1])
                                       empty_world))))).
Proof.
  apply harvest_keeps_hashes_unique, harvest_keeps_hashes_unique.
  unfold unique_hashes. cbn. constructor.
Defined.

(** X18.  A harvest keeps the references of the fact rows resolved: when
    every fact row has its prefecture and, if it has a municipality
    code, its municipality in the dimension tables, this still holds
    after the harvest. *)
Theorem harvest_keeps_references_resolved env pref year quarters w :
  references_resolved (store w) ->
  references_resolved (store (snd (ingest_prefecture_year env pref year quarters w))).
Proof.
  apply (ingest_prefecture_year_keeps references_resolved).
  - apply ensure_prefecture_exists_resolved.
  - apply insert_transactions_resolved.
Qed.

Lemma harvest_keeps_references_resolved_witness :
  references_resolved
    (store (snd (ingest_prefecture_year steady_feed "13" 2023 (Some [1]) empty_world))).
Proof.
  apply harvest_keeps_references_resolved. unfold references_resolved. cbn. constructor.
Defined.

(** X19.  A harvest only adds: the rows of the two dimension tables are
    kept as they are, and the fact rows that were stored are the first
    fact rows after it, unchanged and in the same order. *)
Theorem harvest_is_append_only env pref year quarters w :
  store_extends (store w) (store (snd (ingest_prefecture_year env pref year quarters w))).
Proof.
  apply (ingest_prefecture_year_keeps (store_extends (store w))).
  - intros st code name H.
    eapply store_extends_trans; [exact H|apply ensure_prefecture_exists_extends].
  - intros st p y q ts records H _ _.
    eapply store_extends_trans; [exact H|apply insert_transactions_extends].
  - apply store_extends_refl.
Qed.

Lemma batch_stable env n pref year quarter :
  stable_feed env -> batch env n pref year quarter = batch env 0 pref year quarter.
Proof. intros H. unfold batch. rewrite (H n O). reflexivity. Qed.

Lemma batch_fits_a_page env n pref year quarter :
  replies_fit_a_page env -> (length (batch env n pref year quarter) <= PAGE_SIZE)%nat.
Proof.
  intros H. unfold batch, reply_outcome.
  destruct (api env n year pref (sent_quarter (Some quarter))) as [status data|] eqn:E;
    [|cbn; lia].
  destruct ((status =? 400) || (status =? 404)); [cbn; lia|].
  destruct ((400 <=? status) && (status <? 600)); [cbn; lia|].
  destruct data as [| |ts]; cbn [data_of map_res]; try (cbn; lia).
  destruct (map_res _ ts) as [records|e] eqn:Em; [|cbn; lia].
  rewrite (map_res_length _ _ _ Em). exact (H _ _ _ _ _ _ E).
Qed.

Section HarvestOfAStableFeed.

Context (env : Env) (pref : string) (year : Z).

Lemma ingest_quarters_cons q0 quarters total w :
  ingest_quarters env pref year (q0 :: quarters) total w
  = let loaded := insert_transactions (store w)
                    (batch env (length (requests_of (trace w))) pref year q0) pref in
    ingest_quarters env pref year quarters (total + snd loaded)
      {| store := fst loaded; fx_rates := fx_rates w;
         trace := (trace w ++ harvest_events year pref [q0])%list |}.
Proof. cbn [ingest_quarters]. unfold bind at 1. rewrite ingest_quarter_loads. reflexivity. Qed.

Lemma ingest_quarters_covers quarters : forall total w,
  stable_feed env ->
  store_extends (store w) (store (snd (ingest_quarters env pref year quarters total w))) /\
  forall q, In q quarters ->
    covers (store (snd (ingest_quarters env pref year quarters total w)))
           (batch env 0 pref year q).
Proof.
  induction quarters as [|q0 quarters IH]; intros total w Hstable.
  - split; [apply store_extends_refl|intros q []].
  - rewrite ingest_quarters_cons. cbv zeta.
    rewrite (batch_stable env _ pref year q0 Hstable).
    set (loaded := insert_transactions (store w) (batch env 0 pref year q0) pref).
    set (w1 := {| store := fst loaded |}).
    destruct (IH (total + snd loaded) w1 Hstable) as [Hext Hcov].
    assert (Hstep : store_extends (store w) (store w1))
      by apply insert_transactions_extends.
    split; [eapply store_extends_trans; eassumption|].
    intros q [<-|Hin]; [|apply Hcov, Hin].
    eapply covers_extends; [exact Hext|]. apply insert_transactions_covers.
Qed.

Lemma ingest_quarters_covered quarters : forall total w,
  stable_feed env ->
  (forall q, In q quarters -> covers (store w) (batch env 0 pref year q)) ->
  exists evs,
    ingest_quarters env pref year quarters total w = (Ok total, extend w evs).
Proof.
  induction quarters as [|q0 quarters IH]; intros total w Hstable Hcov.
  - exists []. cbn. rewrite extend_nil. reflexivity.
  - rewrite ingest_quarters_cons. cbv zeta.
    rewrite (batch_stable env _ pref year q0 Hstable).
    rewrite (insert_transactions_covered _ _ _ (Hcov q0 (or_introl eq_refl))).
    cbn [fst snd]. rewrite Z.add_0_r.
    fold (extend w (harvest_events year pref [q0])).
    destruct (IH total (extend w (harvest_events year pref [q0])) Hstable) as (evs & ->).
    + intros q Hin. apply Hcov. right. exact Hin.
    + eexists. rewrite extend_extend. reflexivity.
Qed.

Lemma ingest_quarters_count quarters : forall total w,
  replies_fit_a_page env ->
  fst (ingest_quarters env pref year quarters total w)
  = Ok (total
        + (Z.of_nat (length (transactions
                               (store (snd (ingest_quarters env pref year quarters total w)))))
           - Z.of_nat (length (transactions (store w))))).
Proof.
  induction quarters as [|q0 quarters IH]; intros total w Hfit.
  - cbn. f_equal. lia.
  - rewrite ingest_quarters_cons. cbv zeta.
    set (records := batch env _ pref year q0).
    pose proof (insert_transactions_page_count (store w) records pref
                  (batch_fits_a_page env _ pref year q0 Hfit)) as Hcount.
    rewrite IH by exact Hfit. cbn [store]. f_equal. lia.
Qed.

Lemma ingest_prefecture_year_quarters quarters w :
  ingest_prefecture_year env pref year quarters w
  = ingest_quarters env pref year (quarters_to_fetch quarters) 0
      {| store := ensure_prefecture_exists (store w) pref
                    (prefecture_name pref ("Prefecture " ++ pref)%string);
         fx_rates := fx_rates w; trace := trace w |}.
Proof. reflexivity. Qed.

End HarvestOfAStableFeed.

(** X20.  Against a feed that returns the same reply each time it is
    asked for a period, a second harvest of the same prefecture, year
    and quarters stores nothing and reports no new row: the store is as
    the first harvest left it. *)
Theorem harvest_is_idempotent_on_a_stable_feed env pref year quarters w :
  stable_feed env ->
  let first := ingest_prefecture_year env pref year quarters w in
  let second := ingest_prefecture_year env pref year quarters (snd first) in
  fst second = Ok 0 /\ store (snd second) = store (snd first).
Proof.
  intros Hstable. cbv zeta.
  set (name := prefecture_name pref ("Prefecture " ++ pref)%string).
  set (w1 := snd (ingest_prefecture_year env pref year quarters w)).
  assert (Hw1 : is_Some (prefectures (store w1) !! pref) /\
                forall q, In q (quarters_to_fetch quarters) ->
                  covers (store w1) (batch env 0 pref year q)).
  { unfold w1. rewrite ingest_prefecture_year_quarters. fold name.
    set (w0 := {| store := ensure_prefecture_exists (store w) pref name |}).
    destruct (ingest_quarters_covers env pref year (quarters_to_fetch quarters) 0 w0 Hstable)
      as [(Hp & _) Hcov].
    split; [|exact Hcov].
    assert (H0 : is_Some (prefectures (store w0) !! pref)).
    { unfold w0. cbn [store]. unfold ensure_prefecture_exists.
      destruct (prefectures (store w) !! pref) eqn:E; [try rewrite E; eauto|].
      cbn [prefectures]. rewrite lookup_insert_eq. eauto. }
    destruct H0 as [row H0]. exists row. eapply lookup_weaken; eassumption. }
  destruct Hw1 as [[row Hrow] Hcov].
  rewrite (ingest_prefecture_year_quarters env pref year quarters w1). fold name.
  assert (Hsame : ensure_prefecture_exists (store w1) pref name = store w1)
    by (unfold ensure_prefecture_exists; rewrite Hrow; reflexivity).
  rewrite Hsame.
  replace {| store := store w1; fx_rates := fx_rates w1; trace := trace w1 |} with w1
    by (destruct w1; reflexivity).
  destruct (ingest_quarters_covered env pref year (quarters_to_fetch quarters) 0 w1
              Hstable Hcov) as (evs & ->).
  split; reflexivity.
Qed.

Lemma harvest_is_idempotent_on_a_stable_feed_witness :
  let first := ingest_prefecture_year steady_feed "13" 2023 None empty_world in
  let second := ingest_prefecture_year steady_feed "13" 2023 None (snd first) in
  fst second = Ok 0 /\ store (snd second) = store (snd first).
Proof.
  apply (harvest_is_idempotent_on_a_stable_feed steady_feed "13" 2023 None empty_world).
  intros n n' year area quarter. reflexivity.
Defined.

(** X21.  When no reply of the feed has more than one insert page of
    records (1000), the count a harvest returns is the number of fact
    rows it added. *)
Theorem harvest_reports_the_rows_it_stored env pref year quarters w :
  replies_fit_a_page env ->
  let run := ingest_prefecture_year env pref year quarters w in
  fst run
  = Ok (Z.of_nat (length (transactions (store (snd run))))
        - Z.of_nat (length (transactions (store w)))).
Proof.
  intros Hfit. cbv zeta. rewrite ingest_prefecture_year_quarters.
  rewrite ingest_quarters_count by exact Hfit. cbn [store]. f_equal.
  replace (transactions (ensure_prefecture_exists (store w) pref _))
    with (transactions (store w))
    by (unfold ensure_prefecture_exists; destruct (prefectures (store w) !! pref); reflexivity).
  lia.
Qed.

Lemma harvest_reports_the_rows_it_stored_witness :
  fst (ingest_prefecture_year steady_feed "13" 2023 (Some [1]) empty_world) = Ok 10.
Proof.
  assert (Hfit : replies_fit_a_page steady_feed).
  { intros n year area quarter status records H. injection H as _ <-.
    vm_compute. repeat constructor. }
  rewrite (harvest_reports_the_rows_it_stored steady_feed "13" 2023 (Some [1])
             empty_world Hfit).
  vm_compute. reflexivity.
Defined.

(** Every code of the table of prefecture codes has an ASCII name. *)
Lemma every_code_has_an_ascii_name :
  forallb (fun kv => match find (fun kv' => String.eqb (snd kv') (snd kv) && isascii (fst kv'))
                                PREFECTURE_CODES with
                     | Some _ => true
                     | None => false
                     end) PREFECTURE_CODES = true.
Proof. vm_compute. reflexivity. Qed.

Lemma prefecture_name_known pref dflt :
  In pref (map snd PREFECTURE_CODES) ->
  isascii (prefecture_name pref dflt) = true /\
  In (prefecture_name pref dflt, pref) PREFECTURE_CODES.
Proof.
  intros Hin. apply in_map_iff in Hin as (kv & <- & Hkv).
  pose proof (proj1 (forallb_forall _ _) every_code_has_an_ascii_name kv Hkv) as H.
  cbv beta in H. unfold prefecture_name.
  destruct (find _ PREFECTURE_CODES) as [kv'|] eqn:E; [|discriminate H].
  apply find_some in E as [Hkv' Hf]. apply andb_true_iff in Hf as [Hc Ha].
  apply String.eqb_eq in Hc. split; [exact Ha|].
  rewrite <- Hc. destruct kv'; exact Hkv'.
Qed.

(** X22.  After a harvest the prefecture has a row in its dimension
    table: the row it had before, unchanged, or else a new row whose two
    name columns both hold the ASCII name of the code in the table of
    prefecture codes (the text [Prefecture] and the code when the table
    has no such code). *)
Theorem harvest_registers_the_prefecture env pref year quarters w :
  let name := prefecture_name pref ("Prefecture " ++ pref)%string in
  prefectures (store (snd (ingest_prefecture_year env pref year quarters w))) !! pref
  = Some (default {| pref_name_ja := name; pref_name_en := name |}
                  (prefectures (store w) !! pref)) /\
  (In pref (map snd PREFECTURE_CODES) ->
   isascii name = true /\ In (name, pref) PREFECTURE_CODES) /\
  (~ In pref (map snd PREFECTURE_CODES) -> name = ("Prefecture " ++ pref)%string).
Proof.
  cbv zeta. set (name := prefecture_name pref ("Prefecture " ++ pref)%string).
  split; [|split].
  - rewrite ingest_prefecture_year_quarters. fold name.
    apply (ingest_quarters_keeps
             (fun st => prefectures st !! pref
                        = Some (default {| pref_name_ja := name; pref_name_en := name |}
                                        (prefectures (store w) !! pref)))).
    + intros st p y q ts records H _ _.
      destruct (insert_transactions_tables st records p) as (-> & _). exact H.
    + cbn [store]. unfold ensure_prefecture_exists.
      destruct (prefectures (store w) !! pref) eqn:E; [try rewrite E; reflexivity|].
      cbn [prefectures default]. apply lookup_insert_eq.
    + cbn [store]. unfold ensure_prefecture_exists.
      destruct (prefectures (store w) !! pref) eqn:E; [try rewrite E; eauto|].
      cbn [prefectures]. rewrite lookup_insert_eq. eauto.
  - intros Hin. unfold name. apply (prefecture_name_known pref _ Hin).
  - intros Hnot. unfold name, prefecture_name.
    destruct (find _ PREFECTURE_CODES) as [kv|] eqn:E; [|reflexivity].
    apply find_some in E as [Hkv Hf]. apply andb_true_iff in Hf as [Hf _].
    apply String.eqb_eq in Hf. contradiction Hnot. rewrite <- Hf.
    apply in_map, Hkv.
Qed.

Lemma harvest_registers_the_prefecture_witness :
  prefectures (store (snd (ingest_prefecture_year nothing_published "13" 2023 None
                             empty_world))) !! "13"
  = Some {| pref_name_ja := "Tokyo"; pref_name_en := "Tokyo" |} /\
  prefecture_name "99" "Prefecture 99" = "Prefecture 99".
Proof.
  destruct (harvest_registers_the_prefecture nothing_published "13" 2023 None empty_world)
    as (Hrow & _ & _).
  split; [exact Hrow|].
  destruct (harvest_registers_the_prefecture nothing_published "99" 2023 None empty_world)
    as (_ & _ & Hunknown).
  apply Hunknown. vm_compute. intros H.
  repeat (destruct H as [H|H]; [discriminate H|]). exact H.
Defined.

(** ** The full import and the incremental update *)

(** The probe paces itself: a pause of half a second follows every
    request that found nothing. *)
Lemma probe_spaced env n : forall year quarter w since,
  pause_suffices 500 since ->
  exists evs,
    snd (probe env n year quarter w) = extend w evs /\
    spaced_from 500 since evs = true.
Proof.
  induction n as [|n IH]; intros year quarter w since Hsince.
  - exists []. cbn. rewrite extend_nil. split; reflexivity.
  - assert (Hreq : forall rest,
               spaced_from 500 (Some 0) rest = true ->
               spaced_from 500 since
                 (EvRequest year "13" (sent_quarter (Some quarter)) :: rest) = true).
    { intros rest Hrest. cbn [spaced_from]. rewrite Hrest.
      destruct since as [pause|]; [|reflexivity].
      rewrite andb_true_r. apply Z.leb_le. exact Hsince. }
    cbn [probe]. unfold bind at 1. rewrite get_transactions_run.
    destruct (reply_outcome _) as [[data|]|e].
    + eexists. split; [reflexivity|]. apply Hreq. reflexivity.
    + destruct (step_back year quarter) as [y' q']. unfold bind at 1, sleep, log.
      cbn [extend store fx_rates trace].
      destruct (IH y' q' {| store := store w; fx_rates := fx_rates w;
                            trace := (trace w ++ [EvRequest year "13" (sent_quarter (Some quarter))])
                                     ++ [EvSleep 500] |} (Some (0 + 500)))
        as (evs & -> & Hevs); [cbn; lia|].
      exists ([EvRequest year "13" (sent_quarter (Some quarter)); EvSleep 500] ++ evs)%list.
      unfold extend. cbn [store fx_rates trace]. rewrite <- !app_assoc.
      split; [reflexivity|]. cbn [app]. apply Hreq. cbn [spaced_from option_map]. exact Hevs.
    + eexists. split; [reflexivity|]. apply Hreq. reflexivity.
Qed.

(** X23.  The probe for the latest published quarter changes nothing that
    is stored and paces its own requests: the events it adds to the
    trace are requests for the reference prefecture, each one that
    found nothing followed by a pause of half a second, so consecutive
    requests of the probe are at least 0.5 s apart. *)
Theorem probe_paces_its_requests env w :
  exists evs,
    snd (find_latest_available_quarter env w) = extend w evs /\
    spaced 500 evs = true /\
    fx_requests_of evs = [].
Proof.
  unfold find_latest_available_quarter.
  destruct (probe_start (now_year env) (now_month env)) as [year quarter].
  destruct (probe_spaced env 4 year quarter w None I) as (evs & E & Hs).
  destruct (probe_store env 4 year quarter w) as (evs' & E' & Hfx).
  exists evs. split; [exact E|]. split; [exact Hs|].
  rewrite E in E'. unfold extend in E'. injection E' as E'.
  apply app_inv_head in E'. subst evs'. exact Hfx.
Qed.

Lemma length_range a b : length (range a b) = Z.to_nat (b - a).
Proof. unfold range. rewrite length_map, length_seq. reflexivity. Qed.

(** X24.  A full import never raises and leaves the FX table alone.  It
    runs one harvest of the four quarters for each prefecture and each
    year from [start_year] to the current year, prefecture by
    prefecture: four requests per prefecture and year, each followed by
    the pause of the harvest loop.  The default list has the 47
    prefecture codes; an empty list given by the caller imports nothing. *)
Theorem ingest_full_history_plan env start_year prefectures w :
  let chosen := match prefectures with
                | Some ps => ps
                | None => sorted_prefecture_codes
                end in
  let plan := history_plan chosen (range start_year (now_year env + 1)) in
  (exists st,
      ingest_full_history env start_year prefectures w
      = (Ok tt, {| store := st; fx_rates := fx_rates w;
                   trace := (trace w ++ harvests_events plan)%list |})) /\
  length (requests_of (harvests_events plan))
  = (4 * (length chosen * Z.to_nat (now_year env + 1 - start_year)))%nat /\
  spaced MIN_REQUEST_INTERVAL (harvests_events plan) = true /\
  length sorted_prefecture_codes = 47%nat.
Proof.
  cbv zeta. split; [apply ingest_full_history_run|].
  split; [rewrite length_requests_of_history, length_range; reflexivity|].
  split; [|reflexivity].
  apply spaced_from_harvests; [lia|exact I].
Qed.

Lemma periods_back_valid n : forall p i pi,
  valid_quarter p -> nth_error (periods_back n p) i = Some pi -> valid_quarter pi.
Proof.
  induction n as [|n IH]; intros p i pi Hv H; [destruct i; discriminate H|].
  destruct i as [|i]; cbn in H.
  - injection H as <-. exact Hv.
  - eapply IH; [|exact H]. apply previous_quarter_valid, Hv.
Qed.

Lemma requests_of_quarter_plan prefectures year quarter :
  requests_of (harvests_events (quarter_plan prefectures year [quarter]))
  = map (fun p => EvRequest year p (sent_quarter (Some quarter))) prefectures.
Proof.
  rewrite requests_of_harvests_events. unfold quarter_plan.
  induction prefectures as [|p prefectures IH]; [reflexivity|].
  cbn [map flat_map fst snd app]. rewrite IH. reflexivity.
Qed.

Lemma find_latest_available_quarter_start env w :
  1 <= now_month env <= 12 ->
  let start := previous_quarter (now_year env, quarter_of_month (now_month env)) in
  valid_quarter start /\
  find_latest_available_quarter env w = probe env 4 (fst start) (snd start) w.
Proof.
  intros Hmonth. cbv zeta.
  destruct (probe_start_previous (now_year env) (now_month env) Hmonth) as [Hstart Hvalid].
  unfold find_latest_available_quarter. rewrite Hstart in *.
  split; [exact Hvalid|].
  destruct (previous_quarter _); reflexivity.
Qed.

(** X25.  When none of the four probed quarters is published the
    incremental update ends after the four requests and pauses of the
    probe: it returns without an exception, harvests nothing, and does
    not run the FX refresh either, so nothing stored changes. *)
Theorem ingest_incremental_without_data env w :
  1 <= now_month env <= 12 ->
  let start := previous_quarter (now_year env, quarter_of_month (now_month env)) in
  forallb unavailable (probe_replies env (length (requests_of (trace w))) 4 start) = true ->
  ingest_incremental env w
  = (Ok tt, extend w (probe_misses (periods_back 4 start))).
Proof.
  intros Hmonth. cbv zeta. intros Hall.
  destruct (find_latest_available_quarter_start env w Hmonth) as [Hvalid Hfind].
  unfold ingest_incremental, bind. rewrite Hfind.
  rewrite (probe_all_unavailable env 4 _ w Hvalid Hall). reflexivity.
Qed.

Lemma ingest_incremental_without_data_witness :
  ingest_incremental nothing_published empty_world
  = (Ok tt,
     extend empty_world
       [EvRequest 2024 "13" (Some 1); EvSleep 500; EvRequest 2023 "13" (Some 4); EvSleep 500;
        EvRequest 2023 "13" (Some 3); EvSleep 500; EvRequest 2023 "13" (Some 2); EvSleep 500]).
Proof.
  assert (Hmonth : 1 <= 5 <= 12) by lia.
  exact (ingest_incremental_without_data nothing_published empty_world Hmonth eq_refl).
Defined.

(** X26.  When the probe finds a published quarter the incremental update
    asks for exactly that quarter once for each of the 47 prefectures,
    in the order of their codes, and sends no other transaction
    request, whatever the replies are and however the FX refresh that
    follows ends. *)
Theorem ingest_incremental_harvests_found_quarter env w i r pi data :
  1 <= now_month env <= 12 ->
  let start := previous_quarter (now_year env, quarter_of_month (now_month env)) in
  let periods := periods_back 4 start in
  let replies := probe_replies env (length (requests_of (trace w))) 4 start in
  forallb unavailable (firstn i replies) = true ->
  nth_error replies i = Some r ->
  reply_outcome r = Ok (Some data) ->
  nth_error periods i = Some pi ->
  requests_of (trace (snd (ingest_incremental env w)))
  = (requests_of (trace w) ++ map probe_request (firstn (S i) periods)
     ++ map (fun p => EvRequest (fst pi) p (Some (snd pi))) sorted_prefecture_codes)%list /\
  length sorted_prefecture_codes = 47%nat.
Proof.
  intros Hmonth. cbv zeta. intros Hpre Hr Hdata Hpi. split; [|reflexivity].
  destruct (find_latest_available_quarter_start env w Hmonth) as [Hvalid Hfind].
  unfold ingest_incremental. unfold bind at 1. rewrite Hfind.
  rewrite (probe_first_hit env 4 _ w i r pi Hvalid Hpre Hr (reply_outcome_data _ _ Hdata) Hpi).
  rewrite Hdata. unfold bind.
  set (w1 := extend w _).
  destruct (ingest_prefectures_run env sorted_prefecture_codes (fst pi) (snd pi) 0 w1)
    as (n & st & ->).
  set (w2 := {| store := st |}).
  destruct (refresh_fx_rates_run env 2005 w2) as (evs & table & -> & Hevs & _).
  cbn [trace]. unfold w2, w1. cbn [trace].
  rewrite !requests_of_app, Hevs, app_nil_r.
  rewrite requests_after_probe, requests_of_quarter_plan.
  rewrite (sent_quarter_valid pi (periods_back_valid _ _ _ _ Hvalid Hpi)).
  rewrite (firstn_snoc _ _ _ Hpi), map_app. cbn [requests_of List.filter is_request map].
  rewrite <- !app_assoc. reflexivity.
Qed.

Lemma ingest_incremental_harvests_found_quarter_witness :
  requests_of (trace (snd (ingest_incremental published_until_2023_q3 empty_world)))
  = ([EvRequest 2024 "13" (Some 1); EvRequest 2023 "13" (Some 4);
      EvRequest 2023 "13" (Some 3)]
     ++ map (fun p => EvRequest 2023 p (Some 3)) sorted_prefecture_codes)%list.
Proof.
  assert (Hmonth : 1 <= 5 <= 12) by lia.
  exact (proj1 (ingest_incremental_harvests_found_quarter published_until_2023_q3
                  empty_world 2%nat (Reply 200 (DataList [])) (2023, 3) [] Hmonth
                  eq_refl eq_refl eq_refl eq_refl)).
Defined.

(** ** The command line *)

Lemma finish_world (run : res unit * World) : snd (finish run) = snd run.
Proof. destruct run as [[[]|e] w]; reflexivity. Qed.

Lemma insert_transactions_unique st pref year quarter ts records :
  unique_hashes st -> is_Some (prefectures st !! pref) ->
  map_res (fun t => transform_record t pref year quarter) ts = Ok records ->
  unique_hashes (fst (insert_transactions st records pref)).
Proof.
  intros H _ _.
  destruct (insert_transactions_tables st records pref) as (_ & _ & _ & _ & Hu). exact (Hu H).
Qed.

Lemma store_extends_prefecture st0 st code name :
  store_extends st0 st -> store_extends st0 (ensure_prefecture_exists st code name).
Proof.
  intros H. eapply store_extends_trans; [exact H|apply ensure_prefecture_exists_extends].
Qed.

Lemma store_extends_insert st0 st pref year quarter ts records :
  store_extends st0 st -> is_Some (prefectures st !! pref) ->
  map_res (fun t => transform_record t pref year quarter) ts = Ok records ->
  store_extends st0 (fst (insert_transactions st records pref)).
Proof.
  intros H _ _. eapply store_extends_trans; [exact H|apply insert_transactions_extends].
Qed.

(** A run of [main] keeps the rows of the FX table. *)
Lemma main_keeps_fx_rows env API_KEY args w key row :
  fx_rates w !! key = Some row ->
  fx_rates (snd (main env API_KEY args w)) !! key = Some row.
Proof.
  intros Hk. unfold main.
  destruct (Args.refresh_fx_only args);
    [rewrite finish_world; apply refresh_fx_rates_keeps_rows, Hk|].
  destruct (String.eqb API_KEY PLACEHOLDER_API_KEY); [exact Hk|].
  destruct (Args.full args).
  { rewrite finish_world. unfold bind.
    destruct (ingest_full_history_run env 2005
                match given_text (Args.prefecture args) with
                | Some p => Some [p] | None => None end w) as (st & ->).
    apply refresh_fx_rates_keeps_rows. exact Hk. }
  destruct (Args.incremental args).
  { rewrite finish_world. unfold ingest_incremental. unfold bind at 1.
    destruct (find_latest_available_quarter_store env w) as (evs & E).
    destruct (find_latest_available_quarter env w) as [[[[year|] [quarter|]]|e] w1];
      cbn [snd] in E; subst w1; try exact Hk.
    unfold bind.
    destruct (ingest_prefectures_run env sorted_prefecture_codes year quarter 0 (extend w evs))
      as (n & st & ->).
    apply refresh_fx_rates_keeps_rows. exact Hk. }
  destruct (given_int (Args.year args)) as [year|]; [|exact Hk].
  rewrite finish_world.
  destruct (ingest_each_run env
              match given_text (Args.prefecture args) with
              | Some p => [p] | None => sorted_prefecture_codes end
              year
              match given_int (Args.quarter args) with
              | Some q => Some [q] | None => None end w) as (st & ->).
  exact Hk.
Qed.

(** X27.  Whatever the command line, the API key and the replies of the
    two services, a run of [main] removes and rewrites nothing that is
    stored: the rows of the dimension tables and of the FX table are
    kept, the fact rows stored before are the first fact rows after it,
    the content hashes stay pairwise different, and the references of
    the fact rows stay resolved. *)
Theorem main_keeps_what_is_stored env API_KEY args w :
  let w' := snd (main env API_KEY args w) in
  store_extends (store w) (store w') /\
  (unique_hashes (store w) -> unique_hashes (store w')) /\
  (references_resolved (store w) -> references_resolved (store w')) /\
  (forall key row, fx_rates w !! key = Some row -> fx_rates w' !! key = Some row).
Proof.
  cbv zeta. split; [|split; [|split]].
  - apply (main_keeps (store_extends (store w)));
      [apply store_extends_prefecture|apply store_extends_insert|apply store_extends_refl].
  - apply (main_keeps unique_hashes);
      [apply ensure_prefecture_exists_unique|apply insert_transactions_unique].
  - apply (main_keeps references_resolved);
      [apply ensure_prefecture_exists_resolved|apply insert_transactions_resolved].
  - intros key row. apply main_keeps_fx_rows.
Qed.

Lemma main_keeps_what_is_stored_witness :
  let w' := snd (main steady_feed "key" first_quarter_of_tokyo empty_world) in
  unique_hashes (store w') /\ references_resolved (store w').
Proof.
  cbv zeta.
  destruct (main_keeps_what_is_stored steady_feed "key" first_quarter_of_tokyo empty_world)
    as (_ & Hu & Hr & _).
  split; [apply Hu|apply Hr]; cbn; constructor.
Defined.

(** X28.  Without an API key (the placeholder is still in place) [main]
    sends no transaction request and leaves the store alone: it leaves
    with exit status 1 before doing anything, unless only the FX refresh
    was asked for, which needs no key. *)
Theorem main_without_api_key env args w :
  let run := main env PLACEHOLDER_API_KEY args w in
  store (snd run) = store w /\
  requests_of (trace (snd run)) = requests_of (trace w) /\
  (Args.refresh_fx_only args = false -> run = (SystemExit 1, w)).
Proof.
  cbv zeta. unfold main. destruct (Args.refresh_fx_only args).
  - rewrite finish_world.
    destruct (refresh_fx_rates_run env 2005 w) as (evs & table & -> & Hevs & _).
    cbn [store trace]. split; [reflexivity|]. split; [|discriminate].
    rewrite requests_of_app, Hevs, app_nil_r. reflexivity.
  - rewrite String.eqb_refl. cbn [fst snd]. repeat split.
Qed.

Lemma main_without_api_key_witness :
  main steady_feed PLACEHOLDER_API_KEY full_import_of_tokyo empty_world
  = (SystemExit 1, empty_world).
Proof.
  destruct (main_without_api_key steady_feed full_import_of_tokyo empty_world)
    as (_ & _ & H).
  apply H. reflexivity.
Defined.
